(** * CadApp viewer: camera, model and settings logic

    A shallow embedding of the scene manager (scene.js), the axes widget
    (axesActor.js) and the settings panel (settingsView.js) of the CadApp
    STL viewer, with the properties of their camera and model arithmetic.

    Numbers.  JavaScript numbers are modelled by the real numbers [R]:
    sums, products, quotients, [Math.sqrt], [Math.sin], [Math.cos],
    [Math.min] and [Math.max] are the exact operations.  Rounding, NaN and
    the infinities of IEEE doubles have no counterpart here, so every
    statement below is about runs whose values are finite, read with exact
    arithmetic; no statement depends on the value of a quotient by 0.  The
    one place where the viewer narrows a number is the [Float32Array] that
    holds the vertex positions of a geometry: a store there rounds to
    float32, and [Module Float32] gives that rounding.

    three.js. The vector, quaternion and box primitives the viewer computes
    with are transcribed in [Module THREE] from the library's methods of the
    same names.  The scene-graph services whose results the viewer only
    passes on ([Object3D.lookAt], [getWorldDirection], [getWorldQuaternion],
    [Box3.setFromObject], [OrbitControls.update], [Quaternion.slerp]) are the
    fields of the class [ThreeServices]: the theorems hold for every
    implementation of them.  [OrbitControls.update] is transcribed as well,
    in [Module OrbitControls], for the controls [init] builds; where a fit
    or a preset view leaves the camera is stated for services whose update
    is that function ([OrbitControls.inUse]).

    State. A method of the scene manager is a function from the manager's
    fields, [SceneManager], to their new values; the variables a handler
    closes over are a record of their own, passed and returned next to the
    manager.  Drawing, logging and pointer capture change none of the fields
    and are left out. *)

From Stdlib Require Import Reals Lra Lia List String Ascii Bool Arith Psatz.
From Stdlib Require Import DecimalString ZArith.
Import ListNotations.

Local Open Scope R_scope.

(** ** three.js primitives *)

Module THREE.

Record Vector3 := mkV3 { vx : R; vy : R; vz : R }.

Record Quaternion := mkQ { qx : R; qy : R; qz : R; qw : R }.

(** [a || b] on numbers: the left operand unless it is 0. *)
Definition num_or (a b : R) : R := if Req_dec_T a 0 then b else a.

Definition zero3 : Vector3 := mkV3 0 0 0.

Definition add (a b : Vector3) : Vector3 :=
  mkV3 (vx a + vx b) (vy a + vy b) (vz a + vz b).

Definition sub (a b : Vector3) : Vector3 :=
  mkV3 (vx a - vx b) (vy a - vy b) (vz a - vz b).

Definition multiplyScalar (v : Vector3) (s : R) : Vector3 :=
  mkV3 (vx v * s) (vy v * s) (vz v * s).

(** [divideScalar(s)] is [multiplyScalar(1 / s)]. *)
Definition divideScalar (v : Vector3) (s : R) : Vector3 :=
  multiplyScalar v (1 / s).

Definition addScaledVector (v w : Vector3) (s : R) : Vector3 :=
  mkV3 (vx v + vx w * s) (vy v + vy w * s) (vz v + vz w * s).

Definition lengthSq (v : Vector3) : R :=
  vx v * vx v + vy v * vy v + vz v * vz v.

Definition length (v : Vector3) : R := sqrt (lengthSq v).

(** [normalize()] is [divideScalar(length() || 1)]. *)
Definition normalize (v : Vector3) : Vector3 :=
  divideScalar v (num_or (length v) 1).

(** [setLength(l)] is [normalize().multiplyScalar(l)]. *)
Definition setLength (v : Vector3) (l : R) : Vector3 :=
  multiplyScalar (normalize v) l.

Definition crossVectors (a b : Vector3) : Vector3 :=
  mkV3 (vy a * vz b - vz a * vy b)
       (vz a * vx b - vx a * vz b)
       (vx a * vy b - vy a * vx b).

Definition identityQ : Quaternion := mkQ 0 0 0 1.

(** [setFromAxisAngle(axis, angle)]; the axis is assumed normalized by the
    library and is not renormalized. *)
Definition setFromAxisAngle (axis : Vector3) (angle : R) : Quaternion :=
  let halfAngle := angle / 2 in
  let s := sin halfAngle in
  mkQ (vx axis * s) (vy axis * s) (vz axis * s) (cos halfAngle).

Definition multiplyQuaternions (a b : Quaternion) : Quaternion :=
  mkQ (qx a * qw b + qw a * qx b + qy a * qz b - qz a * qy b)
      (qy a * qw b + qw a * qy b + qz a * qx b - qx a * qz b)
      (qz a * qw b + qw a * qz b + qx a * qy b - qy a * qx b)
      (qw a * qw b - qx a * qx b - qy a * qy b - qz a * qz b).

(** [this.multiply(q)] is [this * q]; [this.premultiply(q)] is [q * this]. *)
Definition multiply (this q : Quaternion) : Quaternion :=
  multiplyQuaternions this q.

Definition premultiply (this q : Quaternion) : Quaternion :=
  multiplyQuaternions q this.

Definition conjugate (q : Quaternion) : Quaternion :=
  mkQ (- qx q) (- qy q) (- qz q) (qw q).

(** [invert()] returns the conjugate: the library takes the quaternion to
    have unit length. *)
Definition invert (q : Quaternion) : Quaternion := conjugate q.

Definition qLengthSq (q : Quaternion) : R :=
  qx q * qx q + qy q * qy q + qz q * qz q + qw q * qw q.

(** [Vector3.applyQuaternion(q)]: the product [q * v * conjugate q]. *)
Definition applyQuaternion (v : Vector3) (q : Quaternion) : Vector3 :=
  let x := vx v in let y := vy v in let z := vz v in
  let ix := qw q * x + qy q * z - qz q * y in
  let iy := qw q * y + qz q * x - qx q * z in
  let iz := qw q * z + qx q * y - qy q * x in
  let iw := - qx q * x - qy q * y - qz q * z in
  mkV3 (ix * qw q + iw * - qx q + iy * - qz q - iz * - qy q)
       (iy * qw q + iw * - qy q + iz * - qx q - ix * - qz q)
       (iz * qw q + iw * - qz q + ix * - qy q - iy * - qx q).

(** A box: [Box3_makeEmpty] is the library's empty box, whose minimum is
    +Infinity and whose maximum is -Infinity in every coordinate. *)
Inductive Box3 :=
| Box3_make (bmin bmax : Vector3)
| Box3_makeEmpty.

Definition ltb (a b : R) : bool := if Rlt_dec a b then true else false.

Definition isEmpty (b : Box3) : bool :=
  match b with
  | Box3_makeEmpty => true
  | Box3_make mn mx =>
      ltb (vx mx) (vx mn) || ltb (vy mx) (vy mn) || ltb (vz mx) (vz mn)
  end.

Definition getCenter (b : Box3) : Vector3 :=
  match b with
  | Box3_makeEmpty => zero3
  | Box3_make mn mx =>
      if isEmpty b then zero3 else multiplyScalar (add mn mx) 0.5
  end.

Definition getSize (b : Box3) : Vector3 :=
  match b with
  | Box3_makeEmpty => zero3
  | Box3_make mn mx => if isEmpty b then zero3 else sub mx mn
  end.

Definition expandByPoint (b : Box3) (p : Vector3) : Box3 :=
  match b with
  | Box3_makeEmpty => Box3_make p p
  | Box3_make mn mx =>
      Box3_make (mkV3 (Rmin (vx mn) (vx p)) (Rmin (vy mn) (vy p)) (Rmin (vz mn) (vz p)))
                (mkV3 (Rmax (vx mx) (vx p)) (Rmax (vy mx) (vy p)) (Rmax (vz mx) (vz p)))
  end.

(** [Box3.setFromBufferAttribute]: the box of a list of vertex positions. *)
Definition setFromPoints (ps : list Vector3) : Box3 :=
  fold_left expandByPoint ps Box3_makeEmpty.

End THREE.

Import THREE.


(** ** Scene objects *)

(** An orthographic camera: the fields the viewer reads and writes. *)
Record Camera := mkCamera {
  cam_position : Vector3;
  cam_up : Vector3;
  cam_quaternion : Quaternion;
  cam_left : R;
  cam_right : R;
  cam_top : R;
  cam_bottom : R
}.

Definition cam_set_position (p : Vector3) (c : Camera) : Camera :=
  mkCamera p (cam_up c) (cam_quaternion c)
    (cam_left c) (cam_right c) (cam_top c) (cam_bottom c).

Definition cam_set_up (u : Vector3) (c : Camera) : Camera :=
  mkCamera (cam_position c) u (cam_quaternion c)
    (cam_left c) (cam_right c) (cam_top c) (cam_bottom c).

Definition cam_set_quaternion (q : Quaternion) (c : Camera) : Camera :=
  mkCamera (cam_position c) (cam_up c) q
    (cam_left c) (cam_right c) (cam_top c) (cam_bottom c).

Definition cam_set_frustum (l r t b : R) (c : Camera) : Camera :=
  mkCamera (cam_position c) (cam_up c) (cam_quaternion c) l r t b.

(** The OrbitControls object: its look target and the flag the pointer
    handlers test. *)
Record Controls := mkControls {
  target : Vector3;
  enableRotate : bool
}.

Definition ctl_set_target (t : Vector3) (c : Controls) : Controls :=
  mkControls t (enableRotate c).

(** The two shared materials; a mesh refers to one of them. *)
Record Material := mkMaterial { wireframe : bool }.

Inductive MaterialRef := DefaultMat | SelectedMat.

(** A mesh: [mesh_id] is the identity of the JavaScript object, [geometry]
    the vertex positions of its buffer geometry. *)
Record Mesh := mkMesh {
  mesh_id : nat;
  geometry : list Vector3;
  material : option MaterialRef;
  name : string
}.

Record LineSegments := mkLineSegments {
  ls_visible : bool;
  renderOrder : nat
}.

Record EdgesGroup := mkEdgesGroup {
  eg_id : nat;
  eg_visible : bool
}.

(** Children of the artifact group, by object identity. *)
Inductive Child :=
| ChildMesh (id : nat)
| ChildEdges (id : nat).

Record Group := mkGroup {
  grp_quaternion : Quaternion;
  children : list Child
}.

Definition grp_set_quaternion (q : Quaternion) (g : Group) : Group :=
  mkGroup q (children g).

Definition grp_set_children (cs : list Child) (g : Group) : Group :=
  mkGroup (grp_quaternion g) cs.

(** The axes widget: its own camera and the group holding the three axes.
    The [parentCamera] reference it also stores is never read. *)
Record AxesActor := mkAxesActor {
  axes_camera : Camera;
  axesGroup_quaternion : Quaternion;
  axes_visible : bool
}.

Record Sensitivities := mkSensitivities {
  rotationBaseSpeed : R;
  rotationGain : R;
  rotationMinMult : R;
  rotationMaxMult : R;
  panBase : R;
  panGain : R;
  panMinMult : R;
  panMaxMult : R;
  orbitGain : R;
  orbitMinMult : R;
  orbitMaxMult : R
}.

(** The closure of one animated rotation: what [step] captured. *)
Record RotationStep := mkRotationStep {
  startQ : Quaternion;
  endQ : Quaternion;
  startTime : R;
  duration : R
}.

Record SceneManager := mkSceneManager {
  camera : option Camera;
  controls : option Controls;
  artifactGroup : option Group;
  core : option Mesh;
  defaultMaterial : Material;
  selectedMaterial : Material;
  frustumSize : R;
  axesActor : option AxesActor;
  sens : Sensitivities;
  _visualStyle : string;
  _featureAngle : R;
  _edgesGroup : option EdgesGroup;
  _visibleEdgeLines : option LineSegments;
  _hiddenEdgeLines : option LineSegments;
  _rotationAnimating : bool;
  _rotationCancelToken : bool;
  frameCallbacks : list RotationStep;
  disposed : list nat;
  nextId : nat
}.

Definition set_camera (v : option Camera) (s : SceneManager) : SceneManager :=
  mkSceneManager v (controls s) (artifactGroup s) (core s) (defaultMaterial s)
    (selectedMaterial s) (frustumSize s) (axesActor s) (sens s)
    (_visualStyle s) (_featureAngle s) (_edgesGroup s) (_visibleEdgeLines s)
    (_hiddenEdgeLines s) (_rotationAnimating s) (_rotationCancelToken s)
    (frameCallbacks s) (disposed s) (nextId s).

Definition set_controls (v : option Controls) (s : SceneManager) : SceneManager :=
  mkSceneManager (camera s) v (artifactGroup s) (core s) (defaultMaterial s)
    (selectedMaterial s) (frustumSize s) (axesActor s) (sens s)
    (_visualStyle s) (_featureAngle s) (_edgesGroup s) (_visibleEdgeLines s)
    (_hiddenEdgeLines s) (_rotationAnimating s) (_rotationCancelToken s)
    (frameCallbacks s) (disposed s) (nextId s).

Definition set_artifactGroup (v : option Group) (s : SceneManager) : SceneManager :=
  mkSceneManager (camera s) (controls s) v (core s) (defaultMaterial s)
    (selectedMaterial s) (frustumSize s) (axesActor s) (sens s)
    (_visualStyle s) (_featureAngle s) (_edgesGroup s) (_visibleEdgeLines s)
    (_hiddenEdgeLines s) (_rotationAnimating s) (_rotationCancelToken s)
    (frameCallbacks s) (disposed s) (nextId s).

Definition set_core (v : option Mesh) (s : SceneManager) : SceneManager :=
  mkSceneManager (camera s) (controls s) (artifactGroup s) v
    (defaultMaterial s) (selectedMaterial s) (frustumSize s) (axesActor s)
    (sens s) (_visualStyle s) (_featureAngle s) (_edgesGroup s)
    (_visibleEdgeLines s) (_hiddenEdgeLines s) (_rotationAnimating s)
    (_rotationCancelToken s) (frameCallbacks s) (disposed s) (nextId s).

Definition set_defaultMaterial (v : Material) (s : SceneManager) : SceneManager :=
  mkSceneManager (camera s) (controls s) (artifactGroup s) (core s) v
    (selectedMaterial s) (frustumSize s) (axesActor s) (sens s)
    (_visualStyle s) (_featureAngle s) (_edgesGroup s) (_visibleEdgeLines s)
    (_hiddenEdgeLines s) (_rotationAnimating s) (_rotationCancelToken s)
    (frameCallbacks s) (disposed s) (nextId s).

Definition set_selectedMaterial (v : Material) (s : SceneManager) : SceneManager :=
  mkSceneManager (camera s) (controls s) (artifactGroup s) (core s)
    (defaultMaterial s) v (frustumSize s) (axesActor s) (sens s)
    (_visualStyle s) (_featureAngle s) (_edgesGroup s) (_visibleEdgeLines s)
    (_hiddenEdgeLines s) (_rotationAnimating s) (_rotationCancelToken s)
    (frameCallbacks s) (disposed s) (nextId s).

Definition set_frustumSize (v : R) (s : SceneManager) : SceneManager :=
  mkSceneManager (camera s) (controls s) (artifactGroup s) (core s)
    (defaultMaterial s) (selectedMaterial s) v (axesActor s) (sens s)
    (_visualStyle s) (_featureAngle s) (_edgesGroup s) (_visibleEdgeLines s)
    (_hiddenEdgeLines s) (_rotationAnimating s) (_rotationCancelToken s)
    (frameCallbacks s) (disposed s) (nextId s).

Definition set_axesActor (v : option AxesActor) (s : SceneManager) : SceneManager :=
  mkSceneManager (camera s) (controls s) (artifactGroup s) (core s)
    (defaultMaterial s) (selectedMaterial s) (frustumSize s) v (sens s)
    (_visualStyle s) (_featureAngle s) (_edgesGroup s) (_visibleEdgeLines s)
    (_hiddenEdgeLines s) (_rotationAnimating s) (_rotationCancelToken s)
    (frameCallbacks s) (disposed s) (nextId s).

Definition set_sens (v : Sensitivities) (s : SceneManager) : SceneManager :=
  mkSceneManager (camera s) (controls s) (artifactGroup s) (core s)
    (defaultMaterial s) (selectedMaterial s) (frustumSize s) (axesActor s) v
    (_visualStyle s) (_featureAngle s) (_edgesGroup s) (_visibleEdgeLines s)
    (_hiddenEdgeLines s) (_rotationAnimating s) (_rotationCancelToken s)
    (frameCallbacks s) (disposed s) (nextId s).

Definition set_visualStyle (v : string) (s : SceneManager) : SceneManager :=
  mkSceneManager (camera s) (controls s) (artifactGroup s) (core s)
    (defaultMaterial s) (selectedMaterial s) (frustumSize s) (axesActor s)
    (sens s) v (_featureAngle s) (_edgesGroup s) (_visibleEdgeLines s)
    (_hiddenEdgeLines s) (_rotationAnimating s) (_rotationCancelToken s)
    (frameCallbacks s) (disposed s) (nextId s).

Definition set_featureAngle (v : R) (s : SceneManager) : SceneManager :=
  mkSceneManager (camera s) (controls s) (artifactGroup s) (core s)
    (defaultMaterial s) (selectedMaterial s) (frustumSize s) (axesActor s)
    (sens s) (_visualStyle s) v (_edgesGroup s) (_visibleEdgeLines s)
    (_hiddenEdgeLines s) (_rotationAnimating s) (_rotationCancelToken s)
    (frameCallbacks s) (disposed s) (nextId s).

Definition set_edgesGroup (v : option EdgesGroup) (s : SceneManager) : SceneManager :=
  mkSceneManager (camera s) (controls s) (artifactGroup s) (core s)
    (defaultMaterial s) (selectedMaterial s) (frustumSize s) (axesActor s)
    (sens s) (_visualStyle s) (_featureAngle s) v (_visibleEdgeLines s)
    (_hiddenEdgeLines s) (_rotationAnimating s) (_rotationCancelToken s)
    (frameCallbacks s) (disposed s) (nextId s).

Definition set_visibleEdgeLines (v : option LineSegments) (s : SceneManager) : SceneManager :=
  mkSceneManager (camera s) (controls s) (artifactGroup s) (core s)
    (defaultMaterial s) (selectedMaterial s) (frustumSize s) (axesActor s)
    (sens s) (_visualStyle s) (_featureAngle s) (_edgesGroup s) v
    (_hiddenEdgeLines s) (_rotationAnimating s) (_rotationCancelToken s)
    (frameCallbacks s) (disposed s) (nextId s).

Definition set_hiddenEdgeLines (v : option LineSegments) (s : SceneManager) : SceneManager :=
  mkSceneManager (camera s) (controls s) (artifactGroup s) (core s)
    (defaultMaterial s) (selectedMaterial s) (frustumSize s) (axesActor s)
    (sens s) (_visualStyle s) (_featureAngle s) (_edgesGroup s)
    (_visibleEdgeLines s) v (_rotationAnimating s) (_rotationCancelToken s)
    (frameCallbacks s) (disposed s) (nextId s).

Definition set_rotationAnimating (v : bool) (s : SceneManager) : SceneManager :=
  mkSceneManager (camera s) (controls s) (artifactGroup s) (core s)
    (defaultMaterial s) (selectedMaterial s) (frustumSize s) (axesActor s)
    (sens s) (_visualStyle s) (_featureAngle s) (_edgesGroup s)
    (_visibleEdgeLines s) (_hiddenEdgeLines s) v (_rotationCancelToken s)
    (frameCallbacks s) (disposed s) (nextId s).

Definition set_rotationCancelToken (v : bool) (s : SceneManager) : SceneManager :=
  mkSceneManager (camera s) (controls s) (artifactGroup s) (core s)
    (defaultMaterial s) (selectedMaterial s) (frustumSize s) (axesActor s)
    (sens s) (_visualStyle s) (_featureAngle s) (_edgesGroup s)
    (_visibleEdgeLines s) (_hiddenEdgeLines s) (_rotationAnimating s) v
    (frameCallbacks s) (disposed s) (nextId s).

Definition set_frameCallbacks (v : list RotationStep) (s : SceneManager) : SceneManager :=
  mkSceneManager (camera s) (controls s) (artifactGroup s) (core s)
    (defaultMaterial s) (selectedMaterial s) (frustumSize s) (axesActor s)
    (sens s) (_visualStyle s) (_featureAngle s) (_edgesGroup s)
    (_visibleEdgeLines s) (_hiddenEdgeLines s) (_rotationAnimating s)
    (_rotationCancelToken s) v (disposed s) (nextId s).

Definition set_disposed (v : list nat) (s : SceneManager) : SceneManager :=
  mkSceneManager (camera s) (controls s) (artifactGroup s) (core s)
    (defaultMaterial s) (selectedMaterial s) (frustumSize s) (axesActor s)
    (sens s) (_visualStyle s) (_featureAngle s) (_edgesGroup s)
    (_visibleEdgeLines s) (_hiddenEdgeLines s) (_rotationAnimating s)
    (_rotationCancelToken s) (frameCallbacks s) v (nextId s).

Definition set_nextId (v : nat) (s : SceneManager) : SceneManager :=
  mkSceneManager (camera s) (controls s) (artifactGroup s) (core s)
    (defaultMaterial s) (selectedMaterial s) (frustumSize s) (axesActor s)
    (sens s) (_visualStyle s) (_featureAngle s) (_edgesGroup s)
    (_visibleEdgeLines s) (_hiddenEdgeLines s) (_rotationAnimating s)
    (_rotationCancelToken s) (frameCallbacks s) (disposed s) v.


(** ** Library services and the browser *)

(** What the viewer asks of three.js without computing it itself.  The
    viewer's own arithmetic never looks inside these results. *)
Class ThreeServices := {
  (** Any three.js scene object handed to the viewer. *)
  Object3D : Type;
  (** [camera.lookAt(target)]: the orientation of a camera at [eye] looking
      at [target] with the given up vector. *)
  lookAt : forall (eye target up : Vector3), Quaternion;
  (** [camera.getWorldDirection(v)]. *)
  getWorldDirection : Camera -> Vector3;
  (** [camera.getWorldQuaternion(q)] and [object.getWorldQuaternion(q)]. *)
  cameraWorldQuaternion : Camera -> Quaternion;
  getWorldQuaternion : Object3D -> Quaternion;
  (** [new THREE.Box3().setFromObject(object)]. *)
  Box3_setFromObject : Object3D -> Box3;
  (** The core mesh as a scene object, placed in the artifact group. *)
  meshObject : option Group -> Mesh -> Object3D;
  (** [controls.update()]: OrbitControls recomputes the camera from its
      target and its own limits. *)
  OrbitControls_update : Camera -> Controls -> Camera * Controls;
  (** [THREE.Quaternion.slerp(qa, qb, qm, t)]: the value written to [qm]. *)
  slerp : Quaternion -> Quaternion -> R -> Quaternion
}.

(** What a handler reads from the browser when it runs. *)
Record Window `{ThreeServices} := mkWindow {
  innerWidth : R;
  innerHeight : R;
  (** [performance.now()]. *)
  performance_now : R;
  (** [canvas.getBoundingClientRect()]. *)
  rect_width : R;
  rect_height : R;
  (** [window.setPresetViewQuaternion], when some script defined it. *)
  setPresetViewQuaternion :
    option (string -> option Object3D -> R -> SceneManager -> SceneManager)
}.

Record PointerEvent := mkPointerEvent {
  button : Z;
  shiftKey : bool;
  ctrlKey : bool;
  altKey : bool;
  clientX : R;
  clientY : R;
  pointerId : Z;
  timeStamp : R;
  (** [ev.target === canvas || canvas.contains(ev.target)]. *)
  targetInCanvas : bool
}.

(** The argument of [syncWithCamera]: nothing, a vector, or a scene object
    (the only values with [isObject3D]). *)
Inductive SyncTarget `{ThreeServices} :=
| TargetMissing
| TargetVector (v : Vector3)
| TargetObject (o : Object3D).

(** The axis argument of [rotateModelByDegrees]. *)
Inductive AxisArg :=
| AxisName (n : string)
| AxisVector (v : Vector3).

(** The closure variables of [_setupQuaternionRotation]. *)
Inductive Mode := ModeNull | ModeRotate | ModePan.

Record QuaternionRotation := mkQuaternionRotation {
  qr_rotating : bool;
  qr_lastX : R;
  qr_lastY : R;
  mode : Mode;
  qr_activePointerId : option Z;
  rotSpeed : R;
  qr_lastPointerTime : option R
}.

(** The closure variables of [_setupCameraQuaternionOrbit]. *)
Record CameraOrbit := mkCameraOrbit {
  rotating : bool;
  lastX : R;
  lastY : R;
  activePointerId : option Z;
  lastPointerTime : option R
}.

(** The fields of the argument of [setRotationSensitivity] that are
    numbers. *)
Record RotationSensitivity := mkRotationSensitivity {
  baseSpeed : option R;
  gain : option R;
  minMult : option R;
  maxMult : option R
}.

(** ** The scene manager (scene.js) *)

Local Open Scope string_scope.

(** [a || b] on strings: the left operand unless it is empty. *)
Definition str_or (a b : string) : string :=
  if String.eqb a "" then b else a.

Definition Math_max3 (a b c : R) : R := Rmax (Rmax a b) c.

(** The constructor's field values. *)
Definition defaultSensitivities : Sensitivities :=
  mkSensitivities 0.008 1.0 0.3 3.0 0.65 0.25 0.35 1.6 1.0 0.3 3.0.

Definition constructor : SceneManager :=
  mkSceneManager None None None None (mkMaterial false) (mkMaterial false)
    10 None defaultSensitivities "shaded-edge" 30 None None None
    false false [] [] 0%nat.

(** [this.controls.update()], for a controls object built on the camera. *)
Definition controls_update `{ThreeServices} (s : SceneManager) : SceneManager :=
  match camera s, controls s with
  | Some cam, Some ctl =>
      let '(cam', ctl') := OrbitControls_update cam ctl in
      set_camera (Some cam') (set_controls (Some ctl') s)
  | _, _ => s
  end.

(** [if (this.controls) this.controls.update()]. *)
Definition if_controls_update `{ThreeServices} (s : SceneManager) : SceneManager :=
  match controls s with
  | Some _ => controls_update s
  | None => s
  end.

Definition camera_lookAt `{ThreeServices} (tgt : Vector3) (c : Camera) : Camera :=
  cam_set_quaternion (lookAt (cam_position c) tgt (cam_up c)) c.

(** *** fitModelToView *)

(** The assignments of [fitModelToView], up to the controls target. *)
Definition fitModelToView_assign `{ThreeServices} (w : Window)
    (object : Object3D) (padding : R) (cam : Camera) (s : SceneManager)
    : SceneManager :=
  let box := Box3_setFromObject object in
  let center := getCenter box in
  let size := getSize box in
  let maxDim := Math_max3 (vx size) (vy size) (vz size) in
  let fs := Rmax 1e-6 (maxDim * padding) in
  let aspect := innerWidth w / innerHeight w in
  let cam1 :=
    cam_set_frustum (- fs * aspect / 2) (fs * aspect / 2) (fs / 2) (- fs / 2) cam in
  let isoDir := normalize (mkV3 1 1 1) in
  let distance := maxDim * 2.5 + 1.0 in
  let cam2 :=
    cam_set_up (mkV3 0 1 0)
      (cam_set_position (add center (multiplyScalar isoDir distance)) cam1) in
  let s1 := set_camera (Some cam2) (set_frustumSize fs s) in
  match controls s1 with
  | Some ctl => set_controls (Some (ctl_set_target center ctl)) s1
  | None => s1
  end.

(** [fitModelToView(object, padding)]; [None] is a missing (falsy)
    object. *)
Definition fitModelToView `{ThreeServices} (w : Window)
    (object : option Object3D) (padding : R) (s : SceneManager) : SceneManager :=
  match object, camera s with
  | Some obj, Some cam =>
      if_controls_update (fitModelToView_assign w obj padding cam s)
  | _, _ => s
  end.

(** *** setPresetView *)

Definition presetPosition (id : string) : option Vector3 :=
  let dist := 10 in
  if String.eqb id "isometric" then Some (multiplyScalar (normalize (mkV3 1 1 1)) dist)
  else if String.eqb id "front" then Some (multiplyScalar (mkV3 0 0 1) dist)
  else if String.eqb id "back" then Some (multiplyScalar (mkV3 0 0 (-1)) dist)
  else if String.eqb id "left" then Some (multiplyScalar (mkV3 (-1) 0 0) dist)
  else if String.eqb id "right" then Some (multiplyScalar (mkV3 1 0 0) dist)
  else if String.eqb id "top" then Some (multiplyScalar (mkV3 0 1 0) dist)
  else if String.eqb id "bottom" then Some (multiplyScalar (mkV3 0 (-1) 0) dist)
  else None.

(** The look-at centre of a preset view: the controls target, or the centre
    of the object's box when an object is given. *)
Definition presetCenter `{ThreeServices} (object : option Object3D)
    (s : SceneManager) : Vector3 :=
  let center :=
    match controls s with Some ctl => target ctl | None => mkV3 0 0 0 end in
  match object with
  | Some obj => getCenter (Box3_setFromObject obj)
  | None => center
  end.

(** The assignments of a recognised preset, up to the controls target. *)
Definition setPresetView_assign (center pos : Vector3) (cam : Camera)
    (s : SceneManager) : SceneManager :=
  let cam' := cam_set_up (mkV3 0 1 0) (cam_set_position (add center pos) cam) in
  let s1 := set_camera (Some cam') s in
  match controls s1 with
  | Some ctl => set_controls (Some (ctl_set_target center ctl)) s1
  | None => s1
  end.

(** [setPresetView(id, object, duration)].  An installed
    [window.setPresetViewQuaternion] takes the call over; it and
    [Box3.setFromObject] are taken not to throw. *)
Definition setPresetView `{ThreeServices} (w : Window) (id : string)
    (object : option Object3D) (duration : R) (s : SceneManager) : SceneManager :=
  match setPresetViewQuaternion w with
  | Some hook => hook id object duration s
  | None =>
      match camera s with
      | None => s
      | Some cam =>
          let center := presetCenter object s in
          match presetPosition id with
          | None => s
          | Some pos => if_controls_update (setPresetView_assign center pos cam s)
          end
      end
  end.

(** *** Visual style *)

(** [if (this.core.material) this.core.material.wireframe = b]: the flag of
    the shared material the core mesh refers to. *)
Definition set_core_wireframe (b : bool) (s : SceneManager) : SceneManager :=
  match core s with
  | Some c =>
      match material c with
      | Some DefaultMat => set_defaultMaterial (mkMaterial b) s
      | Some SelectedMat => set_selectedMaterial (mkMaterial b) s
      | None => s
      end
  | None => s
  end.

Definition core_wireframe (s : SceneManager) : option bool :=
  match core s with
  | Some c =>
      match material c with
      | Some DefaultMat => Some (wireframe (defaultMaterial s))
      | Some SelectedMat => Some (wireframe (selectedMaterial s))
      | None => None
      end
  | None => None
  end.

Definition set_lines_visible (b : bool) (l : option LineSegments) : option LineSegments :=
  match l with
  | Some ls => Some (mkLineSegments b (renderOrder ls))
  | None => None
  end.

(** [if (this._edgesGroup) this._edgesGroup.visible = false]. *)
Definition hide_edgesGroup (s : SceneManager) : SceneManager :=
  match _edgesGroup s with
  | Some g => set_edgesGroup (Some (mkEdgesGroup (eg_id g) false)) s
  | None => s
  end.

(** The edges overlay shown, with the hidden-edge lines set to [hidden]. *)
Definition show_edgesGroup (hidden : bool) (s : SceneManager) : SceneManager :=
  match _edgesGroup s with
  | Some g =>
      set_visibleEdgeLines (set_lines_visible true (_visibleEdgeLines s))
        (set_hiddenEdgeLines (set_lines_visible hidden (_hiddenEdgeLines s))
           (set_edgesGroup (Some (mkEdgesGroup (eg_id g) true)) s))
  | None => s
  end.

(** [setVisualStyle(style)] for a string: the [switch] on the stored
    style, [case 'shaded'] falling into [default]. *)
Definition setVisualStyle (style : string) (s : SceneManager) : SceneManager :=
  let s1 := set_visualStyle (str_or style "shaded") s in
  match core s1 with
  | None => s1
  | Some _ =>
      let v := _visualStyle s1 in
      if String.eqb v "wireframe" then
        set_core_wireframe true (hide_edgesGroup s1)
      else if String.eqb v "shaded-edge" then
        show_edgesGroup false (set_core_wireframe false s1)
      else if String.eqb v "shaded-hidden" then
        show_edgesGroup true (set_core_wireframe false s1)
      else
        set_core_wireframe false (hide_edgesGroup s1)
  end.

Definition getVisualStyle (s : SceneManager) : string :=
  str_or (_visualStyle s) "shaded".

(** *** Sensitivity configuration *)

Definition opt_or {A : Type} (o : option A) (d : A) : A :=
  match o with Some a => a | None => d end.

Definition setRotationSensitivity (cfg : RotationSensitivity) (s : SceneManager)
    : SceneManager :=
  let k := sens s in
  set_sens
    (mkSensitivities
       (opt_or (baseSpeed cfg) (rotationBaseSpeed k))
       (opt_or (gain cfg) (rotationGain k))
       (opt_or (minMult cfg) (rotationMinMult k))
       (opt_or (maxMult cfg) (rotationMaxMult k))
       (panBase k) (panGain k) (panMinMult k) (panMaxMult k)
       (orbitGain k) (orbitMinMult k) (orbitMaxMult k)) s.

(** ** OrbitControls.update (three.js) *)

(** The method behind [controls.update()], transcribed from the library for
    the controls object [init] builds: on a camera whose up vector is
    (0,1,0) when the controls are made, so that the library's rotation to
    y-up space is the identity; with damping and auto-rotation off; and with
    no gesture of the controls' own pending, the rotation, zoom and pan
    deltas being consumed by the update that ends each of their handlers. *)
Module OrbitControls.

(** [Math.atan2(y, x)] on real arguments; [atan2(0, 0)] is 0. *)
Definition atan2 (y x : R) : R :=
  if Rlt_dec 0 x then atan (y / x)
  else if Rlt_dec x 0 then
    if Rle_dec 0 y then atan (y / x) + PI else atan (y / x) - PI
  else if Rlt_dec 0 y then PI / 2
  else if Rlt_dec y 0 then - (PI / 2)
  else 0.

(** [THREE.Spherical]. *)
Record Spherical := mkSpherical { radius : R; phi : R; theta : R }.

(** [MathUtils.clamp(value, min, max)]. *)
Definition clamp (value min max : R) : R := Rmax min (Rmin max value).

(** [Spherical.setFromVector3(v)]. *)
Definition setFromVector3 (v : Vector3) : Spherical :=
  let r := sqrt (vx v * vx v + vy v * vy v + vz v * vz v) in
  if Req_dec_T r 0 then mkSpherical r 0 0
  else mkSpherical r (acos (clamp (vy v / r) (-1) 1)) (atan2 (vx v) (vz v)).

(** [Spherical.makeSafe()]. *)
Definition makeSafe (s : Spherical) : Spherical :=
  let EPS := 0.000001 in
  mkSpherical (radius s) (Rmax EPS (Rmin (PI - EPS) (phi s))) (theta s).

(** [Vector3.setFromSpherical(s)]. *)
Definition setFromSpherical (s : Spherical) : Vector3 :=
  let sinPhiRadius := sin (phi s) * radius s in
  mkV3 (sinPhiRadius * sin (theta s)) (cos (phi s) * radius s)
       (sinPhiRadius * cos (theta s)).

(** The limits [init] gives the controls; nothing changes them later. *)
Definition minDistance : R := 3.
Definition maxDistance : R := 100.
Definition EPS : R := 0.0001.
Definition minPolarAngle : R := 0 + EPS.
Definition maxPolarAngle : R := PI - EPS.

(** [update()]: the offset of the camera from the target goes to spherical
    coordinates, the polar angle and the radius are brought into their
    limits, and the camera is put back at the target plus the offset and
    aimed at the target. *)
Definition update `{ThreeServices} (cam : Camera) (ctl : Controls)
    : Camera * Controls :=
  let offset := sub (cam_position cam) (target ctl) in
  let spherical := setFromVector3 offset in
  let spherical1 :=
    mkSpherical (radius spherical)
      (Rmax minPolarAngle (Rmin maxPolarAngle (phi spherical)))
      (theta spherical) in
  let spherical2 := makeSafe spherical1 in
  let spherical3 :=
    mkSpherical (Rmax minDistance (Rmin maxDistance (radius spherical2)))
      (phi spherical2) (theta spherical2) in
  let position := add (target ctl) (setFromSpherical spherical3) in
  (cam_set_quaternion (lookAt position (target ctl) (cam_up cam))
     (cam_set_position position cam),
   ctl).

(** The controls of the scene are these OrbitControls. *)
Definition inUse `{ThreeServices} : Prop :=
  forall cam ctl, OrbitControls_update cam ctl = update cam ctl.

End OrbitControls.

(** *** setIsometricView *)

(** [setIsometricView(distance)]: the camera on the (1,1,1) diagonal,
    looking at the origin. *)
Definition setIsometricView `{ThreeServices} (distance : R) (s : SceneManager)
    : SceneManager :=
  match camera s with
  | None => s
  | Some cam =>
      let isoDir := normalize (mkV3 1 1 1) in
      let cam1 := cam_set_position (multiplyScalar isoDir distance) cam in
      let cam2 := cam_set_up (mkV3 0 1 0) cam1 in
      let cam3 := camera_lookAt (mkV3 0 0 0) cam2 in
      if_controls_update (set_camera (Some cam3) s)
  end.

(** *** handleResize *)

(** The element the canvas lives in: [#main-view], or the body. *)
Record MainView := mkMainView {
  clientWidth : R;
  clientHeight : R
}.

(** [handleResize()].  The renderer is not among the modelled fields;
    [renderer] says whether [this.renderer] is set. *)
Definition handleResize `{ThreeServices} (w : Window) (mainView : MainView)
    (renderer : bool) (s : SceneManager) : SceneManager :=
  match camera s with
  | None => s
  | Some cam =>
      if negb renderer then s
      else
        let wd := num_or (clientWidth mainView) (innerWidth w) in
        let ht := num_or (clientHeight mainView) (innerHeight w) in
        let aspect := wd / ht in
        let cam1 :=
          cam_set_frustum (frustumSize s * aspect / -2) (frustumSize s * aspect / 2)
            (frustumSize s / 2) (frustumSize s / -2) cam in
        if_controls_update (set_camera (Some cam1) s)
  end.

(** *** Sensitivity configuration, continued *)

(** The argument objects of [setPanSensitivity] and [setOrbitSensitivity]:
    a field is [Some] where the property is a number. *)
Module PanCfg.
Record t := mk {
  panBase : option R;
  panGain : option R;
  panMinMult : option R;
  panMaxMult : option R
}.
End PanCfg.

Module OrbitCfg.
Record t := mk {
  gain : option R;
  minMult : option R;
  maxMult : option R
}.
End OrbitCfg.

(** The argument of [setSensitivities] and the result of
    [getSensitivities]: a group is [Some] where the property is an
    object. *)
Record SensitivityCfg := mkSensitivityCfg {
  rotation : option RotationSensitivity;
  pan : option PanCfg.t;
  orbit : option OrbitCfg.t
}.

Definition setPanSensitivity (cfg : PanCfg.t) (s : SceneManager) : SceneManager :=
  let k := sens s in
  set_sens
    (mkSensitivities
       (rotationBaseSpeed k) (rotationGain k) (rotationMinMult k) (rotationMaxMult k)
       (opt_or (PanCfg.panBase cfg) (panBase k))
       (opt_or (PanCfg.panGain cfg) (panGain k))
       (opt_or (PanCfg.panMinMult cfg) (panMinMult k))
       (opt_or (PanCfg.panMaxMult cfg) (panMaxMult k))
       (orbitGain k) (orbitMinMult k) (orbitMaxMult k)) s.

Definition setOrbitSensitivity (cfg : OrbitCfg.t) (s : SceneManager) : SceneManager :=
  let k := sens s in
  set_sens
    (mkSensitivities
       (rotationBaseSpeed k) (rotationGain k) (rotationMinMult k) (rotationMaxMult k)
       (panBase k) (panGain k) (panMinMult k) (panMaxMult k)
       (opt_or (OrbitCfg.gain cfg) (orbitGain k))
       (opt_or (OrbitCfg.minMult cfg) (orbitMinMult k))
       (opt_or (OrbitCfg.maxMult cfg) (orbitMaxMult k))) s.

Definition setSensitivities (cfg : SensitivityCfg) (s : SceneManager) : SceneManager :=
  let s1 :=
    match rotation cfg with Some r => setRotationSensitivity r s | None => s end in
  let s2 :=
    match pan cfg with Some p => setPanSensitivity p s1 | None => s1 end in
  match orbit cfg with Some o => setOrbitSensitivity o s2 | None => s2 end.

Definition getSensitivities (s : SceneManager) : SensitivityCfg :=
  let k := sens s in
  mkSensitivityCfg
    (Some (mkRotationSensitivity (Some (rotationBaseSpeed k)) (Some (rotationGain k))
             (Some (rotationMinMult k)) (Some (rotationMaxMult k))))
    (Some (PanCfg.mk (Some (panBase k)) (Some (panGain k))
             (Some (panMinMult k)) (Some (panMaxMult k))))
    (Some (OrbitCfg.mk (Some (orbitGain k)) (Some (orbitMinMult k))
             (Some (orbitMaxMult k)))).

(** *** Feature angle *)

(** [getFeatureAngle()]: [this._featureAngle || 0]. *)
Definition getFeatureAngle (s : SceneManager) : R := num_or (_featureAngle s) 0.

(** *** Model rotation and panning handlers (_setupQuaternionRotation) *)

Definition _setupQuaternionRotation (s : SceneManager) : QuaternionRotation :=
  mkQuaternionRotation false 0 0 ModeNull None (rotationBaseSpeed (sens s)) None.

Definition getCameraRight `{ThreeServices} (cam : Camera) : Vector3 :=
  let forward := getWorldDirection cam in
  normalize (crossVectors (cam_up cam) forward).

(** [activePointerId !== null && ev.pointerId !== activePointerId]. *)
Definition otherPointer (active : option Z) (ev : PointerEvent) : bool :=
  match active with
  | Some id => negb (Z.eqb (pointerId ev) id)
  | None => false
  end.

(** [ev.timeStamp || performance.now()]. *)
Definition eventTime `{ThreeServices} (w : Window) (ev : PointerEvent) : R :=
  num_or (timeStamp ev) (performance_now w).

(** [Math.max(1.0, (lastPointerTime !== null) ? (now - lastPointerTime) : 16.0)]. *)
Definition elapsedSince (last : option R) (now : R) : R :=
  Rmax 1.0 (match last with Some t => now - t | None => 16.0 end).

Definition controlsRotate (s : SceneManager) : bool :=
  match controls s with
  | Some ctl => enableRotate ctl
  | None => false
  end.

Definition qr_onPointerDown `{ThreeServices} (w : Window) (ev : PointerEvent)
    (h : QuaternionRotation) (s : SceneManager) : QuaternionRotation :=
  if negb (Z.eqb (button ev) 1) then h
  else if negb (shiftKey ev) then h
  else if controlsRotate s then h
  else
    mkQuaternionRotation true (clientX ev) (clientY ev) ModePan
      (Some (pointerId ev)) (rotSpeed h) (Some (eventTime w ev)).

(** The rotation the rotate branch applies to the model group. *)
Definition rotateSpeedMult (s : SceneManager) (dx dy dt : R) : R :=
  let speed := sqrt (dx * dx + dy * dy) / dt in
  Rmin (rotationMaxMult (sens s))
       (Rmax (rotationMinMult (sens s)) (1.0 + speed * rotationGain (sens s))).

Definition rotateQuaternion `{ThreeServices} (rotSpeed : R)
    (s : SceneManager) (cam : Camera) (dx dy dt : R) : Quaternion :=
  let rightAxis := getCameraRight cam in
  let upAxis := normalize (cam_up cam) in
  let speedMult := rotateSpeedMult s dx dy dt in
  let yawAngle := dx * rotSpeed * speedMult in
  let pitchAngle := dy * rotSpeed * speedMult in
  let yawQ := setFromAxisAngle upAxis yawAngle in
  let pitchQ := setFromAxisAngle rightAxis pitchAngle in
  multiplyQuaternions pitchQ yawQ.

(** The pan branch's multiplier and its two world-space displacements. *)
Definition panMult (s : SceneManager) (dx dy dt : R) : R :=
  let speed := sqrt (dx * dx + dy * dy) / dt in
  Rmin (panMaxMult (sens s))
       (Rmax (panMinMult (sens s)) (panBase (sens s) + speed * panGain (sens s))).

Definition moveX `{ThreeServices} (w : Window) (s : SceneManager) (dx dy dt : R) : R :=
  let wd := rect_width w in
  let ht := rect_height w in
  let aspect := wd / ht in
  let worldPerPixelX := (frustumSize s * aspect) / wd in
  dx * worldPerPixelX * panMult s dx dy dt.

Definition moveY `{ThreeServices} (w : Window) (s : SceneManager) (dx dy dt : R) : R :=
  let ht := rect_height w in
  let worldPerPixelY := frustumSize s / ht in
  dy * worldPerPixelY * panMult s dx dy dt.

(** The world-space offset of one pan step. *)
Definition panOffset `{ThreeServices} (w : Window) (s : SceneManager)
    (cam : Camera) (dx dy dt : R) : Vector3 :=
  let right := getCameraRight cam in
  let up := normalize (cam_up cam) in
  addScaledVector (multiplyScalar right (moveX w s dx dy dt)) up (moveY w s dx dy dt).

(** The pan branch before [controls.update()]: the offset added to the
    controls target and to the camera position. *)
Definition pan_assign (off : Vector3) (cam : Camera) (s : SceneManager)
    : SceneManager :=
  match controls s with
  | Some ctl =>
      set_camera (Some (cam_set_position (add (cam_position cam) off) cam))
        (set_controls (Some (ctl_set_target (add (target ctl) off) ctl)) s)
  | None =>
      set_camera (Some (cam_set_position (add (cam_position cam) off) cam)) s
  end.

Definition qr_onPointerMove `{ThreeServices} (w : Window) (ev : PointerEvent)
    (h : QuaternionRotation) (s : SceneManager)
    : QuaternionRotation * SceneManager :=
  if negb (qr_rotating h) then (h, s)
  else if otherPointer (qr_activePointerId h) ev then (h, s)
  else
    let dx := clientX ev - qr_lastX h in
    let dy := clientY ev - qr_lastY h in
    let now := eventTime w ev in
    let dt := elapsedSince (qr_lastPointerTime h) now in
    let h' :=
      mkQuaternionRotation (qr_rotating h) (clientX ev) (clientY ev) (mode h)
        (qr_activePointerId h) (rotSpeed h) (Some now) in
    match camera s with
    | None => (h', s)
    | Some cam =>
        match mode h with
        | ModeRotate =>
            let q := rotateQuaternion (rotSpeed h) s cam dx dy dt in
            match artifactGroup s with
            | Some g =>
                (h', set_artifactGroup
                       (Some (grp_set_quaternion (premultiply (grp_quaternion g) q) g)) s)
            | None => (h', s)
            end
        | ModePan =>
            (h', if_controls_update (pan_assign (panOffset w s cam dx dy dt) cam s))
        | ModeNull => (h', s)
        end
    end.

Definition qr_onPointerUp (ev : PointerEvent) (h : QuaternionRotation)
    : QuaternionRotation :=
  if negb (Z.eqb (button ev) 1) then h
  else if otherPointer (qr_activePointerId h) ev then h
  else
    mkQuaternionRotation false (qr_lastX h) (qr_lastY h) (mode h) None
      (rotSpeed h) (qr_lastPointerTime h).

(** *** Camera orbit handlers (_setupCameraQuaternionOrbit) *)

Definition _setupCameraQuaternionOrbit : CameraOrbit :=
  mkCameraOrbit false 0 0 None None.

Definition onPointerDown `{ThreeServices} (w : Window) (ev : PointerEvent)
    (h : CameraOrbit) : CameraOrbit :=
  if negb (Z.eqb (button ev) 1) then h
  else if shiftKey ev then h
  else if negb (targetInCanvas ev) then h
  else if ctrlKey ev || altKey ev then h
  else
    mkCameraOrbit true (clientX ev) (clientY ev) (Some (pointerId ev))
      (Some (eventTime w ev)).

Definition orbitMult (s : SceneManager) (dx dy dt : R) : R :=
  let speed := sqrt (dx * dx + dy * dy) / dt in
  Rmin (orbitMaxMult (sens s))
       (Rmax (orbitMinMult (sens s)) (1.0 + speed * orbitGain (sens s))).

Definition orbitTarget (s : SceneManager) : Vector3 :=
  match controls s with
  | Some ctl => target ctl
  | None => mkV3 0 0 0
  end.

Definition azimuthQuat `{ThreeServices} (w : Window) (s : SceneManager)
    (cam : Camera) (dx dy dt : R) : Quaternion :=
  let baseAzimuth := -100.0 * (dx / rect_width w) in
  let deltaAzimuth := baseAzimuth * orbitMult s dx dy dt in
  let viewUp := normalize (cam_up cam) in
  setFromAxisAngle viewUp (deltaAzimuth * PI / 180.0).

Definition elevationQuat `{ThreeServices} (w : Window) (s : SceneManager)
    (cam : Camera) (dx dy dt : R) : Quaternion :=
  let baseElevation := -100.0 * (dy / rect_height w) in
  let deltaElevation := baseElevation * orbitMult s dx dy dt in
  let offset := sub (cam_position cam) (orbitTarget s) in
  let viewUp := normalize (cam_up cam) in
  let forward := normalize offset in
  let right := normalize (crossVectors viewUp forward) in
  setFromAxisAngle right (deltaElevation * PI / 180.0).

Definition combinedQuat `{ThreeServices} (w : Window) (s : SceneManager)
    (cam : Camera) (dx dy dt : R) : Quaternion :=
  multiplyQuaternions (elevationQuat w s cam dx dy dt) (azimuthQuat w s cam dx dy dt).

(** One orbit step on the camera, up to and including [camera.lookAt(target)]. *)
Definition orbit_assign `{ThreeServices} (w : Window) (s : SceneManager)
    (cam : Camera) (dx dy dt : R) : Camera :=
  let tgt := orbitTarget s in
  let offset := sub (cam_position cam) tgt in
  let distance := length offset in
  let viewUp := normalize (cam_up cam) in
  let offset' := applyQuaternion offset (combinedQuat w s cam dx dy dt) in
  let viewUp' := applyQuaternion viewUp (elevationQuat w s cam dx dy dt) in
  let offset'' := setLength offset' distance in
  camera_lookAt tgt
    (cam_set_position (add tgt offset'') (cam_set_up viewUp' cam)).

Definition onPointerMove `{ThreeServices} (w : Window) (ev : PointerEvent)
    (h : CameraOrbit) (s : SceneManager) : CameraOrbit * SceneManager :=
  if negb (rotating h) then (h, s)
  else if otherPointer (activePointerId h) ev then (h, s)
  else
    let dx := clientX ev - lastX h in
    let dy := clientY ev - lastY h in
    let now := eventTime w ev in
    let dt := elapsedSince (lastPointerTime h) now in
    let h' :=
      mkCameraOrbit (rotating h) (clientX ev) (clientY ev) (activePointerId h)
        (Some now) in
    match camera s with
    | None => (h', s)
    | Some cam =>
        (h', if_controls_update (set_camera (Some (orbit_assign w s cam dx dy dt)) s))
    end.

Definition onPointerUp (ev : PointerEvent) (h : CameraOrbit) : CameraOrbit :=
  if negb (Z.eqb (button ev) 1) then h
  else if otherPointer (activePointerId h) ev then h
  else mkCameraOrbit false (lastX h) (lastY h) None (lastPointerTime h).

(** *** pointercancel *)

(** [activePointerId !== null && ev.pointerId === activePointerId]. *)
Definition activePointer (active : option Z) (ev : PointerEvent) : bool :=
  match active with
  | Some id => Z.eqb (pointerId ev) id
  | None => false
  end.

Definition qr_onPointerCancel (ev : PointerEvent) (h : QuaternionRotation)
    : QuaternionRotation :=
  if activePointer (qr_activePointerId h) ev then
    mkQuaternionRotation false (qr_lastX h) (qr_lastY h) (mode h) None
      (rotSpeed h) (qr_lastPointerTime h)
  else h.

Definition onPointerCancel (ev : PointerEvent) (h : CameraOrbit) : CameraOrbit :=
  if activePointer (activePointerId h) ev then
    mkCameraOrbit false (lastX h) (lastY h) None (lastPointerTime h)
  else h.

(** *** The two handlers together *)

(** The pointer events the handlers listen to. *)
Inductive PointerInput :=
| PointerDown (ev : PointerEvent)
| PointerMove (ev : PointerEvent)
| PointerUp (ev : PointerEvent)
| PointerCancel (ev : PointerEvent).

(** The viewer's state as the pointer handlers see it: the manager and the
    closures of [_setupQuaternionRotation] and
    [_setupCameraQuaternionOrbit]. *)
Record Viewer := mkViewer {
  manager : SceneManager;
  quaternionRotation : QuaternionRotation;
  cameraOrbit : CameraOrbit
}.

(** One event delivered to the listeners, in the order [init] registered
    them: the rotation and pan handler first, the orbit handler second.
    The [pointerdown] listeners sit on the canvas and so run for presses on
    the canvas only; the others sit on the window. *)
Definition dispatch `{ThreeServices} (w : Window) (e : PointerInput) (v : Viewer)
    : Viewer :=
  match e with
  | PointerDown ev =>
      if targetInCanvas ev then
        mkViewer (manager v)
          (qr_onPointerDown w ev (quaternionRotation v) (manager v))
          (onPointerDown w ev (cameraOrbit v))
      else v
  | PointerMove ev =>
      let '(h1, s1) := qr_onPointerMove w ev (quaternionRotation v) (manager v) in
      let '(h2, s2) := onPointerMove w ev (cameraOrbit v) s1 in
      mkViewer s2 h1 h2
  | PointerUp ev =>
      mkViewer (manager v) (qr_onPointerUp ev (quaternionRotation v))
        (onPointerUp ev (cameraOrbit v))
  | PointerCancel ev =>
      mkViewer (manager v) (qr_onPointerCancel ev (quaternionRotation v))
        (onPointerCancel ev (cameraOrbit v))
  end.


(** *** The axes widget (axesActor.js) *)

(** [syncWithCamera(camera, target)].  The [catch] of the Object3D branch
    is not modelled: the two [getWorldQuaternion] calls do not throw on
    three.js objects. *)
Definition syncWithCamera `{ThreeServices} (a : AxesActor)
    (cam : option Camera) (tgt : SyncTarget) : AxesActor :=
  match cam with
  | None => a
  | Some camera =>
      match tgt with
      | TargetObject o =>
          let qModel := getWorldQuaternion o in
          let qCamera := cameraWorldQuaternion camera in
          let qAxes := multiply (invert qCamera) qModel in
          let c :=
            camera_lookAt (mkV3 0 0 0)
              (cam_set_up (cam_up camera)
                 (cam_set_position (mkV3 2 2 2) (axes_camera a))) in
          mkAxesActor c qAxes (axes_visible a)
      | _ =>
          let lookTarget :=
            match tgt with TargetVector v => v | _ => mkV3 0 0 0 end in
          let direction := normalize (sub (cam_position camera) lookTarget) in
          let c :=
            camera_lookAt (mkV3 0 0 0)
              (cam_set_up (cam_up camera)
                 (cam_set_position (multiplyScalar direction 3) (axes_camera a))) in
          mkAxesActor c (mkQ 0 0 0 1) (axes_visible a)
      end
  end.

(** One run of the render loop's [animate]: the controls are updated, the
    scene and the triad are drawn (no field changes), and the axes widget
    follows the main camera. *)
Definition animate `{ThreeServices} (s : SceneManager) : SceneManager :=
  let s1 := if_controls_update s in
  match axesActor s1, camera s1 with
  | Some a, Some cam =>
      let tgt :=
        match controls s1 with Some ctl => target ctl | None => mkV3 0 0 0 end in
      set_axesActor (Some (syncWithCamera a (Some cam) (TargetVector tgt))) s1
  | _, _ => s1
  end.

(** *** rotateModelByDegrees *)

Definition lowerAscii (c : Ascii.ascii) : Ascii.ascii :=
  let n := Ascii.nat_of_ascii c in
  if (Nat.leb 65 n && Nat.leb n 90)%bool then Ascii.ascii_of_nat (n + 32) else c.

Fixpoint toLowerCase (s : string) : string :=
  match s with
  | EmptyString => EmptyString
  | String c r => String (lowerAscii c) (toLowerCase r)
  end.

(** [(axis || 'y').toString().toLowerCase()]. *)
Definition axisKey (n : string) : string := toLowerCase (str_or n "y").

Definition axisLocalOf (axis : AxisArg) : Vector3 :=
  match axis with
  | AxisVector v => normalize v
  | AxisName n =>
      if String.eqb (axisKey n) "x" then mkV3 1 0 0
      else if String.eqb (axisKey n) "z" then mkV3 0 0 1
      else mkV3 0 1 0
  end.

Definition axisWorldOf `{ThreeServices} (axis : AxisArg) (space : string)
    (g : Group) (s : SceneManager) : Vector3 :=
  let axisLocal := axisLocalOf axis in
  match (if String.eqb space "view" then camera s else None) with
  | Some cam =>
      match axis with
      | AxisVector v => normalize v
      | AxisName n =>
          if String.eqb (axisKey n) "x" then
            normalize (crossVectors (getWorldDirection cam) (cam_up cam))
          else if String.eqb (axisKey n) "z" then
            normalize (getWorldDirection cam)
          else normalize (cam_up cam)
      end
  | None =>
      if String.eqb space "world" then normalize axisLocal
      else if String.eqb space "local" then
        normalize (applyQuaternion axisLocal (grp_quaternion g))
      else normalize axisLocal
  end.

(** The quaternion an immediate rotation leaves in the model group. *)
Definition rotatedNow (space : string) (q rotQ : Quaternion) : Quaternion :=
  if String.eqb space "local" then multiply q rotQ else premultiply q rotQ.

Definition rotateModelByDegrees `{ThreeServices} (w : Window) (degrees : R)
    (axis : AxisArg) (dur : R) (space : string) (s : SceneManager)
    : SceneManager :=
  match artifactGroup s with
  | None => s
  | Some g =>
      let s1 :=
        set_rotationCancelToken false
          (set_rotationAnimating true
             (if _rotationAnimating s then set_rotationCancelToken true s else s)) in
      let axisWorld := axisWorldOf axis space g s in
      let totalAngle := (degrees * PI) / 180 in
      if Rle_dec dur 0 then
        let rotQ := setFromAxisAngle axisWorld totalAngle in
        set_rotationAnimating false
          (set_artifactGroup
             (Some (grp_set_quaternion (rotatedNow space (grp_quaternion g) rotQ) g)) s1)
      else
        let startQ := grp_quaternion g in
        let rotQForEnd := setFromAxisAngle axisWorld totalAngle in
        let endQ :=
          if String.eqb space "local" then multiply startQ rotQForEnd
          else multiply rotQForEnd startQ in
        set_frameCallbacks
          (frameCallbacks s1 ++ [mkRotationStep startQ endQ (performance_now w) dur]) s1
  end.

(** The ease-in-out curve of [step]. *)
Definition ease (t : R) : R :=
  if Rlt_dec t 0.5 then 2 * t * t else -1 + (4 - 2 * t) * t.

(** One call of the animation callback [step(now)]: the state it leaves and
    whether it asked for another frame. *)
Definition step `{ThreeServices} (k : RotationStep) (now : R) (s : SceneManager)
    : SceneManager * bool :=
  if _rotationCancelToken s then
    (set_rotationCancelToken false (set_rotationAnimating false s), false)
  else
    let elapsed := now - startTime k in
    let t := ease (Rmin 1.0 (elapsed / duration k)) in
    match artifactGroup s with
    | None => (s, false)
    | Some g =>
        let s1 :=
          set_artifactGroup
            (Some (grp_set_quaternion (slerp (startQ k) (endQ k) t) g)) s in
        if Rlt_dec elapsed (duration k) then (s1, true)
        else
          (set_rotationAnimating false
             (set_artifactGroup (Some (grp_set_quaternion (endQ k) g)) s1), false)
    end.

(** The rotation callbacks queued for one frame, run in order; a callback
    that asks for another frame is queued for the next one. *)
Fixpoint runCallbacks `{ThreeServices} (ks : list RotationStep) (now : R)
    (s : SceneManager) : SceneManager :=
  match ks with
  | [] => s
  | k :: rest =>
      let '(s1, again) := step k now s in
      let s2 :=
        if again then set_frameCallbacks (frameCallbacks s1 ++ [k]) s1 else s1 in
      runCallbacks rest now s2
  end.

(** One browser animation frame at time [now]: the render loop's [animate],
    then the pending rotation callbacks. *)
Definition animationFrame `{ThreeServices} (now : R) (s : SceneManager)
    : SceneManager :=
  let s1 := animate s in
  runCallbacks (frameCallbacks s1) now (set_frameCallbacks [] s1).

Definition animationFrames `{ThreeServices} (times : list R) (s : SceneManager)
    : SceneManager :=
  fold_left (fun st now => animationFrame now st) times s.

(** *** Mouse mapping *)

(** [THREE.MOUSE] actions and the options of the controls object that
    [init], its capture handlers and [setMouseMapping] write. *)
Inductive MOUSE := ROTATE | DOLLY | PAN.

Record MouseButtons := mkMouseButtons {
  LEFT : MOUSE;
  MIDDLE : MOUSE;
  RIGHT : MOUSE
}.

Record ControlsOptions := mkControlsOptions {
  enablePan : bool;
  enableZoom : bool;
  enableDamping : bool;
  mouseButtons : MouseButtons
}.

(** The options as [init] sets them. *)
Definition initControlsOptions : ControlsOptions :=
  mkControlsOptions false true false (mkMouseButtons PAN ROTATE DOLLY).

(** [setMouseMapping(mapping)] for a string; [None] is a missing
    [this.controls]. *)
Definition setMouseMapping (mapping : string) (c : option ControlsOptions)
    : option ControlsOptions :=
  match c with
  | None => None
  | Some _ =>
      let m := toLowerCase (str_or mapping "") in
      Some
        (mkControlsOptions true true false
           (if String.eqb m "inventor" then mkMouseButtons ROTATE PAN DOLLY
            else if String.eqb m "blender" then mkMouseButtons ROTATE DOLLY PAN
            else mkMouseButtons ROTATE DOLLY PAN))
  end.

Definition set_MIDDLE (a : MOUSE) (c : ControlsOptions) : ControlsOptions :=
  mkControlsOptions (enablePan c) (enableZoom c) (enableDamping c)
    (mkMouseButtons (LEFT (mouseButtons c)) a (RIGHT (mouseButtons c))).

(** The capturing [pointerdown] and [pointerup] listeners of [init]: what
    they leave in the controls options, and whether they swallowed the
    event. *)
Definition canvasCaptureHandler (ev : PointerEvent) (c : ControlsOptions)
    : ControlsOptions * bool :=
  if Z.eqb (button ev) 2 then (c, true)
  else if Z.eqb (button ev) 1 then
    (set_MIDDLE (if shiftKey ev then PAN else ROTATE) c, false)
  else (c, false).

Definition canvasCaptureUp (ev : PointerEvent) (c : ControlsOptions)
    : ControlsOptions * bool :=
  let c1 := if Z.eqb (button ev) 1 then set_MIDDLE ROTATE c else c in
  (c1, Z.eqb (button ev) 2).

(** ** Float32Array stores *)

(** The vertex positions of a buffer geometry live in a [Float32Array]:
    a number written there is rounded to the nearest float32 value, ties to
    the even one.  Beyond the largest float32 the array keeps an infinity;
    [fround] is its value below that. *)
Module Float32.

(** The nearest integer, the even one of two equally near. *)
Definition nearestEven (x : R) : Z :=
  let f := Int_part x in
  let d := x - IZR f in
  if Rlt_dec d (1 / 2) then f
  else if Rlt_dec (1 / 2) d then (f + 1)%Z
  else if Z.even f then f else (f + 1)%Z.

(** The binary exponent [e] of a number other than 0:
    [2^e <= |x| < 2^(e+1)]. *)
Definition exponent (x : R) : Z := Int_part (ln (Rabs x) / ln 2).

(** The distance between neighbouring float32 values at [x]: 24
    significant bits, and [2^-149] among the subnormal numbers. *)
Definition ulp (x : R) : R := powerRZ 2 (Z.max (exponent x - 23) (-149)).

(** [Math.fround(x)]. *)
Definition fround (x : R) : R := IZR (nearestEven (x / ulp x)) * ulp x.

(** [attribute.setXYZ(i, x, y, z)] on a [Float32Array]. *)
Definition setXYZ (p : Vector3) : Vector3 :=
  mkV3 (fround (vx p)) (fround (vy p)) (fround (vz p)).

End Float32.

(** *** Model loading (_setupModelLoading, _rebuildEdges) *)

Definition child_eqb (a b : Child) : bool :=
  match a, b with
  | ChildMesh i, ChildMesh j => Nat.eqb i j
  | ChildEdges i, ChildEdges j => Nat.eqb i j
  | _, _ => false
  end.

(** [group.remove(object)]: the first occurrence of the object goes. *)
Fixpoint removeChild (c : Child) (cs : list Child) : list Child :=
  match cs with
  | [] => []
  | x :: r => if child_eqb x c then r else x :: removeChild c r
  end.

(** [this.artifactGroup.remove(object)]; without a group the call throws
    and the handler's [try] swallows it. *)
Definition removeFromGroup (c : Child) (s : SceneManager) : SceneManager :=
  match artifactGroup s with
  | Some g => set_artifactGroup (Some (grp_set_children (removeChild c (children g)) g)) s
  | None => s
  end.

(** [if (this.artifactGroup) this.artifactGroup.add(object)], for an object
    that has no parent yet. *)
Definition addToGroup (c : Child) (s : SceneManager) : SceneManager :=
  match artifactGroup s with
  | Some g => set_artifactGroup (Some (grp_set_children (children g ++ [c]) g)) s
  | None => s
  end.

Definition isMesh (c : Child) : bool :=
  match c with ChildMesh _ => true | ChildEdges _ => false end.

(** The mesh children of the artifact group. *)
Definition groupMeshes (s : SceneManager) : list Child :=
  match artifactGroup s with
  | Some g => filter isMesh (children g)
  | None => []
  end.

Fixpoint noDotSlash (s : string) : bool :=
  match s with
  | EmptyString => true
  | String c r =>
      negb (Ascii.eqb c "."%char) && negb (Ascii.eqb c "/"%char) && noDotSlash r
  end.

(** [name.replace(/\.[^/.]+$/, '')]: the last extension is cut off. *)
Fixpoint stripExtension (s : string) : string :=
  match s with
  | EmptyString => EmptyString
  | String c r =>
      if Ascii.eqb c "."%char && negb (String.eqb r "") && noDotSlash r
      then EmptyString
      else String c (stripExtension r)
  end.

(** [geometry.translate(x, y, z)] and [geometry.scale(x, y, z)] on the
    vertex positions: each vertex is read from the position array, sent
    through the matrix of the translation or of the scaling, and written
    back to the array. *)
Definition translate (g : list Vector3) (tx ty tz : R) : list Vector3 :=
  map (fun p => Float32.setXYZ (mkV3 (vx p + tx) (vy p + ty) (vz p + tz))) g.

Definition scale (g : list Vector3) (sx sy sz : R) : list Vector3 :=
  map (fun p => Float32.setXYZ (mkV3 (vx p * sx) (vy p * sy) (vz p * sz))) g.

(** The geometry the loader builds from the parsed vertices: moved by minus
    the centre of its bounding box and scaled by [5 / maxDim]. *)
Definition normalizeGeometry (geometry0 : list Vector3) : list Vector3 :=
  let box := setFromPoints geometry0 in
  let size := getSize box in
  let center := getCenter box in
  let geometry1 := translate geometry0 (- vx center) (- vy center) (- vz center) in
  let maxDim := num_or (Math_max3 (vx size) (vy size) (vz size)) 1 in
  let scaleFactor := 5 / maxDim in
  scale geometry1 scaleFactor scaleFactor scaleFactor.


Definition _rebuildEdges (s : SceneManager) : SceneManager :=
  let s1 :=
    match _edgesGroup s, artifactGroup s with
    | Some eg, Some _ => set_edgesGroup None (removeFromGroup (ChildEdges (eg_id eg)) s)
    | _, _ => s
    end in
  match core s1 with
  | None => s1
  | Some _ =>
      let g := mkEdgesGroup (nextId s1) false in
      let s2 := set_nextId (S (nextId s1)) (set_edgesGroup (Some g) s1) in
      let s3 := addToGroup (ChildEdges (eg_id g)) s2 in
      set_hiddenEdgeLines (Some (mkLineSegments true 1))
        (set_visibleEdgeLines (Some (mkLineSegments true 2)) s3)
  end.

(** [setFeatureAngle(deg)] for a number [deg]: [Number(deg) || 0] is
    [deg]. *)
Definition setFeatureAngle (deg : R) (s : SceneManager) : SceneManager :=
  let s1 := set_featureAngle (num_or deg 0) s in
  match core s1 with
  | Some _ =>
      let s2 := _rebuildEdges s1 in
      setVisualStyle (_visualStyle s2) s2
  | None => s1
  end.

(** The loader's replacement of the core mesh: the old mesh, if any, is
    disposed and removed, then the new one is created and added. *)
Definition replaceCore (fileName : string) (geometry2 : list Vector3)
    (s : SceneManager) : SceneManager :=
  let s1 :=
    match core s with
    | Some old =>
        set_core None
          (removeFromGroup (ChildMesh (mesh_id old))
             (set_disposed (disposed s ++ [mesh_id old]) s))
    | None => s
    end in
  let m :=
    mkMesh (nextId s1) geometry2 (Some DefaultMat)
      (stripExtension (str_or fileName "model")) in
  addToGroup (ChildMesh (mesh_id m))
    (set_nextId (S (nextId s1)) (set_core (Some m) s1)).

(** The file reader's [onload]: [parsed] is what [stlLoader.parse] returns,
    [None] when it throws. *)
Definition onload `{ThreeServices} (w : Window) (fileName : string)
    (parsed : option (list Vector3)) (s : SceneManager) : SceneManager :=
  match parsed with
  | None => s
  | Some geometry0 =>
      let s3 := replaceCore fileName (normalizeGeometry geometry0) s in
      let s4 := _rebuildEdges s3 in
      let s5 := setVisualStyle (_visualStyle s4) s4 in
      let s6 :=
        match core s5 with
        | Some m => fitModelToView w (Some (meshObject (artifactGroup s5) m)) 1.2 s5
        | None => s5
        end in
      if_controls_update s6
  end.

(** *** Highlighting and selection *)

Definition mesh_set_material (m : option MaterialRef) (c : Mesh) : Mesh :=
  mkMesh (mesh_id c) (geometry c) m (name c).

(** [window.highlightModel(highlight)], once [init] has made the two
    materials. *)
Definition highlightModel (highlight : bool) (s : SceneManager) : SceneManager :=
  match core s with
  | None => s
  | Some c =>
      set_core
        (Some (mesh_set_material
                 (Some (if highlight then SelectedMat else DefaultMat)) c)) s
  end.

(** The canvas [pointerup] listener of [_setupSelectionAndLoop]; [hits]
    says whether the ray through the pointer meets the core mesh. *)
Definition selectionPointerUp (ev : PointerEvent) (hits : bool) (s : SceneManager)
    : SceneManager :=
  match core s with
  | None => s
  | Some c =>
      if negb (Z.eqb (button ev) 0) then s
      else
        set_core
          (Some (mesh_set_material
                   (Some (if hits then SelectedMat else DefaultMat)) c)) s
  end.

(** *** Axes widget visibility *)

(** [window.toggleAxes(visible)]; [None] is a call without argument. *)
Definition toggleAxes (visible : option bool) (s : SceneManager) : SceneManager :=
  match axesActor s with
  | None => s
  | Some a =>
      let v :=
        match visible with
        | None => negb (axes_visible a)
        | Some b => b
        end in
      set_axesActor (Some (mkAxesActor (axes_camera a) (axesGroup_quaternion a) v)) s
  end.

(** ** The settings panel (settingsView.js) *)

Module Settings.

(** JavaScript numbers as the feature-angle field uses them. *)
Class JsNumber := {
  number : Type;
  (** The literal [0]. *)
  zero : number;
  (** [Number(s)] on a string. *)
  Number : string -> number;
  (** Whether the number is neither NaN nor an infinity. *)
  isFinite : number -> bool;
  (** Whether the number counts as true in a condition. *)
  truthyNumber : number -> bool;
  (** The string an input's [value] setter receives for the number. *)
  toString : number -> string
}.

(** The values a saved settings object holds, and the object itself: the
    abstract syntax of the JSON text kept in [localStorage]. *)
Inductive JValue `{JsNumber} :=
| JString (s : string)
| JNumber (n : number)
| JNull.

Definition Json `{JsNumber} : Type := list (string * JValue).

(** The five inputs of the settings form; [None] where the element is
    missing from the page. *)
Record Form := mkForm {
  setting_bgcolor : option string;
  setting_font : option string;
  setting_fontsize : option string;
  setting_mousemode : option string;
  setting_featureangle : option string
}.

(** [localStorage]: [writable] is false when [setItem] throws. *)
Record Storage `{JsNumber} := mkStorage {
  items : string -> option Json;
  writable : bool
}.

Arguments mkStorage {_} _ _.

(** What the panel does besides writing the form and the storage, in the
    order it does it. *)
Inductive Effect `{JsNumber} :=
| BodyBackgroundColor (v : string)
| BodyFontFamily (v : string)
| RootFontSize (v : string)
| SetMouseMapping (v : JValue)
| SetFeatureAngle (v : JValue)
| HidePanel
| LogMessage (text : string).

Record Page `{JsNumber} := mkPage {
  form : Form;
  localStorage : Storage;
  effects : list Effect
}.

Arguments mkPage {_} _ _ _.

(** The [cfg] object of [applySettings]; [None] where the property was not
    set. *)
Record Cfg `{JsNumber} := mkCfg {
  bgcolor : option string;
  font : option string;
  fontsize : option string;
  mousemode : option string;
  featureAngle : option number
}.

Arguments mkCfg {_} _ _ _ _ _.

Definition member `{JsNumber} {A : Type} (key : string) (f : A -> JValue)
    (o : option A) : Json :=
  match o with
  | Some a => [(key, f a)]
  | None => []
  end.

(** [JSON.stringify(cfg)]: the properties that are set, in the order they
    were set; a number that is not finite is written as [null]. *)
Definition JSON_stringify `{JsNumber} (cfg : Cfg) : Json :=
  (member "bgcolor" JString (bgcolor cfg)
   ++ member "font" JString (font cfg)
   ++ member "fontsize" JString (fontsize cfg)
   ++ member "mousemode" JString (mousemode cfg)
   ++ member "featureAngle"
        (fun n => if isFinite n then JNumber n else JNull) (featureAngle cfg))%list.

(** [saved.key] on the parsed object; [None] is [undefined]. *)
Fixpoint property `{JsNumber} (key : string) (saved : Json) : option JValue :=
  match saved with
  | [] => None
  | (k, v) :: rest => if String.eqb k key then Some v else property key rest
  end.

Definition truthy `{JsNumber} (v : option JValue) : bool :=
  match v with
  | Some (JString s) => negb (String.eqb s "")
  | Some (JNumber n) => truthyNumber n
  | Some JNull => false
  | None => false
  end.

(** The string an input's [value] setter stores for a saved value. *)
Definition valueText `{JsNumber} (v : option JValue) : string :=
  match v with
  | Some (JString s) => s
  | Some (JNumber n) => toString n
  | Some JNull => ""
  | None => "undefined"
  end.

(** [if (el) el.value = v]. *)
Definition assign (el : option string) (v : string) : option string :=
  match el with
  | Some _ => Some v
  | None => None
  end.

Definition setItem `{JsNumber} (key : string) (v : Json) (st : Storage) : Storage :=
  if writable st then
    mkStorage (fun k => if String.eqb k key then Some v else items st k) true
  else st.

(** [JSON.parse(localStorage.getItem(key) || '{}')]. *)
Definition getSaved `{JsNumber} (key : string) (st : Storage) : Json :=
  match items st key with
  | Some j => j
  | None => []
  end.

(** [Number(featureangle.value || 0)]. *)
Definition featureNumber `{JsNumber} (v : string) : number :=
  if String.eqb v "" then zero else Number v.

Definition opt_effect `{JsNumber} {A : Type} (f : A -> Effect) (o : option A)
    : list Effect :=
  match o with
  | Some a => [f a]
  | None => []
  end.

Definition applySettings `{JsNumber} (p : Page) : Page :=
  let f := form p in
  let cfg :=
    mkCfg (setting_bgcolor f) (setting_font f) (setting_fontsize f)
      (setting_mousemode f) (option_map featureNumber (setting_featureangle f)) in
  mkPage f
    (setItem "viewer.settings" (JSON_stringify cfg) (localStorage p))
    (effects p
     ++ opt_effect BodyBackgroundColor (bgcolor cfg)
     ++ opt_effect BodyFontFamily (font cfg)
     ++ opt_effect (fun v => RootFontSize (v ++ "px")) (fontsize cfg)
     ++ (if truthy (option_map JString (mousemode cfg))
         then opt_effect (fun v => SetMouseMapping (JString v)) (mousemode cfg)
         else [])
     ++ opt_effect (fun n => SetFeatureAngle (JNumber n)) (featureAngle cfg)
     ++ [HidePanel; LogMessage "Settings applied."])%list.

Definition loadSettings `{JsNumber} (p : Page) : Page :=
  let saved := getSaved "viewer.settings" (localStorage p) in
  let f := form p in
  let bg := property "bgcolor" saved in
  let fo := property "font" saved in
  let fs := property "fontsize" saved in
  let mm := property "mousemode" saved in
  let fa := property "featureAngle" saved in
  mkPage
    (mkForm
       (if truthy bg then assign (setting_bgcolor f) (valueText bg)
        else setting_bgcolor f)
       (if truthy fo then assign (setting_font f) (valueText fo)
        else setting_font f)
       (if truthy fs then assign (setting_fontsize f) (valueText fs)
        else setting_fontsize f)
       (if truthy mm then assign (setting_mousemode f) (valueText mm)
        else setting_mousemode f)
       (match fa with
        | Some _ => assign (setting_featureangle f) (valueText fa)
        | None => setting_featureangle f
        end))
    (localStorage p)
    (effects p
     ++ (if truthy bg then [BodyBackgroundColor (valueText bg)] else [])
     ++ (if truthy fo then [BodyFontFamily (valueText fo)] else [])
     ++ (if truthy fs then [RootFontSize (valueText fs ++ "px")] else [])
     ++ opt_effect SetFeatureAngle fa
     ++ (if truthy mm then opt_effect SetMouseMapping mm else []))%list.

(** The page as [loadSettings] finds it when the form holds [f]. *)
Definition with_form `{JsNumber} (f : Form) (p : Page) : Page :=
  mkPage f (localStorage p) (effects p).

(** The round trip as C10 words it: after [applySettings] on [p],
    [loadSettings] on a form [shown] gives every input the value that was
    applied (for the feature angle, the text of the applied number). *)
Definition restoresApplied `{JsNumber} (p : Page) (shown : Form) : Prop :=
  let loaded := form (loadSettings (with_form shown (applySettings p))) in
  setting_bgcolor loaded = setting_bgcolor (form p)
  /\ setting_font loaded = setting_font (form p)
  /\ setting_fontsize loaded = setting_fontsize (form p)
  /\ setting_mousemode loaded = setting_mousemode (form p)
  /\ setting_featureangle loaded
     = option_map (fun v => toString (featureNumber v))
         (setting_featureangle (form p)).

(** Two states of one form: the same inputs are on the page. *)
Definition sameInputs (f g : Form) : Prop :=
  (setting_bgcolor f = None <-> setting_bgcolor g = None)
  /\ (setting_font f = None <-> setting_font g = None)
  /\ (setting_fontsize f = None <-> setting_fontsize g = None)
  /\ (setting_mousemode f = None <-> setting_mousemode g = None)
  /\ (setting_featureangle f = None <-> setting_featureangle g = None).

(** The values [loadSettings] writes back: no text input is empty and the
    feature angle is a finite number. *)
Definition writtenBack `{JsNumber} (f : Form) : Prop :=
  (forall v, setting_bgcolor f = Some v -> v <> "")
  /\ (forall v, setting_font f = Some v -> v <> "")
  /\ (forall v, setting_fontsize f = Some v -> v <> "")
  /\ (forall v, setting_mousemode f = Some v -> v <> "")
  /\ (forall v, setting_featureangle f = Some v ->
        isFinite (featureNumber v) = true).

(** What [loadSettings] leaves in a text input that showed [shown] after
    [applySettings] saved the value [v]. *)
Definition restored (v shown : string) : option string :=
  if String.eqb v "" then Some shown else Some v.

(** Whole numbers as a stand-in for JavaScript numbers: [None] is NaN. *)
Definition wholeNumbers : JsNumber :=
  {| number := option Z;
     zero := Some 0%Z;
     Number := fun s =>
       option_map Z.of_int (DecimalString.NilZero.int_of_string s);
     isFinite := fun n => match n with Some _ => true | None => false end;
     truthyNumber := fun n =>
       match n with Some z => negb (Z.eqb z 0) | None => false end;
     toString := fun n =>
       match n with
       | Some z => DecimalString.NilZero.string_of_int (Z.to_int z)
       | None => "NaN"
       end |}.

Definition emptyStorage : @Storage wholeNumbers :=
  @mkStorage wholeNumbers (fun _ => None) true.

(** A form as filled in, with the font size cleared, and the form as the
    page shows it before [loadSettings] runs. *)
Definition clearedForm : Form :=
  mkForm (Some "#8a8888") (Some "Arial") (Some "") (Some "Default") (Some "30").

Definition defaultForm : Form :=
  mkForm (Some "#ffffff") (Some "Segoe UI") (Some "14") (Some "Default") (Some "30").

Definition filledForm : Form :=
  mkForm (Some "#8a8888") (Some "Arial") (Some "16") (Some "Blender") (Some "45").

(** [resetSettings()]: the defaults are put in the inputs on the page and
    applied. *)
Definition defaultFont : string :=
  "Segoe UI, Roboto, Helvetica Neue, Arial, sans-serif".

Definition resetSettings `{JsNumber} (p : Page) : Page :=
  let f := form p in
  applySettings
    (with_form
       (mkForm (assign (setting_bgcolor f) "#8a8888")
          (assign (setting_font f) defaultFont)
          (assign (setting_fontsize f) "14")
          (assign (setting_mousemode f) "Default")
          (assign (setting_featureangle f) "30")) p).

End Settings.

(** ** The settings form of uiView.js *)

(** uiView.js wires the same panel a second time, before settingsView.js
    does: its functions leave the feature angle alone and hand the
    background colour to [window.setSceneBackground], taken to be defined,
    where settingsView.js sets the body's background. *)
Module UiView.

Import Settings.

(** The settings page, and the colours handed to
    [window.setSceneBackground] so far. *)
Record Shell `{JsNumber} := mkShell {
  page : Page;
  sceneBackground : list string
}.

Arguments mkShell {_} _ _.

Definition loadSettings `{JsNumber} (sh : Shell) : Shell :=
  let p := page sh in
  let saved := getSaved "viewer.settings" (localStorage p) in
  let f := form p in
  let bg := property "bgcolor" saved in
  let fo := property "font" saved in
  let fs := property "fontsize" saved in
  let mm := property "mousemode" saved in
  mkShell
    (mkPage
       (mkForm
          (if truthy bg then assign (setting_bgcolor f) (valueText bg)
           else setting_bgcolor f)
          (if truthy fo then assign (setting_font f) (valueText fo)
           else setting_font f)
          (if truthy fs then assign (setting_fontsize f) (valueText fs)
           else setting_fontsize f)
          (if truthy mm then assign (setting_mousemode f) (valueText mm)
           else setting_mousemode f)
          (setting_featureangle f))
       (localStorage p)
       (effects p
        ++ (if truthy fo then [BodyFontFamily (valueText fo)] else [])
        ++ (if truthy fs then [RootFontSize (valueText fs ++ "px")] else [])
        ++ (if truthy mm then opt_effect SetMouseMapping mm else []))%list)
    (sceneBackground sh ++ (if truthy bg then [valueText bg] else []))%list.

Definition applySettings `{JsNumber} (sh : Shell) : Shell :=
  let p := page sh in
  let f := form p in
  let cfg :=
    mkCfg (setting_bgcolor f) (setting_font f) (setting_fontsize f)
      (setting_mousemode f) None in
  mkShell
    (mkPage f
       (setItem "viewer.settings" (JSON_stringify cfg) (localStorage p))
       (effects p
        ++ opt_effect BodyFontFamily (font cfg)
        ++ opt_effect (fun v => RootFontSize (v ++ "px")) (fontsize cfg)
        ++ (if truthy (option_map JString (mousemode cfg))
            then opt_effect (fun v => SetMouseMapping (JString v)) (mousemode cfg)
            else [])
        ++ [HidePanel; LogMessage "Settings applied."])%list)
    (sceneBackground sh
     ++ match bgcolor cfg with Some v => [v] | None => [] end)%list.

Definition resetSettings `{JsNumber} (sh : Shell) : Shell :=
  let p := page sh in
  let f := form p in
  applySettings
    (mkShell
       (with_form
          (mkForm (assign (setting_bgcolor f) "#ffffff")
             (assign (setting_font f) defaultFont)
             (assign (setting_fontsize f) "14")
             (assign (setting_mousemode f) "Default")
             (setting_featureangle f)) p)
       (sceneBackground sh)).

(** A click on Apply or on Reset runs the listener of uiView.js, then the
    one of settingsView.js, in the order they were added. *)
Definition applyClick `{JsNumber} (sh : Shell) : Shell :=
  let sh1 := applySettings sh in
  mkShell (Settings.applySettings (page sh1)) (sceneBackground sh1).

Definition resetClick `{JsNumber} (sh : Shell) : Shell :=
  let sh1 := resetSettings sh in
  mkShell (Settings.resetSettings (page sh1)) (sceneBackground sh1).

End UiView.

(** ** The splitters of uiView.js *)

(** What the mouse listeners of the two splitters receive. *)
Inductive MouseInput :=
| MouseDown (clientX clientY : R)
| MouseMove (clientX clientY : R)
| MouseUp.

(** The vertical splitter: its closure variables, and the value it wrote
    to the [--left-width] property, in pixels, if it wrote one.
    [offsetWidth] is the width of [#tree-panel] when the button goes down,
    [None] without the panel. *)
Module VerticalSplitter.

Record t := mk {
  isDragging : bool;
  startX : R;
  startWidth : R;
  leftWidth : option R
}.

Definition init : t := mk false 0 0 None.

Definition step (offsetWidth : option R) (e : MouseInput) (st : t) : t :=
  match e with
  | MouseDown x _ => mk true x (opt_or offsetWidth 260) (leftWidth st)
  | MouseMove x _ =>
      if isDragging st then
        let delta := x - startX st in
        let newWidth := Rmax 150 (Rmin 600 (startWidth st + delta)) in
        mk true (startX st) (startWidth st) (Some newWidth)
      else st
  | MouseUp =>
      if isDragging st then mk false (startX st) (startWidth st) (leftWidth st)
      else st
  end.

End VerticalSplitter.

(** The horizontal splitter, between the view and the console: it writes
    [--console-height]; [offsetHeight] is the height of
    [#console-container]. *)
Module HorizontalSplitter.

Record t := mk {
  isDragging : bool;
  startY : R;
  startHeight : R;
  consoleHeight : option R
}.

Definition init : t := mk false 0 0 None.

Definition step (offsetHeight : option R) (e : MouseInput) (st : t) : t :=
  match e with
  | MouseDown _ y => mk true y (opt_or offsetHeight 84) (consoleHeight st)
  | MouseMove _ y =>
      if isDragging st then
        let delta := startY st - y in
        let newHeight := Rmax 60 (Rmin 400 (startHeight st + delta)) in
        mk true (startY st) (startHeight st) (Some newHeight)
      else st
  | MouseUp =>
      if isDragging st then mk false (startY st) (startHeight st) (consoleHeight st)
      else st
  end.

End HorizontalSplitter.

(** ** The context menu (contextMenuView.js) *)

(** Where the [contextmenu] listener of the main view puts the menu, as
    [(left, top)] in pixels: [x], [y] is the pointer, [rectWidth],
    [rectHeight] the size of the menu, the other four the sizes of the
    document element and of the window. *)
Definition contextMenuPosition (x y rectWidth rectHeight : R)
    (docClientWidth docClientHeight winInnerWidth winInnerHeight : R) : R * R :=
  let vw := Rmax (num_or docClientWidth 0) (num_or winInnerWidth 0) in
  let vh := Rmax (num_or docClientHeight 0) (num_or winInnerHeight 0) in
  let left := if Rgt_dec (x + rectWidth) vw then vw - rectWidth - 8 else x in
  let top := if Rgt_dec (y + rectHeight) vh then vh - rectHeight - 8 else y in
  (Rmax 4 left, Rmax 4 top).

(** ** The view menu (menusView.js) *)

(** The action of 'Show Axes': the menu's own flag [axesVisible] is
    flipped and handed to [window.toggleAxes]. *)
Definition showAxesAction (axesVisible : bool) (s : SceneManager)
    : bool * SceneManager :=
  let v := negb axesVisible in
  (v, toggleAxes (Some v) s).

(** ** The scene tree (treeView.js) *)

Module TreeView.

(** The trees below nest through lists: their induction principles are
    proved where they are used. *)
Local Unset Elimination Schemes.

(** A three.js object as the tree reads it. *)
Inductive SceneObject :=
| mkSceneObject (uuid name type : string) (visible : bool)
    (children : list SceneObject).

(** A node of [treeData]. *)
Inductive Node :=
| mkNode (id name type : string) (visible : bool) (depth : nat)
    (children : list Node).

Definition node_id (n : Node) : string :=
  match n with mkNode id _ _ _ _ _ => id end.

(** [buildNode(obj, depth)] of [buildFromScene]. *)
Fixpoint buildNode (obj : SceneObject) (depth : nat) : Node :=
  match obj with
  | mkSceneObject uuid name type visible children =>
      mkNode uuid (str_or name (str_or type "Object")) type visible depth
        (map (fun child => buildNode child (S depth)) children)
  end.

(** What [render] puts in the content element: an item per node, each
    followed by the container of its children when it has any.  The icon
    and the glyph of the expander are left out; [expander] says whether the
    item has an expander or a spacer, [dimmed] whether the label is greyed
    for an invisible object. *)
Inductive Dom :=
| TreeItem (nodeId : string) (paddingLeft : nat) (expander : bool)
    (label : string) (dimmed : bool)
| TreeChildren (parentId : string) (items : list Dom)
| Placeholder (text : string).

Local Set Elimination Schemes.

Definition hasChildren {A : Type} (l : list A) : bool :=
  match l with [] => false | _ :: _ => true end.

Fixpoint _renderNode (node : Node) : list Dom :=
  match node with
  | mkNode id name type visible depth children =>
      TreeItem id (depth * 12 + 4) (hasChildren children) name (negb visible)
      :: (if hasChildren children
          then [TreeChildren id (flat_map _renderNode children)]
          else [])
  end.

(** The fields of a tree view whose content element is on the page:
    [content] is what the element holds. *)
Record t := mk {
  treeData : option Node;
  selectedNode : option string;
  content : list Dom
}.

(** [render()]. *)
Definition render (tv : t) : t :=
  mk (treeData tv) (selectedNode tv)
    (match treeData tv with
     | None => [Placeholder "Load a model to view structure"]
     | Some node => _renderNode node
     end).

(** [clear()]. *)
Definition clear (tv : t) : t :=
  mk None None [Placeholder "No objects in scene"].

(** [buildFromScene(rootObject)]; [None] is a missing root. *)
Definition buildFromScene (rootObject : option SceneObject) (tv : t) : t :=
  match rootObject with
  | None => clear tv
  | Some obj =>
      render (mk (Some (buildNode obj 0)) (selectedNode tv) (content tv))
  end.

(** [content.querySelectorAll('.tree-item')]: the items in document
    order. *)
Fixpoint treeItems (d : Dom) : list Dom :=
  match d with
  | TreeItem _ _ _ _ _ => [d]
  | TreeChildren _ items => flat_map treeItems items
  | Placeholder _ => []
  end.

Definition allTreeItems (tv : t) : list Dom := flat_map treeItems (content tv).

(** The properties [updateNode] is given, for a name, a type and a
    visibility. *)
Record Updates := mkUpdates {
  upd_name : option string;
  upd_type : option string;
  upd_visible : option bool
}.

(** [Object.assign(node, updates)]. *)
Definition assignUpdates (u : Updates) (n : Node) : Node :=
  match n with
  | mkNode id name type visible depth children =>
      mkNode id (opt_or (upd_name u) name) (opt_or (upd_type u) type)
        (opt_or (upd_visible u) visible) depth children
  end.

(** [findAndUpdate(node)] of [updateNode]: the node after the call and
    the value returned. *)
Fixpoint findAndUpdate (nodeId : string) (u : Updates) (node : Node) : Node * bool :=
  match node with
  | mkNode id name type visible depth children =>
      if String.eqb id nodeId then (assignUpdates u node, true)
      else
        let fix each (cs : list Node) : list Node * bool :=
          match cs with
          | [] => ([], false)
          | c :: rest =>
              let '(c', found) := findAndUpdate nodeId u c in
              if found then (c' :: rest, true)
              else
                let '(rest', found') := each rest in
                (c :: rest', found')
          end in
        let '(children', found) := each children in
        (mkNode id name type visible depth children', found)
  end.

(** [updateNode(nodeId, updates)]: the tree is rendered again when a node
    was found. *)
Definition updateNode (nodeId : string) (u : Updates) (tv : t) : t :=
  match treeData tv with
  | None => tv
  | Some node =>
      let '(node', found) := findAndUpdate nodeId u node in
      let tv' := mk (Some node') (selectedNode tv) (content tv) in
      if found then render tv' else tv'
  end.

End TreeView.

(** ** Observations used in the statements *)

Definition overlay_visible (s : SceneManager) : option bool :=
  option_map eg_visible (_edgesGroup s).

Definition hiddenLines_visible (s : SceneManager) : option bool :=
  option_map ls_visible (_hiddenEdgeLines s).

Definition visibleLines_visible (s : SceneManager) : option bool :=
  option_map ls_visible (_visibleEdgeLines s).

(** [Some b] where the option holds something, [None] where it does not:
    the flag of an object after an assignment guarded by its presence. *)
Definition now_all {A : Type} (b : bool) (o : option A) : option bool :=
  option_map (fun _ => b) o.

(** The styles with a [case] of their own before [default]. *)
Definition edgedStyle (style : string) : Prop :=
  style = "wireframe" \/ style = "shaded-edge" \/ style = "shaded-hidden".

(** Field updates followed by field reads, evaluated. *)
Ltac scene :=
  cbn [camera controls artifactGroup core defaultMaterial selectedMaterial
       frustumSize axesActor sens _visualStyle _featureAngle _edgesGroup
       _visibleEdgeLines _hiddenEdgeLines _rotationAnimating
       _rotationCancelToken frameCallbacks disposed nextId
       set_camera set_controls set_artifactGroup set_core set_defaultMaterial
       set_selectedMaterial set_frustumSize set_axesActor set_sens
       set_visualStyle set_featureAngle set_edgesGroup set_visibleEdgeLines
       set_hiddenEdgeLines set_rotationAnimating set_rotationCancelToken
       set_frameCallbacks set_disposed set_nextId
       cam_position cam_up cam_quaternion cam_left cam_right cam_top cam_bottom
       cam_set_position cam_set_up cam_set_quaternion cam_set_frustum
       target enableRotate ctl_set_target
       grp_quaternion children grp_set_quaternion grp_set_children
       eg_id eg_visible ls_visible renderOrder wireframe
       option_map fst snd].

(** The optional fields of a scene split into their cases, and the
    equations so obtained used wherever a definition inspects the field. *)
Ltac settle :=
  repeat (scene;
          match goal with
          | H : ?x = _ |- context [?x] => rewrite H
          end);
  scene.

Ltac split_scene s :=
  let c := fresh "c" in
  destruct (core s) as [c |] eqn:?;
  [destruct (material c) as [[|] |] eqn:? |];
  destruct (_edgesGroup s) eqn:?;
  destruct (_hiddenEdgeLines s) eqn:?;
  destruct (_visibleEdgeLines s) eqn:?.

(** The seven preset views and their directions. *)
Definition presetDirections : list (string * Vector3) :=
  [ ("isometric", normalize (mkV3 1 1 1));
    ("front", mkV3 0 0 1);
    ("back", mkV3 0 0 (-1));
    ("left", mkV3 (-1) 0 0);
    ("right", mkV3 1 0 0);
    ("top", mkV3 0 1 0);
    ("bottom", mkV3 0 (-1) 0) ].

(** The rotate branch as C2 words it: the model quaternion premultiplied by
    [pitchQ * yawQ], the angles taken from the manager's
    [rotationBaseSpeed]. *)
Definition rotatesByBaseSpeed `{ThreeServices} (w : Window) (ev : PointerEvent)
    (h : QuaternionRotation) (s : SceneManager) (cam : Camera) (g : Group) : Prop :=
  let dx := clientX ev - qr_lastX h in
  let dy := clientY ev - qr_lastY h in
  let dt := elapsedSince (qr_lastPointerTime h) (eventTime w ev) in
  let m := rotateSpeedMult s dx dy dt in
  let yawQ :=
    setFromAxisAngle (normalize (cam_up cam))
      (dx * rotationBaseSpeed (sens s) * m) in
  let pitchQ :=
    setFromAxisAngle
      (normalize (crossVectors (cam_up cam) (getWorldDirection cam)))
      (dy * rotationBaseSpeed (sens s) * m) in
  option_map grp_quaternion (artifactGroup (snd (qr_onPointerMove w ev h s)))
  = Some (premultiply (grp_quaternion g) (multiplyQuaternions pitchQ yawQ)).

(** A single rotation callback is waiting for the next frame, on a scene
    that has its artifact group and no cancellation requested. *)
Definition pendingRotation (k : RotationStep) (s : SceneManager) : Prop :=
  frameCallbacks s = [k]
  /\ (exists g, artifactGroup s = Some g)
  /\ _rotationCancelToken s = false.

Definition modelQuaternion (s : SceneManager) : option Quaternion :=
  option_map grp_quaternion (artifactGroup s).

(** The loader's invariant: the only mesh in the artifact group is the
    current core mesh, and object identities already handed out lie below
    the next one. *)
Definition coreIsOnlyMesh (s : SceneManager) : Prop :=
  groupMeshes s
  = match core s with
    | Some m => [ChildMesh (mesh_id m)]
    | None => []
    end
  /\ (forall m, core s = Some m -> (mesh_id m < nextId s)%nat).

(** Two states with the same model part: core, artifact group, disposed
    geometries and allocation counter. *)
Definition sameModel (a b : SceneManager) : Prop :=
  core a = core b
  /\ artifactGroup a = artifactGroup b
  /\ disposed a = disposed b
  /\ nextId a = nextId b.




(** Evaluates [Rmax] and [Rmin] on given numbers, innermost first. *)
Ltac rmaxmin :=
  unfold Math_max3;
  repeat match goal with
         | |- context [Rmax ?a ?b] =>
             first [rewrite (Rmax_right a b) by lra | rewrite (Rmax_left a b) by lra]
         | |- context [Rmin ?a ?b] =>
             first [rewrite (Rmin_left a b) by lra | rewrite (Rmin_right a b) by lra]
         end;
  try lra.

(** ** Observations used in the further statements *)

(** A number of a configuration object: [Some] where the group is given
    and holds the number. *)
Definition cfgNumber {A : Type} (g : option A) (f : A -> option R) : option R :=
  match g with
  | Some a => f a
  | None => None
  end.

(** The sensitivities with every number the configuration gives put in
    place of the stored one. *)
Definition mergedSensitivities (cfg : SensitivityCfg) (k : Sensitivities)
    : Sensitivities :=
  mkSensitivities
    (opt_or (cfgNumber (rotation cfg) baseSpeed) (rotationBaseSpeed k))
    (opt_or (cfgNumber (rotation cfg) gain) (rotationGain k))
    (opt_or (cfgNumber (rotation cfg) minMult) (rotationMinMult k))
    (opt_or (cfgNumber (rotation cfg) maxMult) (rotationMaxMult k))
    (opt_or (cfgNumber (pan cfg) PanCfg.panBase) (panBase k))
    (opt_or (cfgNumber (pan cfg) PanCfg.panGain) (panGain k))
    (opt_or (cfgNumber (pan cfg) PanCfg.panMinMult) (panMinMult k))
    (opt_or (cfgNumber (pan cfg) PanCfg.panMaxMult) (panMaxMult k))
    (opt_or (cfgNumber (orbit cfg) OrbitCfg.gain) (orbitGain k))
    (opt_or (cfgNumber (orbit cfg) OrbitCfg.minMult) (orbitMinMult k))
    (opt_or (cfgNumber (orbit cfg) OrbitCfg.maxMult) (orbitMaxMult k)).

(** What decides how the model is drawn: the core mesh, the two
    materials, the overlay with its lines, and the stored style. *)
Definition display (s : SceneManager) :=
  (core s, defaultMaterial s, selectedMaterial s, _edgesGroup s,
   _hiddenEdgeLines s, _visibleEdgeLines s, _visualStyle s).

(** The children the artifact group should hold: the core mesh, then the
    edges overlay. *)
Definition modelChildren (s : SceneManager) : list Child :=
  (match core s with Some m => [ChildMesh (mesh_id m)] | None => [] end)
  ++ (match _edgesGroup s with Some e => [ChildEdges (eg_id e)] | None => [] end).

Definition groupHoldsModel (s : SceneManager) : Prop :=
  exists g, artifactGroup s = Some g /\ children g = modelChildren s.

(** What [groupHoldsModel] looks at. *)
Definition modelPart (s : SceneManager) :=
  (option_map children (artifactGroup s), option_map mesh_id (core s),
   option_map eg_id (_edgesGroup s)).

(** What the menus, the settings panel, the canvas and the render loop ask
    of the scene manager. *)
Inductive SceneOp :=
| OpLoad (fileName : string) (parsed : option (list Vector3))
| OpFeatureAngle (deg : R)
| OpVisualStyle (style : string)
| OpHighlight (highlight : bool)
| OpSelect (ev : PointerEvent) (hits : bool)
| OpFitCore
| OpPresetView (id : string) (aroundCore : bool)
| OpRotate (degrees : R) (axis : AxisArg) (dur : R) (space : string)
| OpFrame (now : R)
| OpToggleAxes (visible : option bool)
| OpResize (mainView : MainView)
| OpSensitivities (cfg : SensitivityCfg).

(** [getCore()] as a scene object. *)
Definition coreObject `{ThreeServices} (s : SceneManager) : option Object3D :=
  option_map (meshObject (artifactGroup s)) (core s).

Definition applyOp `{ThreeServices} (w : Window) (op : SceneOp) (s : SceneManager)
    : SceneManager :=
  match op with
  | OpLoad fileName parsed => onload w fileName parsed s
  | OpFeatureAngle deg => setFeatureAngle deg s
  | OpVisualStyle style => setVisualStyle style s
  | OpHighlight highlight => highlightModel highlight s
  | OpSelect ev hits => selectionPointerUp ev hits s
  | OpFitCore => fitModelToView w (coreObject s) 1.2 s
  | OpPresetView id aroundCore =>
      setPresetView w id (if aroundCore then coreObject s else None) 600 s
  | OpRotate degrees axis dur space => rotateModelByDegrees w degrees axis dur space s
  | OpFrame now => animationFrame now s
  | OpToggleAxes visible => toggleAxes visible s
  | OpResize mainView => handleResize w mainView true s
  | OpSensitivities cfg => setSensitivities cfg s
  end.

Definition applyOps `{ThreeServices} (w : Window) (ops : list SceneOp)
    (s : SceneManager) : SceneManager :=
  fold_left (fun st op => applyOp w op st) ops s.

(** An axis argument that names a direction: a name, or a vector other
    than 0. *)
Definition properAxis (axis : AxisArg) : Prop :=
  match axis with
  | AxisName _ => True
  | AxisVector v => v <> zero3
  end.

(** The callback [k] of an animated rotation is waiting for a frame, on a
    scene that has its artifact group and no cancellation requested. *)
Definition queued (k : RotationStep) (s : SceneManager) : Prop :=
  In k (frameCallbacks s)
  /\ _rotationCancelToken s = false
  /\ artifactGroup s <> None.

(** What [queued] looks at. *)
Definition animationPart (s : SceneManager) :=
  (frameCallbacks s, _rotationCancelToken s,
   match artifactGroup s with Some _ => true | None => false end).

(** The scalar product of two vectors. *)
Definition dot (a b : Vector3) : R := vx a * vx b + vy a * vy b + vz a * vz b.

(** Whether the axes widget is to be shown, where there is a widget. *)
Definition axesShown (s : SceneManager) : option bool :=
  option_map axes_visible (axesActor s).

(** What happens while the view menu is in use: a click on 'Show Axes', or
    anything else asked of the scene manager. *)
Inductive ViewMenuEvent :=
| ClickShowAxes
| Asked (op : SceneOp).

(** The menu's flag [axesVisible] next to the scene manager. *)
Definition viewMenuStep `{ThreeServices} (w : Window) (e : ViewMenuEvent)
    (st : bool * SceneManager) : bool * SceneManager :=
  match e with
  | ClickShowAxes => showAxesAction (fst st) (snd st)
  | Asked op => (fst st, applyOp w op (snd st))
  end.

Definition viewMenuRun `{ThreeServices} (w : Window) (es : list ViewMenuEvent)
    (st : bool * SceneManager) : bool * SceneManager :=
  fold_left (fun a e => viewMenuStep w e a) es st.

Definition isClick (e : ViewMenuEvent) : bool :=
  match e with ClickShowAxes => true | Asked _ => false end.

Definition togglesAxes (e : ViewMenuEvent) : bool :=
  match e with Asked (OpToggleAxes _) => true | _ => false end.

(** The objects of a scene in pre-order, each with its depth, and the item
    the tree should show for one of them. *)
Fixpoint objectsPreorder (obj : TreeView.SceneObject) (depth : nat)
    : list (TreeView.SceneObject * nat) :=
  match obj with
  | TreeView.mkSceneObject _ _ _ _ children =>
      (obj, depth) :: flat_map (fun c => objectsPreorder c (S depth)) children
  end.

Definition itemFor (od : TreeView.SceneObject * nat) : TreeView.Dom :=
  match fst od with
  | TreeView.mkSceneObject uuid name type visible children =>
      TreeView.TreeItem uuid (snd od * 12 + 4) (TreeView.hasChildren children)
        (str_or name (str_or type "Object")) (negb visible)
  end.

(** The nodes of a tree in pre-order, without their children, and the
    update of the first one with a given id. *)
Fixpoint nodesPreorder (n : TreeView.Node) : list TreeView.Node :=
  match n with
  | TreeView.mkNode id name type visible depth children =>
      TreeView.mkNode id name type visible depth []
      :: flat_map nodesPreorder children
  end.

Fixpoint updateFirst (nodeId : string) (u : TreeView.Updates)
    (l : list TreeView.Node) : list TreeView.Node :=
  match l with
  | [] => []
  | n :: rest =>
      if String.eqb (TreeView.node_id n) nodeId
      then TreeView.assignUpdates u n :: rest
      else n :: updateFirst nodeId u rest
  end.

Definition hasId (nodeId : string) (n : TreeView.Node) : bool :=
  String.eqb (TreeView.node_id n) nodeId.

(** ** The camera after a fit and after a preset view *)

(** The fit as C5 words it: the frustum, the camera position and up vector
    and the controls target that [fitModelToView(object, padding)] leaves. *)
Definition fitsAsStated `{ThreeServices} (w : Window) (obj : Object3D)
    (padding : R) (s : SceneManager) : Prop :=
  let c := getCenter (Box3_setFromObject obj) in
  let size := getSize (Box3_setFromObject obj) in
  let maxDim := Math_max3 (vx size) (vy size) (vz size) in
  let aspect := innerWidth w / innerHeight w in
  let s' := fitModelToView w (Some obj) padding s in
  frustumSize s' = Rmax 1e-6 (maxDim * padding)
  /\ option_map cam_left (camera s') = Some (- frustumSize s' * aspect / 2)
  /\ option_map cam_right (camera s') = Some (frustumSize s' * aspect / 2)
  /\ option_map cam_top (camera s') = Some (frustumSize s' / 2)
  /\ option_map cam_bottom (camera s') = Some (- frustumSize s' / 2)
  /\ option_map cam_position (camera s')
     = Some (add c (multiplyScalar (normalize (mkV3 1 1 1)) (maxDim * 2.5 + 1.0)))
  /\ option_map cam_up (camera s') = Some (mkV3 0 1 0)
  /\ option_map target (controls s') = option_map (fun _ => c) (controls s).

(** The distance from the box centre at which a fit leaves the camera: the
    controls, when there are any, bring it into their limits. *)
Definition fitDistance (maxDim : R) (s : SceneManager) : R :=
  let distance := maxDim * 2.5 + 1.0 in
  match controls s with
  | Some _ => Rmax 3 (Rmin 100 distance)
  | None => distance
  end.

(** A preset view as C9 words it, for the preset direction [u]. *)
Definition presetAsStated `{ThreeServices} (w : Window) (id : string)
    (object : option Object3D) (dur : R) (s : SceneManager) (u : Vector3) : Prop :=
  let center := presetCenter object s in
  let s' := setPresetView w id object dur s in
  option_map cam_position (camera s') = Some (add center (multiplyScalar u 10))
  /\ option_map cam_up (camera s') = Some (mkV3 0 1 0)
  /\ option_map target (controls s') = option_map (fun _ => center) (controls s).

(** The direction from the centre in which a preset leaves the camera: the
    controls, when there are any, tilt the two vertical views by their
    smallest polar angle. *)
Definition presetReached (id : string) (u : Vector3) (s : SceneManager) : Vector3 :=
  match controls s with
  | Some _ =>
      if String.eqb id "top" || String.eqb id "bottom"
      then mkV3 0 (vy u * cos OrbitControls.EPS) (sin OrbitControls.EPS)
      else u
  | None => u
  end.

(** ** The geometry after a load *)




(** ** A concrete scene for the examples *)

(** A three.js stand-in: an object is its world box and world quaternion,
    cameras look down the negative z axis, and the controls leave the camera
    where the viewer put it. *)
Definition plainThree : ThreeServices :=
  {| Object3D := Box3 * Quaternion;
     lookAt := fun _ _ _ => identityQ;
     getWorldDirection := fun _ => mkV3 0 0 (-1);
     cameraWorldQuaternion := cam_quaternion;
     getWorldQuaternion := snd;
     Box3_setFromObject := fst;
     meshObject := fun g m =>
       (setFromPoints (geometry m),
        match g with Some gr => grp_quaternion gr | None => identityQ end);
     OrbitControls_update := fun c t => (c, t);
     slerp := fun a b _ => b |}.

Definition plainWindow : @Window plainThree :=
  @mkWindow plainThree 800 600 1000 800 600 None.

Definition frontCamera : Camera :=
  mkCamera (mkV3 0 0 10) (mkV3 0 1 0) identityQ (-5) 5 5 (-5).

Definition sampleAxes : AxesActor :=
  mkAxesActor (mkCamera (mkV3 2 2 2) (mkV3 0 1 0) identityQ (-1.5) 1.5 1.5 (-1.5))
    identityQ true.

(** A scene after [init]: camera in front of the origin, controls on the
    origin, an empty artifact group. *)
Definition sampleScene : SceneManager :=
  mkSceneManager (Some frontCamera) (Some (mkControls (mkV3 0 0 0) false))
    (Some (mkGroup identityQ [])) None (mkMaterial false) (mkMaterial false)
    10 (Some sampleAxes) defaultSensitivities "shaded-edge" 30 None None None
    false false [] [] 0%nat.

Definition unitCube : list Vector3 :=
  [mkV3 0 0 0; mkV3 1 0 0; mkV3 0 2 0; mkV3 0 0 4].

(** The sample scene with a model loaded, as [replaceCore] and
    [_rebuildEdges] leave it. *)
Definition loadedScene : SceneManager :=
  _rebuildEdges (replaceCore "part.stl" (normalizeGeometry unitCube) sampleScene).

(** A Shift+middle press on the canvas, a plain middle press, and a move of
    the same pointer 16 ms later. *)
Definition shiftMiddleDown : PointerEvent :=
  mkPointerEvent 1 true false false 100 100 7 1000 true.

Definition middleDown : PointerEvent :=
  mkPointerEvent 1 false false false 100 100 7 1000 true.

Definition pointerMoved : PointerEvent :=
  mkPointerEvent 1 false false false 110 120 7 1016 true.

Definition panHandler : QuaternionRotation :=
  @qr_onPointerDown plainThree plainWindow shiftMiddleDown
    (_setupQuaternionRotation sampleScene) sampleScene.

Definition orbitHandler : CameraOrbit :=
  @onPointerDown plainThree plainWindow middleDown _setupCameraQuaternionOrbit.

(** A horizontal move of the pointer, and the rotation handler installed on
    the sample scene, put in rotate mode, with the base speed doubled
    afterwards through [setRotationSensitivity]. *)
Definition pointerMovedX : PointerEvent :=
  mkPointerEvent 1 false false false 110 100 7 1016 true.

Definition rotateHandler : QuaternionRotation :=
  mkQuaternionRotation true 100 100 ModeRotate (Some 7%Z)
    (rotSpeed (_setupQuaternionRotation sampleScene)) (Some 1000).


(** A half turn about y started on the sample scene at time 1000, to last
    600 ms, and the callback it queued. *)
Definition spinningScene : SceneManager :=
  @rotateModelByDegrees plainThree plainWindow 180 (AxisName "y") 600 "world"
    sampleScene.

Definition spinStep : RotationStep :=
  mkRotationStep identityQ
    (multiply
       (setFromAxisAngle
          (@axisWorldOf plainThree (AxisName "y") "world" (mkGroup identityQ [])
             sampleScene)
          (180 * PI / 180))
       identityQ)
    1000 600.

(** The viewer after [init], nothing pressed. *)
Definition idleViewer : Viewer :=
  mkViewer sampleScene (_setupQuaternionRotation sampleScene)
    _setupCameraQuaternionOrbit.

(** The stand-in with the controls of three.js, its window, and an object
    that is a single point at the origin. *)
Definition orbitThree : ThreeServices :=
  {| Object3D := Box3 * Quaternion;
     lookAt := fun _ _ _ => identityQ;
     getWorldDirection := fun _ => mkV3 0 0 (-1);
     cameraWorldQuaternion := cam_quaternion;
     getWorldQuaternion := snd;
     Box3_setFromObject := fst;
     meshObject := fun g m =>
       (setFromPoints (geometry m),
        match g with Some gr => grp_quaternion gr | None => identityQ end);
     OrbitControls_update := @OrbitControls.update plainThree;
     slerp := fun a b _ => b |}.

Definition orbitWindow : @Window orbitThree :=
  @mkWindow orbitThree 800 600 1000 800 600 None.

Definition pointObject : Box3 * Quaternion :=
  (Box3_make (mkV3 0 0 0) (mkV3 0 0 0), identityQ).



(** ** Vector and quaternion algebra *)

Lemma v3_eq (a b : Vector3) :
  vx a = vx b -> vy a = vy b -> vz a = vz b -> a = b.
Proof. destruct a, b; simpl; intros; subst; reflexivity. Qed.

Lemma q_eq (a b : Quaternion) :
  qx a = qx b -> qy a = qy b -> qz a = qz b -> qw a = qw b -> a = b.
Proof. destruct a, b; simpl; intros; subst; reflexivity. Qed.

Lemma lengthSq_nonneg (v : Vector3) : 0 <= lengthSq v.
Proof. unfold lengthSq; nra. Qed.

Lemma lengthSq_zero_iff (v : Vector3) : lengthSq v = 0 <-> v = zero3.
Proof.
  split.
  - intros H; unfold lengthSq in H.
    apply v3_eq; simpl; nra.
  - intros ->; unfold lengthSq; simpl; ring.
Qed.

Lemma length_nonneg (v : Vector3) : 0 <= length v.
Proof. apply sqrt_pos. Qed.

Lemma length_zero_iff (v : Vector3) : length v = 0 <-> v = zero3.
Proof.
  unfold length; split; intros H.
  - apply lengthSq_zero_iff, sqrt_eq_0; [apply lengthSq_nonneg | exact H].
  - apply lengthSq_zero_iff in H; rewrite H; apply sqrt_0.
Qed.

Lemma length_multiplyScalar (v : Vector3) (s : R) :
  0 <= s -> length (multiplyScalar v s) = length v * s.
Proof.
  intros Hs; unfold length.
  replace (lengthSq (multiplyScalar v s)) with (lengthSq v * (s * s))
    by (unfold lengthSq, multiplyScalar; simpl; ring).
  rewrite sqrt_mult; [| apply lengthSq_nonneg | nra].
  rewrite sqrt_square by exact Hs; reflexivity.
Qed.

Lemma normalize_zero : normalize zero3 = zero3.
Proof.
  unfold normalize, divideScalar, multiplyScalar; simpl.
  apply v3_eq; simpl; ring.
Qed.

Lemma length_normalize (v : Vector3) : v <> zero3 -> length (normalize v) = 1.
Proof.
  intros Hv.
  assert (Hl : length v <> 0) by (rewrite length_zero_iff; exact Hv).
  assert (Hp : 0 < length v) by (pose proof (length_nonneg v); lra).
  unfold normalize, num_or.
  destruct (Req_dec_T (length v) 0) as [E | _]; [contradiction |].
  unfold divideScalar.
  rewrite length_multiplyScalar.
  - field; exact Hl.
  - apply Rlt_le, Rdiv_lt_0_compat; lra.
Qed.

Lemma lengthSq_normalize (v : Vector3) : v <> zero3 -> lengthSq (normalize v) = 1.
Proof.
  intros Hv. pose proof (length_normalize v Hv) as H.
  unfold length in H.
  apply (f_equal (fun x => x * x)) in H.
  rewrite sqrt_sqrt in H by apply lengthSq_nonneg. lra.
Qed.

(** [setLength] gives the requested length to every non-zero vector. *)
Lemma length_setLength (v : Vector3) (l : R) :
  v <> zero3 -> 0 <= l -> length (setLength v l) = l.
Proof.
  intros Hv Hl. unfold setLength.
  rewrite length_multiplyScalar by exact Hl.
  rewrite length_normalize by exact Hv. ring.
Qed.

Lemma qLengthSq_multiply (a b : Quaternion) :
  qLengthSq (multiplyQuaternions a b) = qLengthSq a * qLengthSq b.
Proof. unfold qLengthSq, multiplyQuaternions; simpl; ring. Qed.

Lemma lengthSq_applyQuaternion (v : Vector3) (q : Quaternion) :
  lengthSq (applyQuaternion v q) = qLengthSq q * qLengthSq q * lengthSq v.
Proof. unfold lengthSq, applyQuaternion, qLengthSq; simpl; ring. Qed.

Lemma qLengthSq_setFromAxisAngle (axis : Vector3) (angle : R) :
  qLengthSq (setFromAxisAngle axis angle)
  = lengthSq axis * (sin (angle / 2) * sin (angle / 2))
    + cos (angle / 2) * cos (angle / 2).
Proof. unfold qLengthSq, setFromAxisAngle, lengthSq; simpl; ring. Qed.

Lemma qLengthSq_axis_unit (axis : Vector3) (angle : R) :
  lengthSq axis = 1 -> qLengthSq (setFromAxisAngle axis angle) = 1.
Proof.
  intros H. rewrite qLengthSq_setFromAxisAngle, H.
  pose proof (sin2_cos2 (angle / 2)) as E. unfold Rsqr in E. lra.
Qed.

Lemma qLengthSq_zero_iff (q : Quaternion) :
  qLengthSq q = 0 <-> q = mkQ 0 0 0 0.
Proof.
  split.
  - intros H; unfold qLengthSq in H. apply q_eq; simpl; nra.
  - intros ->; unfold qLengthSq; simpl; ring.
Qed.

(** For a unit quaternion [invert] is the inverse. *)
Lemma invert_unit_left (q : Quaternion) :
  qLengthSq q = 1 -> multiplyQuaternions (invert q) q = identityQ.
Proof.
  unfold qLengthSq, invert, conjugate, multiplyQuaternions, identityQ; simpl.
  intros H; apply q_eq; simpl; try ring. lra.
Qed.


Lemma isEmpty_make (mn mx : Vector3) :
  vx mn <= vx mx -> vy mn <= vy mx -> vz mn <= vz mx ->
  isEmpty (Box3_make mn mx) = false.
Proof.
  intros Hx Hy Hz. unfold isEmpty, ltb.
  destruct (Rlt_dec (vx mx) (vx mn)); [lra |].
  destruct (Rlt_dec (vy mx) (vy mn)); [lra |].
  destruct (Rlt_dec (vz mx) (vz mn)); [lra |].
  reflexivity.
Qed.

Lemma getSize_make (mn mx : Vector3) :
  vx mn <= vx mx -> vy mn <= vy mx -> vz mn <= vz mx ->
  getSize (Box3_make mn mx) = sub mx mn.
Proof.
  intros Hx Hy Hz. unfold getSize. rewrite isEmpty_make by assumption. reflexivity.
Qed.


Lemma some_eq {A : Type} (a b : A) : Some a = Some b -> a = b.
Proof. intros H; injection H; auto. Qed.

Lemma getSize_nonneg (b : Box3) :
  0 <= vx (getSize b) /\ 0 <= vy (getSize b) /\ 0 <= vz (getSize b).
Proof.
  destruct b as [mn mx |]; [| cbn; lra].
  unfold getSize, isEmpty, ltb.
  destruct (Rlt_dec (vx mx) (vx mn)); [cbn; lra |].
  destruct (Rlt_dec (vy mx) (vy mn)); [cbn; lra |].
  destruct (Rlt_dec (vz mx) (vz mn)); [cbn; lra |].
  cbn. lra.
Qed.

Lemma Math_max3_nonneg (a b c : R) : 0 <= a -> 0 <= Math_max3 a b c.
Proof.
  intros Ha. unfold Math_max3.
  eapply Rle_trans; [exact Ha |].
  eapply Rle_trans; [apply Rmax_l | apply Rmax_l].
Qed.

Lemma sub_add_cancel_l (c v : Vector3) : sub (add c v) c = v.
Proof. apply v3_eq; simpl; ring. Qed.

Lemma isoDir_unit : length (normalize (mkV3 1 1 1)) = 1.
Proof. apply length_normalize. intros E. inversion E. lra. Qed.

(** A step of length [d] along a unit direction ends at distance [d]. *)
Lemma length_unit_step (c u : Vector3) (d : R) :
  length u = 1 -> 0 <= d -> length (sub (add c (multiplyScalar u d)) c) = d.
Proof.
  intros Hu Hd. rewrite sub_add_cancel_l, length_multiplyScalar by exact Hd.
  rewrite Hu. ring.
Qed.

(** ** Visual style (C6) *)

Lemma str_or_nonempty (a b : string) : a <> "" -> str_or a b = a.
Proof.
  intros H. unfold str_or.
  destruct (String.eqb a "") eqn:E; [apply String.eqb_eq in E; contradiction | reflexivity].
Qed.

Lemma str_or_cases (a b : string) : str_or a b = a \/ (a = "" /\ str_or a b = b).
Proof.
  unfold str_or. destruct (String.eqb a "") eqn:E; [right | left]; auto.
  apply String.eqb_eq in E. auto.
Qed.

(** The 'wireframe' and the default branch: the overlay, then the flag. *)
Lemma hide_then_wireframe (b : bool) (s : SceneManager) :
  let s' := set_core_wireframe b (hide_edgesGroup s) in
  core_wireframe s' = now_all b (core_wireframe s)
  /\ overlay_visible s' = now_all false (_edgesGroup s).
Proof.
  unfold set_core_wireframe, hide_edgesGroup, core_wireframe, overlay_visible, now_all.
  split; split_scene s; settle; reflexivity.
Qed.

(** The two edge branches: the flag, then the overlay and its lines. *)
Lemma wireframe_then_show (hidden : bool) (s : SceneManager) :
  let s' := show_edgesGroup hidden (set_core_wireframe false s) in
  core_wireframe s' = now_all false (core_wireframe s)
  /\ overlay_visible s' = now_all true (_edgesGroup s)
  /\ (forall g, _edgesGroup s = Some g ->
        hiddenLines_visible s' = now_all hidden (_hiddenEdgeLines s)
        /\ visibleLines_visible s' = now_all true (_visibleEdgeLines s)).
Proof.
  unfold show_edgesGroup, set_core_wireframe, core_wireframe, overlay_visible,
    hiddenLines_visible, visibleLines_visible, now_all, set_lines_visible.
  split; [| split; [| intros g Hg; split]];
    split_scene s; settle; try reflexivity; discriminate.
Qed.

Lemma visualStyle_stored (style : string) (s : SceneManager) :
  _visualStyle (setVisualStyle style s) = str_or style "shaded".
Proof.
  unfold setVisualStyle, set_core_wireframe, show_edgesGroup, hide_edgesGroup.
  split_scene s; settle; try reflexivity;
    repeat match goal with
           | |- context [if ?b then _ else _] => destruct b
           end; settle; reflexivity.
Qed.

(** C6.  With a model loaded, [setVisualStyle] is a four-way switch.
    'wireframe' sets the wireframe flag of the core's material and hides the
    edges overlay; 'shaded-edge' clears the flag and shows the overlay with
    the hidden-edge lines invisible and the visible-edge lines shown;
    'shaded-hidden' clears the flag and shows the overlay with both kinds of
    lines; 'shaded' and every other value clear the flag and hide the
    overlay.  (Each flag is written where its object exists.)  After
    [setVisualStyle style] with a non-empty [style], [getVisualStyle]
    returns [style]; with an empty stored style it returns 'shaded'. *)
Theorem setVisualStyle_four_state (s : SceneManager) (m : Mesh) (style : string) :
  core s = Some m ->
  let s' := setVisualStyle style s in
  (style = "wireframe" ->
     core_wireframe s' = now_all true (core_wireframe s)
     /\ overlay_visible s' = now_all false (_edgesGroup s))
  /\ (style = "shaded-edge" ->
        core_wireframe s' = now_all false (core_wireframe s)
        /\ overlay_visible s' = now_all true (_edgesGroup s)
        /\ (forall g, _edgesGroup s = Some g ->
              hiddenLines_visible s' = now_all false (_hiddenEdgeLines s)
              /\ visibleLines_visible s' = now_all true (_visibleEdgeLines s)))
  /\ (style = "shaded-hidden" ->
        core_wireframe s' = now_all false (core_wireframe s)
        /\ overlay_visible s' = now_all true (_edgesGroup s)
        /\ (forall g, _edgesGroup s = Some g ->
              hiddenLines_visible s' = now_all true (_hiddenEdgeLines s)
              /\ visibleLines_visible s' = now_all true (_visibleEdgeLines s)))
  /\ (~ edgedStyle style ->
        core_wireframe s' = now_all false (core_wireframe s)
        /\ overlay_visible s' = now_all false (_edgesGroup s))
  /\ (style <> "" -> getVisualStyle s' = style)
  /\ (forall t, _visualStyle t = "" -> getVisualStyle t = "shaded").
Proof.
  intros Hc s'. subst s'.
  split; [| split; [| split; [| split; [| split]]]].
  - intros ->. unfold setVisualStyle. scene. rewrite Hc. simpl.
    exact (hide_then_wireframe true (set_visualStyle "wireframe" s)).
  - intros ->. unfold setVisualStyle. scene. rewrite Hc. simpl.
    exact (wireframe_then_show false (set_visualStyle "shaded-edge" s)).
  - intros ->. unfold setVisualStyle. scene. rewrite Hc. simpl.
    exact (wireframe_then_show true (set_visualStyle "shaded-hidden" s)).
  - intros Hn.
    assert (E : forall k, edgedStyle k -> String.eqb (str_or style "shaded") k = false).
    { intros k Hk. apply String.eqb_neq. intros E.
      destruct (str_or_cases style "shaded") as [E1 | [_ E1]]; rewrite E1 in E.
      - subst k. exact (Hn Hk).
      - subst k. destruct Hk as [Hk | [Hk | Hk]]; discriminate. }
    unfold setVisualStyle. scene. rewrite Hc.
    rewrite (E "wireframe"), (E "shaded-edge"), (E "shaded-hidden")
      by (unfold edgedStyle; auto).
    exact (hide_then_wireframe false (set_visualStyle (str_or style "shaded") s)).
  - intros Hne. unfold getVisualStyle. rewrite visualStyle_stored.
    rewrite (str_or_nonempty style) by exact Hne.
    apply str_or_nonempty; exact Hne.
  - intros t Ht. unfold getVisualStyle. rewrite Ht. reflexivity.
Qed.

Lemma setVisualStyle_four_state_witness :
  (exists m, core loadedScene = Some m)
  /\ getVisualStyle (setVisualStyle "wireframe" loadedScene) = "wireframe"
  /\ core_wireframe (setVisualStyle "wireframe" loadedScene) = Some true
  /\ overlay_visible (setVisualStyle "wireframe" loadedScene) = Some false.
Proof.
  assert (Hc : core loadedScene
               = Some (mkMesh 0 (normalizeGeometry unitCube) (Some DefaultMat) "part"))
    by reflexivity.
  destruct (setVisualStyle_four_state loadedScene _ "wireframe" Hc)
    as [Hw [_ [_ [_ [Hg _]]]]].
  split; [eexists; exact Hc |].
  split; [apply Hg; discriminate |].
  destruct (Hw eq_refl) as [H1 H2]. split; [exact H1 | exact H2].
Defined.

(** ** The controls' update *)

Lemma sqrt_sq_pos (a : R) : 0 < a -> sqrt (a * a) = a.
Proof. intros H. apply sqrt_square. lra. Qed.

Lemma sqrt_sq_neg (a : R) : a < 0 -> sqrt (a * a) = - a.
Proof.
  intros H. replace (a * a) with (- a * - a) by ring. apply sqrt_square. lra.
Qed.

Lemma sqrt_one_plus_sq (x z : R) :
  z <> 0 -> sqrt (1 + (x / z)²) = sqrt (x * x + z * z) / sqrt (z * z).
Proof.
  intros Hz.
  assert (Hzz : 0 < z * z) by nra.
  rewrite <- sqrt_div by nra.
  f_equal. unfold Rsqr. field. exact Hz.
Qed.

Lemma sin_cos_atan2 (x z : R) :
  x <> 0 \/ z <> 0 ->
  sin (OrbitControls.atan2 x z) = x / sqrt (x * x + z * z)
  /\ cos (OrbitControls.atan2 x z) = z / sqrt (x * x + z * z).
Proof.
  intros Hxz.
  assert (Hpos : 0 < sqrt (x * x + z * z)).
  { apply sqrt_lt_R0. destruct Hxz; nra. }
  unfold OrbitControls.atan2.
  destruct (Rlt_dec 0 z) as [Hz | Hz].
  - rewrite sin_atan, cos_atan, sqrt_one_plus_sq by lra.
    rewrite sqrt_sq_pos by exact Hz. split; field; lra.
  - destruct (Rlt_dec z 0) as [Hn | Hn].
    + assert (E : sqrt (1 + (x / z)²) = sqrt (x * x + z * z) / - z).
      { rewrite sqrt_one_plus_sq by lra. rewrite sqrt_sq_neg by exact Hn.
        reflexivity. }
      destruct (Rle_dec 0 x) as [Hx | Hx].
      * rewrite neg_sin, neg_cos, sin_atan, cos_atan, E. split; field; lra.
      * rewrite sin_minus, cos_minus, sin_PI, cos_PI, sin_atan, cos_atan, E.
        split; field; lra.
    + assert (Hz0 : z = 0) by lra. subst z.
      replace (x * x + 0 * 0) with (x * x) in * by ring.
      destruct (Rlt_dec 0 x) as [Hx | Hx].
      * rewrite sin_PI2, cos_PI2, sqrt_sq_pos by exact Hx. split; field; lra.
      * destruct (Rlt_dec x 0) as [Hx' | Hx'].
        -- rewrite sin_neg, cos_neg, sin_PI2, cos_PI2, sqrt_sq_neg by exact Hx'.
           split; field; lra.
        -- destruct Hxz; lra.
Qed.

Lemma atan2_0_0 : OrbitControls.atan2 0 0 = 0.
Proof.
  unfold OrbitControls.atan2.
  destruct (Rlt_dec 0 0); [lra |]. destruct (Rlt_dec 0 0); [lra |]. reflexivity.
Qed.

Lemma clamp_inside_unit (t : R) : -1 <= t <= 1 -> OrbitControls.clamp t (-1) 1 = t.
Proof.
  intros H. unfold OrbitControls.clamp.
  rewrite Rmin_right by lra. apply Rmax_right. lra.
Qed.

(** The height of a vector over its length is a cosine. *)
Lemma height_over_length (v : Vector3) :
  length v <> 0 -> -1 <= vy v / length v <= 1.
Proof.
  intros Hr.
  assert (Hpos : 0 < length v) by (pose proof (length_nonneg v); lra).
  assert (Hsq : length v * length v = lengthSq v).
  { unfold length. apply sqrt_sqrt, lengthSq_nonneg. }
  assert (Hy : vy v * vy v <= length v * length v).
  { rewrite Hsq. unfold lengthSq. nra. }
  split.
  - apply Rmult_le_reg_r with (length v); [exact Hpos |].
    unfold Rdiv. rewrite Rmult_assoc, Rinv_l by lra. nra.
  - apply Rmult_le_reg_r with (length v); [exact Hpos |].
    unfold Rdiv. rewrite Rmult_assoc, Rinv_l by lra. nra.
Qed.

Lemma setFromVector3_radius (v : Vector3) :
  OrbitControls.radius (OrbitControls.setFromVector3 v) = length v.
Proof.
  unfold OrbitControls.setFromVector3.
  destruct (Req_dec_T _ 0); reflexivity.
Qed.

Lemma setFromVector3_phi (v : Vector3) :
  length v <> 0 ->
  OrbitControls.phi (OrbitControls.setFromVector3 v) = acos (vy v / length v).
Proof.
  intros Hr. unfold OrbitControls.setFromVector3.
  fold (lengthSq v). fold (length v).
  destruct (Req_dec_T (length v) 0) as [E | _]; [contradiction |].
  cbn [OrbitControls.phi]. rewrite clamp_inside_unit by (apply height_over_length, Hr).
  reflexivity.
Qed.

Lemma setFromVector3_theta (v : Vector3) :
  length v <> 0 ->
  OrbitControls.theta (OrbitControls.setFromVector3 v)
  = OrbitControls.atan2 (vx v) (vz v).
Proof.
  intros Hr. unfold OrbitControls.setFromVector3.
  fold (lengthSq v). fold (length v).
  destruct (Req_dec_T (length v) 0) as [E | _]; [contradiction | reflexivity].
Qed.

(** Back from spherical coordinates with another radius: the same
    direction at the new distance. *)
Lemma setFromSpherical_setFromVector3 (v : Vector3) (r : R) :
  length v <> 0 ->
  OrbitControls.setFromSpherical
    (OrbitControls.mkSpherical r
       (OrbitControls.phi (OrbitControls.setFromVector3 v))
       (OrbitControls.theta (OrbitControls.setFromVector3 v)))
  = multiplyScalar v (r / length v).
Proof.
  intros Hr.
  rewrite setFromVector3_phi, setFromVector3_theta by exact Hr.
  pose proof (height_over_length v Hr) as Ht.
  assert (Hpos : 0 < length v) by (pose proof (length_nonneg v); lra).
  assert (Hsq : length v * length v = lengthSq v).
  { unfold length. apply sqrt_sqrt, lengthSq_nonneg. }
  unfold OrbitControls.setFromSpherical.
  cbn [OrbitControls.phi OrbitControls.theta OrbitControls.radius].
  rewrite cos_acos, sin_acos by exact Ht.
  assert (Hs : sqrt (1 - (vy v / length v)²)
               = sqrt (vx v * vx v + vz v * vz v) / length v).
  { assert (Hxz : vx v * vx v + vz v * vz v = length v * length v - vy v * vy v)
      by (unfold lengthSq in Hsq; lra).
    assert (E : 1 - (vy v / length v)²
                = (vx v * vx v + vz v * vz v) / (length v * length v)).
    { rewrite Hxz. unfold Rsqr. field. lra. }
    rewrite E, sqrt_div by nra. rewrite sqrt_sq_pos by exact Hpos. reflexivity. }
  rewrite Hs.
  destruct (Req_dec_T (vx v * vx v + vz v * vz v) 0) as [E0 | N0].
  - assert (Ex : vx v = 0) by nra. assert (Ez : vz v = 0) by nra.
    rewrite E0, sqrt_0, Ex, Ez. unfold multiplyScalar.
    apply v3_eq; cbn [vx vy vz]; rewrite ?Ex, ?Ez; field; lra.
  - assert (Hxz : vx v <> 0 \/ vz v <> 0).
    { destruct (Req_dec_T (vx v) 0) as [Ex | Nx]; [| left; exact Nx].
      right. intros Ez. apply N0. rewrite Ex, Ez. ring. }
    destruct (sin_cos_atan2 (vx v) (vz v) Hxz) as [Es Ec].
    rewrite Es, Ec.
    assert (Hrho : 0 < sqrt (vx v * vx v + vz v * vz v)).
    { apply sqrt_lt_R0. nra. }
    unfold multiplyScalar. apply v3_eq; cbn [vx vy vz]; field; lra.
Qed.

Lemma cos_EPS_large : 3 / 5 < cos OrbitControls.EPS.
Proof.
  unfold OrbitControls.EPS.
  replace 0.0001 with (2 * 0.00005) by lra.
  rewrite cos_2a_sin.
  pose proof PI_RGT_0 as Hpi. pose proof PI2_1 as Hpi2.
  assert (H1 : sin 0.00005 < 0.00005) by (apply sin_lt_x; lra).
  assert (H2 : 0 < sin 0.00005) by (apply sin_gt_0; lra).
  nra.
Qed.

Lemma sin_EPS_pos : 0 < sin OrbitControls.EPS.
Proof.
  pose proof PI2_1 as Hpi2.
  apply sin_gt_0; unfold OrbitControls.EPS; lra.
Qed.

(** A polar angle away from both poles passes the two clamps of [update]
    as it is. *)
Lemma acos_between_limits (t : R) :
  Rabs t * 5 <= 3 ->
  OrbitControls.minPolarAngle <= acos t <= OrbitControls.maxPolarAngle.
Proof.
  intros Ht.
  assert (Hr : -1 <= t <= 1) by (unfold Rabs in Ht; destruct (Rcase_abs t); lra).
  assert (Ha : - (3 / 5) <= t <= 3 / 5)
    by (unfold Rabs in Ht; destruct (Rcase_abs t); lra).
  pose proof (acos_bound t) as Hb.
  pose proof cos_EPS_large as Hc.
  pose proof PI2_1 as Hpi2.
  unfold OrbitControls.minPolarAngle, OrbitControls.maxPolarAngle.
  assert (He : 0 < OrbitControls.EPS < 1) by (unfold OrbitControls.EPS; lra).
  split.
  - destruct (Rle_lt_dec (0 + OrbitControls.EPS) (acos t)) as [G | L]; [exact G |].
    exfalso.
    assert (Hd : cos OrbitControls.EPS < cos (acos t))
      by (apply cos_decreasing_1; lra).
    rewrite cos_acos in Hd by exact Hr. lra.
  - destruct (Rle_lt_dec (acos t) (PI - OrbitControls.EPS)) as [G | L]; [exact G |].
    exfalso.
    assert (Hd : cos (acos t) < cos (PI - OrbitControls.EPS))
      by (apply cos_decreasing_1; lra).
    rewrite cos_acos in Hd by exact Hr.
    replace (PI - OrbitControls.EPS) with (- OrbitControls.EPS + PI) in Hd by ring.
    rewrite neg_cos, cos_neg in Hd. lra.
Qed.

Lemma limits_are_safe (r p th : R) :
  OrbitControls.minPolarAngle <= p <= OrbitControls.maxPolarAngle ->
  OrbitControls.makeSafe
    (OrbitControls.mkSpherical r
       (Rmax OrbitControls.minPolarAngle (Rmin OrbitControls.maxPolarAngle p)) th)
  = OrbitControls.mkSpherical r p th.
Proof.
  unfold OrbitControls.minPolarAngle, OrbitControls.maxPolarAngle,
    OrbitControls.EPS, OrbitControls.makeSafe.
  intros Hp. cbn [OrbitControls.radius OrbitControls.phi OrbitControls.theta].
  rewrite (Rmin_right _ p) by lra. rewrite (Rmax_right _ p) by lra.
  rewrite (Rmin_right _ p) by lra. rewrite (Rmax_right _ p) by lra.
  reflexivity.
Qed.

Lemma add_sub_same (t p : Vector3) : add t (sub p t) = p.
Proof. apply v3_eq; cbn [add sub vx vy vz]; ring. Qed.

(** Away from the poles [update] keeps the direction from the target to the
    camera and brings the distance into its limits. *)
Lemma update_keeps_direction `{ThreeServices} (cam : Camera) (ctl : Controls) :
  let off := sub (cam_position cam) (target ctl) in
  length off <> 0 ->
  Rabs (vy off) * 5 <= 3 * length off ->
  let pos :=
    add (target ctl)
      (multiplyScalar off (Rmax 3 (Rmin 100 (length off)) / length off)) in
  OrbitControls.update cam ctl
  = (cam_set_quaternion (lookAt pos (target ctl) (cam_up cam))
       (cam_set_position pos cam), ctl).
Proof.
  intros off Hr Hy pos.
  assert (Hpos : 0 < length off) by (pose proof (length_nonneg off); lra).
  assert (Ht : Rabs (vy off / length off) * 5 <= 3).
  { unfold Rdiv. rewrite Rabs_mult, (Rabs_right (/ length off)).
    - apply Rmult_le_reg_r with (length off); [exact Hpos |].
      replace (Rabs (vy off) * / length off * 5 * length off)
        with (Rabs (vy off) * 5) by (field; lra).
      exact Hy.
    - apply Rle_ge. left. apply Rinv_0_lt_compat. exact Hpos. }
  unfold OrbitControls.update. fold off.
  rewrite setFromVector3_phi by exact Hr.
  rewrite limits_are_safe by (apply acos_between_limits, Ht).
  cbn [OrbitControls.radius OrbitControls.phi OrbitControls.theta].
  rewrite setFromVector3_radius.
  assert (Hsph : forall r,
            OrbitControls.setFromSpherical
              (OrbitControls.mkSpherical r (acos (vy off / length off))
                 (OrbitControls.theta (OrbitControls.setFromVector3 off)))
            = multiplyScalar off (r / length off)).
  { intros r. rewrite <- (setFromVector3_phi off Hr).
    apply setFromSpherical_setFromVector3, Hr. }
  rewrite !Hsph. reflexivity.
Qed.

(** Within the distance limits as well, [update] leaves the camera where it
    is and aims it at the target. *)
Lemma update_keeps_position `{ThreeServices} (cam : Camera) (ctl : Controls) :
  let off := sub (cam_position cam) (target ctl) in
  3 <= length off <= 100 ->
  Rabs (vy off) * 5 <= 3 * length off ->
  OrbitControls.update cam ctl
  = (cam_set_quaternion (lookAt (cam_position cam) (target ctl) (cam_up cam)) cam,
     ctl).
Proof.
  intros off Hr Hy.
  rewrite update_keeps_direction by (fold off; lra || exact Hy).
  fold off.
  rewrite (Rmin_right 100 (length off)) by lra.
  rewrite (Rmax_right 3 (length off)) by lra.
  replace (multiplyScalar off (length off / length off)) with off.
  - subst off. rewrite add_sub_same. destruct cam; reflexivity.
  - unfold multiplyScalar. apply v3_eq; cbn [vx vy vz]; field; lra.
Qed.

(** Straight above or below the target [update] tilts the camera by the
    smallest polar angle, towards positive z. *)
Lemma update_at_pole `{ThreeServices} (cam : Camera) (ctl : Controls) (y : R) :
  sub (cam_position cam) (target ctl) = mkV3 0 y 0 ->
  y <> 0 ->
  let r := Rmax 3 (Rmin 100 (Rabs y)) in
  let pos :=
    add (target ctl)
      (mkV3 0 ((if Rlt_dec 0 y then 1 else -1) * cos OrbitControls.EPS * r)
         (sin OrbitControls.EPS * r)) in
  OrbitControls.update cam ctl
  = (cam_set_quaternion (lookAt pos (target ctl) (cam_up cam))
       (cam_set_position pos cam), ctl).
Proof.
  intros Hoff Hy r pos.
  assert (Hlen : length (mkV3 0 y 0) = Rabs y).
  { unfold length, lengthSq. cbn [vx vy vz].
    replace (0 * 0 + y * y + 0 * 0) with (y * y) by ring.
    unfold Rabs. destruct (Rcase_abs y); [apply sqrt_sq_neg | apply sqrt_sq_pos]; lra. }
  assert (Hr : length (mkV3 0 y 0) <> 0).
  { rewrite Hlen. apply Rabs_no_R0. exact Hy. }
  pose proof PI2_1 as Hpi2.
  unfold OrbitControls.update. rewrite Hoff.
  rewrite setFromVector3_phi, setFromVector3_theta, setFromVector3_radius by exact Hr.
  rewrite Hlen. cbn [vx vy vz]. rewrite atan2_0_0.
  unfold OrbitControls.makeSafe, OrbitControls.setFromSpherical.
  cbn [OrbitControls.radius OrbitControls.phi OrbitControls.theta].
  rewrite sin_0, cos_0.
  unfold OrbitControls.minDistance, OrbitControls.maxDistance. fold r.
  assert (Hphi :
    Rmax 0.000001
      (Rmin (PI - 0.000001)
         (Rmax OrbitControls.minPolarAngle
            (Rmin OrbitControls.maxPolarAngle (acos (y / Rabs y)))))
    = if Rlt_dec 0 y then OrbitControls.EPS else PI - OrbitControls.EPS).
  { unfold OrbitControls.minPolarAngle, OrbitControls.maxPolarAngle, OrbitControls.EPS.
    destruct (Rlt_dec 0 y) as [P | N].
    - rewrite Rabs_right by lra.
      replace (y / y) with 1 by (field; lra). rewrite acos_1.
      rewrite (Rmin_right _ 0) by lra. rewrite (Rmax_left _ 0) by lra.
      rewrite (Rmin_right _ (0 + 0.0001)) by lra.
      rewrite (Rmax_right _ (0 + 0.0001)) by lra. ring.
    - rewrite Rabs_left by lra.
      replace (y / - y) with (- (1)) by (field; lra).
      rewrite acos_opp, acos_1.
      rewrite (Rmin_left _ (PI - 0)) by lra.
      rewrite (Rmax_right _ (PI - 0.0001)) by lra.
      rewrite (Rmin_right _ (PI - 0.0001)) by lra.
      rewrite (Rmax_right _ (PI - 0.0001)) by lra. reflexivity. }
  rewrite Hphi.
  assert (Hsc : sin (if Rlt_dec 0 y then OrbitControls.EPS else PI - OrbitControls.EPS)
                = sin OrbitControls.EPS
                /\ cos (if Rlt_dec 0 y then OrbitControls.EPS else PI - OrbitControls.EPS)
                   = (if Rlt_dec 0 y then 1 else -1) * cos OrbitControls.EPS).
  { destruct (Rlt_dec 0 y).
    - split; [reflexivity | ring].
    - split.
      + apply sin_PI_x.
      + replace (PI - OrbitControls.EPS) with (- OrbitControls.EPS + PI) by ring.
        rewrite neg_cos, cos_neg. ring. }
  destruct Hsc as [Es Ec]. rewrite Es, Ec.
  subst pos.
  assert (Ev : mkV3 (sin OrbitControls.EPS * r * 0)
                 ((if Rlt_dec 0 y then 1 else -1) * cos OrbitControls.EPS * r)
                 (sin OrbitControls.EPS * r * 1)
               = mkV3 0 ((if Rlt_dec 0 y then 1 else -1) * cos OrbitControls.EPS * r)
                   (sin OrbitControls.EPS * r)).
  { apply v3_eq; cbn [vx vy vz]; ring. }
  rewrite Ev. reflexivity.
Qed.

Lemma isoDir_height : Rabs (vy (normalize (mkV3 1 1 1))) * 5 <= 3.
Proof.
  assert (H1 : lengthSq (normalize (mkV3 1 1 1)) = 1).
  { apply lengthSq_normalize. intros E. inversion E. lra. }
  unfold lengthSq in H1.
  assert (Hx : vx (normalize (mkV3 1 1 1)) = vy (normalize (mkV3 1 1 1)))
    by reflexivity.
  assert (Hz : vz (normalize (mkV3 1 1 1)) = vy (normalize (mkV3 1 1 1)))
    by reflexivity.
  rewrite Hx, Hz in H1.
  unfold Rabs. destruct (Rcase_abs _); nra.
Qed.

(** A camera placed [d] away from the target along a unit direction that is
    not steep: the controls keep the direction and limit the distance. *)
Lemma update_along `{ThreeServices} (cam : Camera) (ctl : Controls)
    (u : Vector3) (d : R) :
  cam_position cam = add (target ctl) (multiplyScalar u d) ->
  length u = 1 -> 0 < d -> Rabs (vy u) * 5 <= 3 ->
  let pos := add (target ctl) (multiplyScalar u (Rmax 3 (Rmin 100 d))) in
  OrbitControls.update cam ctl
  = (cam_set_quaternion (lookAt pos (target ctl) (cam_up cam))
       (cam_set_position pos cam), ctl).
Proof.
  intros Hp Hu Hd Hy pos.
  assert (Hoff : sub (cam_position cam) (target ctl) = multiplyScalar u d)
    by (rewrite Hp; apply sub_add_cancel_l).
  assert (Hlen : length (multiplyScalar u d) = d)
    by (rewrite length_multiplyScalar by lra; rewrite Hu; ring).
  rewrite update_keeps_direction.
  - rewrite Hoff, Hlen. subst pos.
    replace (multiplyScalar (multiplyScalar u d) (Rmax 3 (Rmin 100 d) / d))
      with (multiplyScalar u (Rmax 3 (Rmin 100 d))).
    + reflexivity.
    + unfold multiplyScalar. apply v3_eq; cbn [vx vy vz]; field; lra.
  - rewrite Hoff, Hlen. lra.
  - rewrite Hoff, Hlen. unfold multiplyScalar. cbn [vy].
    rewrite Rabs_mult, (Rabs_right d) by lra. nra.
Qed.

Lemma orbitThree_inUse : @OrbitControls.inUse orbitThree.
Proof. intros cam ctl. reflexivity. Qed.

(** ** Preset views (C9) *)

Lemma length_of_sq (v : Vector3) : lengthSq v = 1 -> length v = 1.
Proof. intros H. unfold length. rewrite H. apply sqrt_1. Qed.

Lemma presetDirections_unit (id : string) (u : Vector3) :
  In (id, u) presetDirections -> length u = 1.
Proof.
  unfold presetDirections. simpl.
  intros [E | [E | [E | [E | [E | [E | [E | []]]]]]]]; inversion E; subst.
  - apply length_normalize. intros E0. inversion E0. lra.
  - apply length_of_sq; unfold lengthSq; simpl; ring.
  - apply length_of_sq; unfold lengthSq; simpl; ring.
  - apply length_of_sq; unfold lengthSq; simpl; ring.
  - apply length_of_sq; unfold lengthSq; simpl; ring.
  - apply length_of_sq; unfold lengthSq; simpl; ring.
  - apply length_of_sq; unfold lengthSq; simpl; ring.
Qed.

Lemma presetPosition_known (id : string) (u : Vector3) :
  In (id, u) presetDirections -> presetPosition id = Some (multiplyScalar u 10).
Proof.
  unfold presetDirections. simpl.
  intros [E | [E | [E | [E | [E | [E | [E | []]]]]]]]; inversion E; subst; reflexivity.
Qed.

Lemma presetPosition_unknown (id : string) :
  ~ In id (map fst presetDirections) -> presetPosition id = None.
Proof.
  unfold presetDirections. simpl. intros Hn. unfold presetPosition.
  repeat match goal with
         | |- context [String.eqb id ?k] =>
             let E := fresh "E" in
             destruct (String.eqb id k) eqn:E;
             [apply String.eqb_eq in E; exfalso; apply Hn; subst id; tauto |]
         end.
  reflexivity.
Qed.

(** The update after a preset whose direction is not vertical. *)
Lemma update_level_preset `{ThreeServices} (cam : Camera) (ctl : Controls)
    (center u : Vector3) :
  length u = 1 -> Rabs (vy u) * 5 <= 3 ->
  let cam' := cam_set_up (mkV3 0 1 0)
                (cam_set_position (add center (multiplyScalar u 10)) cam) in
  let pos := add center (multiplyScalar u 10) in
  OrbitControls.update cam' (ctl_set_target center ctl)
  = (cam_set_quaternion (lookAt pos center (mkV3 0 1 0)) cam',
     ctl_set_target center ctl).
Proof.
  intros Hu Hy cam' pos.
  rewrite (update_along cam' (ctl_set_target center ctl) u 10);
    [| reflexivity | exact Hu | lra | exact Hy].
  cbn [target ctl_set_target].
  rewrite (Rmin_right 100 10) by lra. rewrite (Rmax_right 3 10) by lra.
  reflexivity.
Qed.

(** The update after 'top' ([sgn = 1]) and 'bottom' ([sgn = -1]). *)
Lemma update_vertical_preset `{ThreeServices} (cam : Camera) (ctl : Controls)
    (center : Vector3) (sgn : R) :
  sgn = 1 \/ sgn = -1 ->
  let cam' := cam_set_up (mkV3 0 1 0)
                (cam_set_position (add center (multiplyScalar (mkV3 0 sgn 0) 10)) cam) in
  let pos :=
    add center
      (multiplyScalar
         (mkV3 0 (sgn * cos OrbitControls.EPS) (sin OrbitControls.EPS)) 10) in
  OrbitControls.update cam' (ctl_set_target center ctl)
  = (cam_set_quaternion (lookAt pos center (mkV3 0 1 0))
       (cam_set_position pos cam'),
     ctl_set_target center ctl).
Proof.
  intros Hs cam' pos.
  assert (Hoff : sub (cam_position cam') (target (ctl_set_target center ctl))
                 = mkV3 0 (sgn * 10) 0).
  { subst cam'. cbn [cam_position cam_set_up cam_set_position target ctl_set_target].
    rewrite sub_add_cancel_l. unfold multiplyScalar.
    apply v3_eq; cbn [vx vy vz]; ring. }
  rewrite (update_at_pole cam' (ctl_set_target center ctl) (sgn * 10) Hoff)
    by (destruct Hs; subst sgn; lra).
  cbn [target ctl_set_target].
  assert (Hpos : add center
                   (mkV3 0
                      ((if Rlt_dec 0 (sgn * 10) then 1 else -1)
                       * cos OrbitControls.EPS
                       * Rmax 3 (Rmin 100 (Rabs (sgn * 10))))
                      (sin OrbitControls.EPS
                       * Rmax 3 (Rmin 100 (Rabs (sgn * 10)))))
                 = pos).
  { subst pos. unfold multiplyScalar. cbn [vx vy vz].
    assert (Hr : Rmax 3 (Rmin 100 (Rabs (sgn * 10))) = 10).
    { destruct Hs; subst sgn.
      - rewrite Rabs_right by lra. rmaxmin.
      - rewrite Rabs_left by lra. rmaxmin. }
    rewrite Hr.
    destruct Hs; subst sgn; destruct (Rlt_dec 0 _); try lra;
      f_equal; apply v3_eq; cbn [vx vy vz]; ring. }
  rewrite Hpos. reflexivity.
Qed.

(** The state a preset view ends in, with the controls of three.js. *)
Lemma setPresetView_result `{ThreeServices} (w : Window) (id : string)
    (object : option Object3D) (dur : R) (s : SceneManager) (cam : Camera)
    (u : Vector3) :
  OrbitControls.inUse ->
  setPresetViewQuaternion w = None ->
  camera s = Some cam ->
  In (id, u) presetDirections ->
  let center := presetCenter object s in
  let pos := add center (multiplyScalar (presetReached id u s) 10) in
  let s' := setPresetView w id object dur s in
  camera s'
  = Some (mkCamera pos (mkV3 0 1 0)
            (match controls s with
             | Some _ => lookAt pos center (mkV3 0 1 0)
             | None => cam_quaternion cam
             end)
            (cam_left cam) (cam_right cam) (cam_top cam) (cam_bottom cam))
  /\ controls s' = option_map (ctl_set_target center) (controls s).
Proof.
  intros Hin Hw Hc Hu center pos s'.
  subst s' pos. unfold setPresetView. rewrite Hw, Hc.
  rewrite (presetPosition_known id u Hu). fold center.
  unfold setPresetView_assign, presetReached.
  destruct (controls s) as [ctl |] eqn:Hk; settle;
    [| unfold if_controls_update; settle; split; reflexivity].
  unfold if_controls_update, controls_update. settle. rewrite Hin.
  pose proof (presetDirections_unit id u Hu) as Hlen.
  unfold presetDirections in Hu. simpl in Hu.
  destruct Hu as [E | [E | [E | [E | [E | [E | [E | []]]]]]]];
    inversion E; subst id u; cbn [String.eqb Ascii.eqb Bool.eqb orb];
    try (rewrite update_level_preset;
         [ settle; split; reflexivity
         | exact Hlen
         | first [ apply isoDir_height
                 | cbn [vy]; rewrite Rabs_R0; lra ] ]).
  - rewrite (update_vertical_preset cam ctl center 1) by (left; reflexivity).
    settle. cbn [vy]. split; reflexivity.
  - rewrite (update_vertical_preset cam ctl center (-1)) by (right; reflexivity).
    settle. cbn [vy]. split; reflexivity.
Qed.

Lemma presetReached_unit (id : string) (u : Vector3) (s : SceneManager) :
  In (id, u) presetDirections -> length (presetReached id u s) = 1.
Proof.
  intros Hu. pose proof (presetDirections_unit id u Hu) as Hlen.
  unfold presetReached. destruct (controls s); [| exact Hlen].
  pose proof (sin2_cos2 OrbitControls.EPS) as Hsc. unfold Rsqr in Hsc.
  unfold presetDirections in Hu. simpl in Hu.
  destruct Hu as [E | [E | [E | [E | [E | [E | [E | []]]]]]]];
    inversion E; subst id u; cbn [String.eqb Ascii.eqb Bool.eqb orb];
    try exact Hlen;
    apply length_of_sq; unfold lengthSq; cbn [vx vy vz]; nra.
Qed.

Lemma presetReached_level (id : string) (u : Vector3) (s : SceneManager) :
  controls s = None \/ (id <> "top" /\ id <> "bottom") ->
  presetReached id u s = u.
Proof.
  intros Hk. unfold presetReached.
  destruct (controls s); [| reflexivity].
  destruct Hk as [Hk | [Ht Hb]]; [discriminate Hk |].
  destruct (String.eqb id "top") eqn:Et;
    [apply String.eqb_eq in Et; contradiction |].
  destruct (String.eqb id "bottom") eqn:Eb;
    [apply String.eqb_eq in Eb; contradiction |].
  reflexivity.
Qed.

(** C9, amended.  With the controls of three.js, when the call reaches the
    [switch] (a camera exists and no [window.setPresetViewQuaternion] took
    the call over; nothing in the viewer installs one): for an id outside
    the seven presets [setPresetView] returns from the default branch and
    leaves the whole state, camera position, camera up and controls target
    included, as it was; for a preset with direction [u], a unit vector, it
    resets the camera up vector to (0,1,0), sets the controls target to
    [center] and leaves the camera at distance 10 from [center], aimed at
    it: at [center + 10 * u] for 'isometric', 'front', 'back', 'left' and
    'right', and for every preset when the scene has no controls; for 'top'
    and 'bottom' with controls, tilted by their smallest polar angle 0.0001
    towards positive z, at [center + 10 * (0, cos 0.0001, sin 0.0001)] and
    [center + 10 * (0, -cos 0.0001, sin 0.0001)]. *)
Theorem setPresetView_presets `{ThreeServices} (w : Window) (id : string)
    (object : option Object3D) (dur : R) (s : SceneManager) (cam : Camera) :
  OrbitControls.inUse ->
  setPresetViewQuaternion w = None ->
  camera s = Some cam ->
  (~ In id (map fst presetDirections) -> setPresetView w id object dur s = s)
  /\ (forall u, In (id, u) presetDirections ->
        length u = 1
        /\ let center := presetCenter object s in
           let dir := presetReached id u s in
           let pos := add center (multiplyScalar dir 10) in
           let s' := setPresetView w id object dur s in
           option_map cam_position (camera s') = Some pos
           /\ option_map cam_up (camera s') = Some (mkV3 0 1 0)
           /\ option_map target (controls s')
              = option_map (fun _ => center) (controls s)
           /\ (controls s <> None ->
               option_map cam_quaternion (camera s')
               = Some (lookAt pos center (mkV3 0 1 0)))
           /\ option_map (fun k => length (sub (cam_position k) center)) (camera s')
              = Some 10
           /\ (controls s = None \/ (id <> "top" /\ id <> "bottom") ->
               dir = u /\ presetAsStated w id object dur s u)
           /\ (controls s <> None -> id = "top" \/ id = "bottom" ->
               dir = mkV3 0 (vy u * cos 0.0001) (sin 0.0001)
               /\ 0 < vz dir)).
Proof.
  intros Hin Hw Hc. split.
  - intros Hn. unfold setPresetView. rewrite Hw, Hc.
    rewrite (presetPosition_unknown id Hn). reflexivity.
  - intros u Hu. split; [exact (presetDirections_unit id u Hu) |].
    intros center dir pos s'.
    destruct (setPresetView_result w id object dur s cam u Hin Hw Hc Hu)
      as [Hcam Hctl].
    fold center dir pos s' in Hcam, Hctl.
    assert (Htgt : option_map target (controls s')
                   = option_map (fun _ => center) (controls s)).
    { rewrite Hctl. destruct (controls s); reflexivity. }
    rewrite Hcam. cbn [option_map cam_position cam_up cam_quaternion].
    split; [reflexivity |]. split; [reflexivity |]. split; [exact Htgt |].
    split.
    { intros Hk. destruct (controls s); [reflexivity | contradiction]. }
    split.
    { f_equal. subst pos dir.
      apply length_unit_step; [apply presetReached_unit, Hu | lra]. }
    split.
    + intros Hk.
      assert (Hd : dir = u) by (subst dir; apply presetReached_level, Hk).
      split; [exact Hd |].
      unfold presetAsStated. fold center s'. rewrite Hcam.
      cbn [option_map cam_position cam_up].
      subst pos. rewrite Hd. repeat split; try reflexivity. exact Htgt.
    + intros Hk Hid. subst dir. unfold presetReached.
      destruct (controls s); [| contradiction].
      assert (E : String.eqb id "top" || String.eqb id "bottom" = true).
      { destruct Hid as [-> | ->]; reflexivity. }
      rewrite E. split; [reflexivity |].
      cbn [vz]. exact sin_EPS_pos.
Qed.

Lemma setPresetView_presets_witness :
  @presetAsStated orbitThree orbitWindow "front" None 600 sampleScene (mkV3 0 0 1)
  /\ @setPresetView orbitThree orbitWindow "sideways" None 600 sampleScene
     = sampleScene.
Proof.
  destruct (@setPresetView_presets orbitThree orbitWindow "front" None 600
              sampleScene frontCamera orbitThree_inUse eq_refl eq_refl) as [_ Hk].
  destruct (@setPresetView_presets orbitThree orbitWindow "sideways" None 600
              sampleScene frontCamera orbitThree_inUse eq_refl eq_refl) as [Hu _].
  split.
  - destruct (Hk (mkV3 0 0 1)) as [_ [_ [_ [_ [_ [_ [Hs _]]]]]]]; [simpl; tauto |].
    apply Hs. right. split; discriminate.
  - apply Hu. simpl.
    intros [E | [E | [E | [E | [E | [E | [E | []]]]]]]]; discriminate.
Defined.

(** C9 as stated fails: after 'top' the controls, whose smallest polar
    angle is 0.0001, leave the camera off the vertical through the
    centre. *)
Lemma top_view_is_tilted :
  ~ @presetAsStated orbitThree orbitWindow "top" None 600 sampleScene (mkV3 0 1 0).
Proof.
  unfold presetAsStated. intros [Hpos _].
  destruct (@setPresetView_result orbitThree orbitWindow "top" None 600
              sampleScene frontCamera (mkV3 0 1 0) orbitThree_inUse eq_refl eq_refl)
    as [Hcam _]; [simpl; tauto |].
  cbv zeta in Hcam. rewrite Hcam in Hpos.
  cbn [option_map cam_position] in Hpos. apply some_eq in Hpos.
  apply (f_equal vz) in Hpos.
  unfold presetReached in Hpos.
  cbn [controls sampleScene String.eqb Ascii.eqb Bool.eqb orb
       add multiplyScalar vx vy vz] in Hpos.
  pose proof sin_EPS_pos. lra.
Qed.

(** ** Fitting the model to the view (C5) *)

(** The state a fit ends in, with the controls of three.js. *)
Lemma fitModelToView_result `{ThreeServices} (w : Window) (obj : Object3D)
    (padding : R) (s : SceneManager) (cam : Camera) :
  OrbitControls.inUse ->
  camera s = Some cam ->
  let c := getCenter (Box3_setFromObject obj) in
  let size := getSize (Box3_setFromObject obj) in
  let maxDim := Math_max3 (vx size) (vy size) (vz size) in
  let fs := Rmax 1e-6 (maxDim * padding) in
  let aspect := innerWidth w / innerHeight w in
  let pos := add c (multiplyScalar (normalize (mkV3 1 1 1)) (fitDistance maxDim s)) in
  let s' := fitModelToView w (Some obj) padding s in
  frustumSize s' = fs
  /\ camera s'
     = Some (mkCamera pos (mkV3 0 1 0)
               (match controls s with
                | Some _ => lookAt pos c (mkV3 0 1 0)
                | None => cam_quaternion cam
                end)
               (- fs * aspect / 2) (fs * aspect / 2) (fs / 2) (- fs / 2))
  /\ controls s' = option_map (ctl_set_target c) (controls s).
Proof.
  intros Hin Hc c size maxDim fs aspect pos s'.
  assert (Hdist : 1 <= maxDim * 2.5 + 1.0).
  { pose proof (getSize_nonneg (Box3_setFromObject obj)) as [Hx _].
    pose proof (Math_max3_nonneg _ (vy size) (vz size) Hx). fold size maxDim in H0.
    lra. }
  subst s' pos. unfold fitModelToView, fitDistance. rewrite Hc.
  unfold fitModelToView_assign. fold c size maxDim fs aspect.
  destruct (controls s) as [ctl |] eqn:Hk; settle.
  - unfold if_controls_update, controls_update. settle.
    rewrite Hin.
    rewrite (update_along _ _ (normalize (mkV3 1 1 1)) (maxDim * 2.5 + 1.0));
      [| reflexivity | apply isoDir_unit | lra | apply isoDir_height].
    settle. repeat split.
  - unfold if_controls_update. settle. repeat split.
Qed.

(** C5, amended.  With the controls of three.js, for an object whose world
    box has centre [c] and largest dimension [maxDim],
    [fitModelToView(object, padding)] on a scene with a camera sets
    [frustumSize] to [max(1e-6, maxDim * padding)], makes the frustum
    symmetric ([left = -frustumSize * aspect / 2], [right = frustumSize *
    aspect / 2], [top = frustumSize / 2], [bottom = -frustumSize / 2], with
    [aspect = innerWidth / innerHeight]), resets the camera up vector to
    (0,1,0), sets the controls target to [c] and leaves the camera at
    [c + normalize(1,1,1) * d], aimed at [c], where [d] is
    [maxDim * 2.5 + 1.0] brought into the distance limits 3 and 100 of the
    controls when the scene has controls, and [maxDim * 2.5 + 1.0] itself
    when it has none.  So the camera is where C5 puts it exactly when
    [maxDim] lies between 0.8 and 39.6 or there are no controls.  Without
    an object or without a camera the state is returned as it was. *)
Theorem fitModelToView_frames `{ThreeServices} (w : Window) (padding : R)
    (s : SceneManager) :
  OrbitControls.inUse ->
  (forall (obj : Object3D) (cam : Camera), camera s = Some cam ->
     let c := getCenter (Box3_setFromObject obj) in
     let size := getSize (Box3_setFromObject obj) in
     let maxDim := Math_max3 (vx size) (vy size) (vz size) in
     let aspect := innerWidth w / innerHeight w in
     let d := fitDistance maxDim s in
     let pos := add c (multiplyScalar (normalize (mkV3 1 1 1)) d) in
     let s' := fitModelToView w (Some obj) padding s in
     frustumSize s' = Rmax 1e-6 (maxDim * padding)
     /\ option_map cam_left (camera s') = Some (- frustumSize s' * aspect / 2)
     /\ option_map cam_right (camera s') = Some (frustumSize s' * aspect / 2)
     /\ option_map cam_top (camera s') = Some (frustumSize s' / 2)
     /\ option_map cam_bottom (camera s') = Some (- frustumSize s' / 2)
     /\ option_map cam_position (camera s') = Some pos
     /\ option_map cam_up (camera s') = Some (mkV3 0 1 0)
     /\ option_map target (controls s') = option_map (fun _ => c) (controls s)
     /\ (controls s <> None ->
         option_map cam_quaternion (camera s') = Some (lookAt pos c (mkV3 0 1 0)))
     /\ 1e-6 <= frustumSize s'
     /\ option_map (fun k => length (sub (cam_position k) c)) (camera s') = Some d
     /\ (controls s <> None -> 3 <= d <= 100)
     /\ (0.8 <= maxDim <= 39.6 \/ controls s = None -> d = maxDim * 2.5 + 1.0)
     /\ (0.8 <= maxDim <= 39.6 \/ controls s = None -> fitsAsStated w obj padding s))
  /\ fitModelToView w None padding s = s
  /\ (forall object, camera s = None -> fitModelToView w object padding s = s).
Proof.
  intros Hin. split; [| split].
  - intros obj cam Hc c size maxDim aspect d pos s'.
    destruct (fitModelToView_result w obj padding s cam Hin Hc) as [Hfs [Hcam Hctl]].
    fold c size maxDim aspect d pos s' in Hfs, Hcam, Hctl.
    assert (Hdist : 1 <= maxDim * 2.5 + 1.0).
    { pose proof (getSize_nonneg (Box3_setFromObject obj)) as [Hx _].
      pose proof (Math_max3_nonneg _ (vy size) (vz size) Hx) as Hm.
      fold size maxDim in Hm. lra. }
    assert (Hd0 : 0 <= d).
    { subst d. unfold fitDistance. destruct (controls s); [| lra].
      eapply Rle_trans; [| apply Rmax_l]. lra. }
    assert (Hsame : 0.8 <= maxDim <= 39.6 \/ controls s = None ->
                    d = maxDim * 2.5 + 1.0).
    { intros [Hr | Hn]; subst d; unfold fitDistance.
      - destruct (controls s); [| reflexivity].
        rewrite Rmin_right by lra. apply Rmax_right. lra.
      - rewrite Hn. reflexivity. }
    assert (Htgt : option_map target (controls s')
                   = option_map (fun _ => c) (controls s)).
    { rewrite Hctl. destruct (controls s); reflexivity. }
    rewrite Hfs, Hcam. cbn [option_map cam_left cam_right cam_top cam_bottom
                            cam_position cam_up cam_quaternion].
    split; [reflexivity |]. split; [reflexivity |]. split; [reflexivity |].
    split; [reflexivity |]. split; [reflexivity |]. split; [reflexivity |].
    split; [reflexivity |]. split; [exact Htgt |].
    split.
    { intros Hk. destruct (controls s); [reflexivity | contradiction]. }
    split; [apply Rmax_l |].
    split.
    { f_equal. subst pos. apply length_unit_step; [apply isoDir_unit | exact Hd0]. }
    split.
    { intros Hk. subst d. unfold fitDistance.
      destruct (controls s); [| contradiction].
      split; [apply Rmax_l |].
      apply Rmax_lub; [lra | apply Rmin_l]. }
    split; [exact Hsame |].
    intros Hr. specialize (Hsame Hr).
    unfold fitsAsStated. fold c size maxDim aspect s'.
    rewrite Hfs, Hcam. cbn [option_map cam_left cam_right cam_top cam_bottom
                            cam_position cam_up].
    subst pos. rewrite Hsame.
    repeat split; try reflexivity. exact Htgt.
  - reflexivity.
  - intros object Hc. unfold fitModelToView. rewrite Hc.
    destruct object; reflexivity.
Qed.

Lemma fitModelToView_frames_witness :
  let box := Box3_make (mkV3 (-1) (-2) (-3)) (mkV3 1 2 3) in
  @fitsAsStated orbitThree orbitWindow (box, identityQ) 1.2 sampleScene
  /\ @fitModelToView orbitThree orbitWindow None 1.2 sampleScene = sampleScene.
Proof.
  intros box.
  destruct (@fitModelToView_frames orbitThree orbitWindow 1.2 sampleScene
              orbitThree_inUse) as [Hfit [Hnone _]].
  split; [| exact Hnone].
  destruct (Hfit (box, identityQ) frontCamera eq_refl)
    as [_ [_ [_ [_ [_ [_ [_ [_ [_ [_ [_ [_ [_ Hs]]]]]]]]]]]]].
  apply Hs. left.
  subst box. unfold orbitThree, Box3_setFromObject, fst.
  rewrite getSize_make by (simpl; lra).
  unfold sub; cbn [vx vy vz].
  assert (E : Math_max3 (1 - -1) (2 - -2) (3 - -3) = 6) by rmaxmin.
  rewrite E. lra.
Defined.

(** C5 as stated fails: fitted to an object that is a single point the
    camera is asked to sit 1 away from it, and the controls, whose smallest
    distance is 3, move it out. *)
Lemma fit_of_a_point_is_pushed_out :
  ~ @fitsAsStated orbitThree orbitWindow pointObject 1.2 sampleScene.
Proof.
  unfold fitsAsStated. intros [_ [_ [_ [_ [_ [Hpos _]]]]]].
  destruct (@fitModelToView_result orbitThree orbitWindow pointObject 1.2
              sampleScene frontCamera orbitThree_inUse eq_refl)
    as [_ [Hcam _]].
  cbv zeta in Hcam. rewrite Hcam in Hpos.
  cbn [option_map cam_position] in Hpos. apply some_eq in Hpos.
  apply (f_equal (fun p => length (sub p (getCenter (@Box3_setFromObject orbitThree pointObject)))))
    in Hpos.
  assert (Hmax : Math_max3
                   (vx (getSize (@Box3_setFromObject orbitThree pointObject)))
                   (vy (getSize (@Box3_setFromObject orbitThree pointObject)))
                   (vz (getSize (@Box3_setFromObject orbitThree pointObject))) = 0).
  { unfold orbitThree, Box3_setFromObject, pointObject, fst.
    rewrite getSize_make by (simpl; lra).
    unfold sub; cbn [vx vy vz]. rmaxmin. }
  rewrite Hmax in Hpos.
  assert (Hd : fitDistance 0 sampleScene = 3).
  { unfold fitDistance. cbn [controls sampleScene]. rmaxmin. }
  rewrite Hd in Hpos.
  rewrite !length_unit_step in Hpos by (try apply isoDir_unit; lra).
  lra.
Qed.

(** ** Panning (C3) *)

Lemma if_controls_update_artifactGroup `{ThreeServices} (s : SceneManager) :
  artifactGroup (if_controls_update s) = artifactGroup s.
Proof.
  unfold if_controls_update, controls_update.
  destruct (controls s); [| reflexivity].
  destruct (camera s); [| reflexivity].
  destruct (OrbitControls_update _ _). reflexivity.
Qed.

Lemma addScaledVector_add (v w : Vector3) (k : R) :
  addScaledVector v w k = add v (multiplyScalar w k).
Proof. reflexivity. Qed.

Lemma sub_add_same (p t off : Vector3) : sub (add p off) (add t off) = sub p t.
Proof. apply v3_eq; simpl; ring. Qed.

(** C3.  A pointer move of the Shift+middle pan (the handler is active in
    pan mode, the event is the active pointer's, a camera exists) adds the
    one vector [panOffset = right * moveX + up * moveY] to the camera
    position and, when there are controls, to the controls target, so that
    [camera.position - controls.target] is what it was; the controls then
    update.  The artifact group, and with it the model's quaternion, is the
    same after the whole step. *)
Theorem pan_moves_camera_and_target `{ThreeServices} (w : Window)
    (ev : PointerEvent) (h : QuaternionRotation) (s : SceneManager) (cam : Camera) :
  qr_rotating h = true ->
  otherPointer (qr_activePointerId h) ev = false ->
  mode h = ModePan ->
  camera s = Some cam ->
  let dx := clientX ev - qr_lastX h in
  let dy := clientY ev - qr_lastY h in
  let dt := elapsedSince (qr_lastPointerTime h) (eventTime w ev) in
  let off := panOffset w s cam dx dy dt in
  let s1 := pan_assign off cam s in
  off = add (multiplyScalar (getCameraRight cam) (moveX w s dx dy dt))
            (multiplyScalar (normalize (cam_up cam)) (moveY w s dx dy dt))
  /\ snd (qr_onPointerMove w ev h s) = if_controls_update s1
  /\ option_map cam_position (camera s1) = Some (add (cam_position cam) off)
  /\ (forall ctl, controls s = Some ctl ->
        option_map target (controls s1) = Some (add (target ctl) off)
        /\ sub (add (cam_position cam) off) (add (target ctl) off)
           = sub (cam_position cam) (target ctl))
  /\ artifactGroup s1 = artifactGroup s
  /\ artifactGroup (snd (qr_onPointerMove w ev h s)) = artifactGroup s.
Proof.
  intros Hr Hp Hm Hc dx dy dt off s1.
  assert (Hstep : snd (qr_onPointerMove w ev h s) = if_controls_update s1).
  { unfold qr_onPointerMove. rewrite Hr, Hp, Hc, Hm. reflexivity. }
  assert (Hg : artifactGroup s1 = artifactGroup s).
  { subst s1. unfold pan_assign. destruct (controls s); reflexivity. }
  split; [reflexivity |].
  split; [exact Hstep |].
  split; [subst s1; unfold pan_assign; destruct (controls s); reflexivity |].
  split.
  - intros ctl Hk. split.
    + subst s1. unfold pan_assign. rewrite Hk. reflexivity.
    + apply sub_add_same.
  - split; [exact Hg |].
    rewrite Hstep, if_controls_update_artifactGroup. exact Hg.
Qed.

Lemma pan_moves_camera_and_target_witness :
  artifactGroup
    (snd (@qr_onPointerMove plainThree plainWindow pointerMoved panHandler sampleScene))
  = artifactGroup sampleScene
  /\ (forall ctl, controls sampleScene = Some ctl ->
        let off :=
          @panOffset plainThree plainWindow sampleScene frontCamera (110 - 100)
            (120 - 100) (elapsedSince (Some 1000) 1016) in
        sub (add (cam_position frontCamera) off) (add (target ctl) off)
        = sub (cam_position frontCamera) (target ctl)).
Proof.
  assert (Ht : @eventTime plainThree plainWindow pointerMoved = 1016).
  { unfold eventTime, num_or. simpl.
    destruct (Req_dec_T 1016 0) as [E | _]; [exfalso; lra | reflexivity]. }
  assert (Ht0 : qr_lastPointerTime panHandler = Some 1000).
  { unfold panHandler, qr_onPointerDown, eventTime, num_or. simpl.
    destruct (Req_dec_T 1000 0) as [E | _]; [exfalso; lra | reflexivity]. }
  pose proof (@pan_moves_camera_and_target plainThree plainWindow pointerMoved
                panHandler sampleScene frontCamera
                eq_refl eq_refl eq_refl eq_refl) as H.
  cbv zeta in H. rewrite Ht, Ht0 in H.
  destruct H as [_ [_ [_ [Hk [_ Hg]]]]].
  split; [exact Hg |].
  intros ctl Hc. exact (proj2 (Hk ctl Hc)).
Defined.

(** ** Rotating the model (C2) *)

Lemma clamp_bounds (lo hi x : R) :
  lo <= hi -> lo <= Rmin hi (Rmax lo x) <= hi.
Proof.
  intros H. unfold Rmin, Rmax.
  destruct (Rle_dec lo x); destruct (Rle_dec hi _); lra.
Qed.

Lemma elapsedSince_ge_1 (last : option R) (now : R) : 1 <= elapsedSince last now.
Proof.
  unfold elapsedSince.
  eapply Rle_trans; [| apply Rmax_l]. lra.
Qed.

Lemma rotate_step `{ThreeServices} (w : Window) (ev : PointerEvent)
    (h : QuaternionRotation) (s : SceneManager) (cam : Camera) (g : Group) :
  qr_rotating h = true ->
  otherPointer (qr_activePointerId h) ev = false ->
  mode h = ModeRotate ->
  camera s = Some cam ->
  artifactGroup s = Some g ->
  snd (qr_onPointerMove w ev h s)
  = set_artifactGroup
      (Some (grp_set_quaternion
               (premultiply (grp_quaternion g)
                  (rotateQuaternion (rotSpeed h) s cam
                     (clientX ev - qr_lastX h) (clientY ev - qr_lastY h)
                     (elapsedSince (qr_lastPointerTime h) (eventTime w ev)))) g)) s.
Proof.
  intros Hr Hp Hm Hc Hg.
  unfold qr_onPointerMove. rewrite Hr, Hp, Hc, Hm, Hg. reflexivity.
Qed.


(** The handlers keep the speed captured at installation, and none of them
    enters rotate mode: a press enters pan mode or changes nothing. *)
Lemma handlers_keep_rotSpeed `{ThreeServices} (w : Window) (ev : PointerEvent)
    (h : QuaternionRotation) (s : SceneManager) :
  rotSpeed (qr_onPointerDown w ev h s) = rotSpeed h
  /\ rotSpeed (fst (qr_onPointerMove w ev h s)) = rotSpeed h
  /\ rotSpeed (qr_onPointerUp ev h) = rotSpeed h
  /\ rotSpeed (_setupQuaternionRotation s) = rotationBaseSpeed (sens s).
Proof.
  unfold qr_onPointerDown, qr_onPointerMove, qr_onPointerUp.
  repeat split;
    repeat match goal with
           | |- context [if ?b then _ else _] => destruct b
           | |- context [match ?o with Some _ => _ | None => _ end] => destruct o
           | |- context [match mode ?x with _ => _ end] => destruct (mode x)
           end; reflexivity.
Qed.

Lemma handlers_never_rotate `{ThreeServices} (w : Window) (ev : PointerEvent)
    (h : QuaternionRotation) (s : SceneManager) :
  mode h <> ModeRotate ->
  mode (qr_onPointerDown w ev h s) <> ModeRotate
  /\ mode (fst (qr_onPointerMove w ev h s)) <> ModeRotate
  /\ mode (qr_onPointerUp ev h) <> ModeRotate.
Proof.
  intros Hm. unfold qr_onPointerDown, qr_onPointerMove, qr_onPointerUp.
  repeat split;
    repeat match goal with
           | |- context [if ?b then _ else _] => destruct b
           | |- context [match ?o with Some _ => _ | None => _ end] => destruct o
           | |- context [match mode ?x with _ => _ end] => destruct (mode x) eqn:?
           end; cbn [mode fst]; congruence.
Qed.

(** What the rotate branch does as C2 says it.  In rotate mode, for a
    handler whose captured [rotSpeed] is still the manager's
    [rotationBaseSpeed], a move of the active pointer with pixel deltas
    [dx], [dy] has [dt >= 1] and premultiplies the model group's quaternion
    by [pitchQ * yawQ]: [yawQ] turns about the normalized camera up by
    [dx * rotationBaseSpeed * m], [pitchQ] about the normalized
    [up x forward] by [dy * rotationBaseSpeed * m], with
    [m = min(rotationMaxMult, max(rotationMinMult, 1 + sqrt(dx^2 + dy^2) / dt
    * rotationGain))], which lies between the two bounds when they are
    ordered.  Camera and controls are left as they were. *)
Theorem rotate_premultiplies_model `{ThreeServices} (w : Window)
    (ev : PointerEvent) (h : QuaternionRotation) (s : SceneManager)
    (cam : Camera) (g : Group) :
  qr_rotating h = true ->
  otherPointer (qr_activePointerId h) ev = false ->
  mode h = ModeRotate ->
  camera s = Some cam ->
  artifactGroup s = Some g ->
  rotSpeed h = rotationBaseSpeed (sens s) ->
  let dx := clientX ev - qr_lastX h in
  let dy := clientY ev - qr_lastY h in
  let dt := elapsedSince (qr_lastPointerTime h) (eventTime w ev) in
  let m := rotateSpeedMult s dx dy dt in
  let s' := snd (qr_onPointerMove w ev h s) in
  1 <= dt
  /\ rotatesByBaseSpeed w ev h s cam g
  /\ m = Rmin (rotationMaxMult (sens s))
           (Rmax (rotationMinMult (sens s))
              (1 + sqrt (dx * dx + dy * dy) / dt * rotationGain (sens s)))
  /\ (rotationMinMult (sens s) <= rotationMaxMult (sens s) ->
      rotationMinMult (sens s) <= m <= rotationMaxMult (sens s))
  /\ camera s' = camera s
  /\ controls s' = controls s.
Proof.
  intros Hr Hp Hm Hc Hg Hs dx dy dt m s'.
  assert (Hstep : s' = set_artifactGroup
                         (Some (grp_set_quaternion
                                  (premultiply (grp_quaternion g)
                                     (rotateQuaternion (rotSpeed h) s cam dx dy dt)) g)) s)
    by exact (rotate_step w ev h s cam g Hr Hp Hm Hc Hg).
  split; [apply elapsedSince_ge_1 |].
  split.
  { unfold rotatesByBaseSpeed. fold dx dy dt s'. rewrite Hstep. scene.
    unfold rotateQuaternion, getCameraRight. rewrite Hs. reflexivity. }
  split.
  { subst m. unfold rotateSpeedMult. f_equal. f_equal. lra. }
  split; [intros Hb; apply clamp_bounds; exact Hb |].
  rewrite Hstep. split; reflexivity.
Qed.

Lemma rotate_premultiplies_model_witness :
  rotatesByBaseSpeed plainWindow pointerMovedX rotateHandler sampleScene
    frontCamera (mkGroup identityQ [])
  /\ camera (snd (@qr_onPointerMove plainThree plainWindow pointerMovedX
                    rotateHandler sampleScene)) = camera sampleScene.
Proof.
  pose proof (@rotate_premultiplies_model plainThree plainWindow pointerMovedX
                rotateHandler sampleScene frontCamera (mkGroup identityQ [])
                eq_refl eq_refl eq_refl eq_refl eq_refl eq_refl) as H.
  cbv zeta in H.
  destruct H as [_ [Hq [_ [_ [Hcam _]]]]].
  split; [exact Hq | exact Hcam].
Defined.


(** ** Orbiting the camera (C1) *)

Lemma applyQuaternion_zero (q : Quaternion) : applyQuaternion zero3 q = zero3.
Proof. unfold applyQuaternion, zero3. apply v3_eq; simpl; ring. Qed.

Lemma applyQuaternion_nonzero (v : Vector3) (q : Quaternion) :
  v <> zero3 -> q <> mkQ 0 0 0 0 -> applyQuaternion v q <> zero3.
Proof.
  intros Hv Hq E.
  apply lengthSq_zero_iff in E. rewrite lengthSq_applyQuaternion in E.
  assert (Hv' : lengthSq v <> 0) by (rewrite lengthSq_zero_iff; exact Hv).
  assert (Hq' : qLengthSq q <> 0) by (rewrite qLengthSq_zero_iff; exact Hq).
  apply Rmult_integral in E. destruct E as [E | E]; [| contradiction].
  apply Rmult_integral in E. destruct E; contradiction.
Qed.

(** [setLength] reaches the requested length on every vector when that
    length is 0, and on every non-zero vector otherwise. *)
Lemma length_setLength_or (v : Vector3) (l : R) :
  v <> zero3 \/ l = 0 -> 0 <= l -> length (setLength v l) = l.
Proof.
  intros [Hv | ->] Hl.
  - apply length_setLength; assumption.
  - unfold setLength. rewrite length_multiplyScalar by lra. ring.
Qed.

Lemma num_or_one_pos (v : Vector3) : 0 < num_or (length v) 1.
Proof.
  unfold num_or. destruct (Req_dec_T (length v) 0) as [E | E]; [lra |].
  pose proof (length_nonneg v). lra.
Qed.

(** Normalizing two vectors does not make their cross product vanish. *)
Lemma cross_normalize_nonzero (a b : Vector3) :
  crossVectors a b <> zero3 -> crossVectors (normalize a) (normalize b) <> zero3.
Proof.
  intros Hab E. apply Hab.
  pose proof (num_or_one_pos a) as Ha. pose proof (num_or_one_pos b) as Hb.
  set (ka := num_or (length a) 1) in *. set (kb := num_or (length b) 1) in *.
  assert (Hk : 1 / ka * (1 / kb) <> 0).
  { apply Rmult_integral_contrapositive_currified;
      apply Rgt_not_eq, Rdiv_lt_0_compat; lra. }
  assert (Ex : vx (crossVectors a b) * (1 / ka * (1 / kb)) = 0).
  { apply (f_equal vx) in E. unfold normalize, divideScalar, multiplyScalar,
      crossVectors in *. fold ka kb in E. cbn [vx vy vz zero3] in *. lra. }
  assert (Ey : vy (crossVectors a b) * (1 / ka * (1 / kb)) = 0).
  { apply (f_equal vy) in E. unfold normalize, divideScalar, multiplyScalar,
      crossVectors in *. fold ka kb in E. cbn [vx vy vz zero3] in *. lra. }
  assert (Ez : vz (crossVectors a b) * (1 / ka * (1 / kb)) = 0).
  { apply (f_equal vz) in E. unfold normalize, divideScalar, multiplyScalar,
      crossVectors in *. fold ka kb in E. cbn [vx vy vz zero3] in *. lra. }
  apply Rmult_integral in Ex, Ey, Ez.
  apply v3_eq; cbn [zero3 vx vy vz]; tauto.
Qed.

Lemma cross_zero_l (b : Vector3) : crossVectors zero3 b = zero3.
Proof. unfold crossVectors, zero3. apply v3_eq; simpl; ring. Qed.

(** With a camera whose up vector is not parallel to the offset (so neither
    is zero), both rotations of an orbit step are unit quaternions. *)
Lemma combinedQuat_unit `{ThreeServices} (w : Window) (s : SceneManager)
    (cam : Camera) (dx dy dt : R) :
  crossVectors (cam_up cam) (sub (cam_position cam) (orbitTarget s)) <> zero3 ->
  qLengthSq (combinedQuat w s cam dx dy dt) = 1.
Proof.
  intros Hcross.
  assert (Hup : cam_up cam <> zero3).
  { intros E. apply Hcross. rewrite E. apply cross_zero_l. }
  unfold combinedQuat.
  rewrite qLengthSq_multiply.
  unfold elevationQuat, azimuthQuat.
  rewrite !qLengthSq_axis_unit; [ring | |]; apply lengthSq_normalize.
  - exact Hup.
  - apply cross_normalize_nonzero. exact Hcross.
Qed.

Lemma combinedQuat_nonzero `{ThreeServices} (w : Window) (s : SceneManager)
    (cam : Camera) (dx dy dt : R) :
  crossVectors (cam_up cam) (sub (cam_position cam) (orbitTarget s)) <> zero3 ->
  combinedQuat w s cam dx dy dt <> mkQ 0 0 0 0.
Proof.
  intros Hcross E. pose proof (combinedQuat_unit w s cam dx dy dt Hcross) as U.
  rewrite E in U. unfold qLengthSq in U. cbn [qx qy qz qw] in U. lra.
Qed.

(** The orbit starts only on a middle-button press on the canvas with
    none of Shift, Ctrl and Alt held. *)
Lemma onPointerDown_starts `{ThreeServices} (w : Window) (ev : PointerEvent)
    (h : CameraOrbit) :
  rotating h = false ->
  rotating (onPointerDown w ev h) = true ->
  button ev = 1%Z /\ shiftKey ev = false /\ ctrlKey ev = false
  /\ altKey ev = false /\ targetInCanvas ev = true.
Proof.
  intros Hr. unfold onPointerDown.
  destruct (Z.eqb (button ev) 1) eqn:Hb; cbn [negb]; [| congruence].
  destruct (shiftKey ev); [congruence |].
  destruct (targetInCanvas ev); cbn [negb]; [| congruence].
  destruct (ctrlKey ev), (altKey ev); cbn [orb]; try congruence.
  intros _. apply Z.eqb_eq in Hb. repeat split; assumption.
Qed.

(** C1.  One pointer move of the middle-button orbit (the handler is
    rotating, the event is the active pointer's, a camera exists) keeps the
    distance from the camera to the orbit target: with [d] the length of
    [camera.position - target] before the step, the rotated offset is set
    back to length [d], the new position is [target + offset], and the
    camera is turned to look at the target; the controls then update.  The
    rotation applied is taken to be a quaternion other than 0 unless the
    camera sits on the target: in exact arithmetic it is 0 only if the up
    vector is zero or parallel to the offset and a half-angle has cosine 0. *)
Theorem orbit_keeps_distance `{ThreeServices} (w : Window) (ev : PointerEvent)
    (h : CameraOrbit) (s : SceneManager) (cam : Camera) :
  rotating h = true ->
  otherPointer (activePointerId h) ev = false ->
  camera s = Some cam ->
  let dx := clientX ev - lastX h in
  let dy := clientY ev - lastY h in
  let dt := elapsedSince (lastPointerTime h) (eventTime w ev) in
  let tgt := orbitTarget s in
  let offset := sub (cam_position cam) tgt in
  offset = zero3 \/ combinedQuat w s cam dx dy dt <> mkQ 0 0 0 0 ->
  let cam1 := orbit_assign w s cam dx dy dt in
  snd (onPointerMove w ev h s) = if_controls_update (set_camera (Some cam1) s)
  /\ length (sub (cam_position cam1) tgt) = length offset
  /\ cam_quaternion cam1 = lookAt (cam_position cam1) tgt (cam_up cam1).
Proof.
  intros Hr Hp Hc dx dy dt tgt offset Hq cam1.
  split; [| split].
  - unfold onPointerMove. rewrite Hr, Hp, Hc. reflexivity.
  - subst cam1. unfold orbit_assign, camera_lookAt.
    cbn [cam_position cam_set_quaternion cam_set_position].
    fold tgt. fold offset. rewrite sub_add_cancel_l.
    apply length_setLength_or; [| apply length_nonneg].
    destruct Hq as [E | Hq].
    + right. rewrite E. apply length_zero_iff. reflexivity.
    + destruct (Req_dec_T (length offset) 0) as [E | E]; [right; exact E |].
      left. apply applyQuaternion_nonzero; [| exact Hq].
      intros E0. apply E. apply length_zero_iff. exact E0.
  - reflexivity.
Qed.

Lemma orbit_keeps_distance_witness :
  let cam1 :=
    @orbit_assign plainThree plainWindow sampleScene frontCamera
      (clientX pointerMoved - lastX orbitHandler)
      (clientY pointerMoved - lastY orbitHandler)
      (elapsedSince (lastPointerTime orbitHandler)
         (@eventTime plainThree plainWindow pointerMoved)) in
  length (sub (cam_position cam1) (orbitTarget sampleScene))
  = length (sub (cam_position frontCamera) (orbitTarget sampleScene)).
Proof.
  intros cam1.
  refine (proj1 (proj2 (@orbit_keeps_distance plainThree plainWindow pointerMoved
                          orbitHandler sampleScene frontCamera
                          eq_refl eq_refl eq_refl _))).
  right. apply combinedQuat_nonzero.
  intros E. apply (f_equal vx) in E.
  unfold crossVectors, sub, orbitTarget, sampleScene, frontCamera, zero3 in E.
  cbn [vx vy vz cam_up cam_position controls target] in E. lra.
Defined.

(** ** The axes widget follows the camera (C4) *)

Lemma multiply_invert_unit (q m : Quaternion) :
  qLengthSq q = 1 ->
  multiplyQuaternions q (multiply (invert q) m) = m.
Proof.
  unfold qLengthSq, multiply, invert, conjugate, multiplyQuaternions.
  cbn [qx qy qz qw]. intros U.
  apply q_eq; cbn [qx qy qz qw].
  - transitivity ((qx q * qx q + qy q * qy q + qz q * qz q + qw q * qw q) * qx m);
      [ring | rewrite U; ring].
  - transitivity ((qx q * qx q + qy q * qy q + qz q * qz q + qw q * qw q) * qy m);
      [ring | rewrite U; ring].
  - transitivity ((qx q * qx q + qy q * qy q + qz q * qz q + qw q * qw q) * qz m);
      [ring | rewrite U; ring].
  - transitivity ((qx q * qx q + qy q * qy q + qz q * qz q + qw q * qw q) * qw m);
      [ring | rewrite U; ring].
Qed.

(** C4.  Each run of [animate] synchronizes the axes widget with the main
    camera through [syncWithCamera(camera, controls.target)] (the origin
    when there are no controls), after the controls' own update.  For a
    plain vector target the widget camera is put at
    [3 * normalize(camera.position - target)] (at distance 3 from the origin
    unless the main camera sits on the target) with the main camera's up
    vector, looking at the origin, and the axes group's quaternion is reset
    to the identity.  For
    an Object3D target the axes group's quaternion is
    [invert(qCamera) * qModel], which is the inverse of the camera's world
    quaternion times the model's: [qCamera * (invert(qCamera) * qModel) =
    qModel] for a unit [qCamera]. *)
Theorem axes_follow_camera `{ThreeServices} (s : SceneManager) :
  (forall a cam,
     axesActor (if_controls_update s) = Some a ->
     camera (if_controls_update s) = Some cam ->
     animate s
     = set_axesActor
         (Some (syncWithCamera a (Some cam)
                  (TargetVector (orbitTarget (if_controls_update s)))))
         (if_controls_update s))
  /\ (forall a cam v,
        let a' := syncWithCamera a (Some cam) (TargetVector v) in
        cam_position (axes_camera a')
        = multiplyScalar (normalize (sub (cam_position cam) v)) 3
        /\ cam_up (axes_camera a') = cam_up cam
        /\ axesGroup_quaternion a' = identityQ
        /\ cam_quaternion (axes_camera a')
           = lookAt (cam_position (axes_camera a')) (mkV3 0 0 0) (cam_up cam)
        /\ (cam_position cam <> v -> length (cam_position (axes_camera a')) = 3))
  /\ (forall a cam o,
        let a' := syncWithCamera a (Some cam) (TargetObject o) in
        let qCamera := cameraWorldQuaternion cam in
        let qModel := getWorldQuaternion o in
        axesGroup_quaternion a' = multiply (invert qCamera) qModel
        /\ (qLengthSq qCamera = 1 ->
            multiplyQuaternions qCamera (axesGroup_quaternion a') = qModel)).
Proof.
  split; [| split].
  - intros a cam Ha Hc. unfold animate. rewrite Ha, Hc.
    unfold orbitTarget. reflexivity.
  - intros a cam v a'. subst a'. cbn. repeat split; try reflexivity.
    intros Hne. rewrite length_multiplyScalar by lra.
    rewrite length_normalize; [ring |].
    intros E. apply Hne. apply v3_eq.
    + apply (f_equal vx) in E. cbn in E. lra.
    + apply (f_equal vy) in E. cbn in E. lra.
    + apply (f_equal vz) in E. cbn in E. lra.
  - intros a cam o a' qCamera qModel. subst a'. cbn. split; [reflexivity |].
    intros U. apply multiply_invert_unit. exact U.
Qed.

Lemma axes_follow_camera_witness :
  axesActor (@animate plainThree sampleScene)
  = Some (@syncWithCamera plainThree sampleAxes (Some frontCamera)
            (@TargetVector plainThree (mkV3 0 0 0)))
  /\ multiplyQuaternions identityQ
       (axesGroup_quaternion
          (@syncWithCamera plainThree sampleAxes (Some frontCamera)
             (@TargetObject plainThree (Box3_makeEmpty, mkQ 0 1 0 0))))
     = mkQ 0 1 0 0.
Proof.
  destruct (@axes_follow_camera plainThree sampleScene) as [Hanim [_ Hobj]].
  split.
  - rewrite (Hanim sampleAxes frontCamera eq_refl eq_refl). reflexivity.
  - destruct (Hobj sampleAxes frontCamera (Box3_makeEmpty, mkQ 0 1 0 0)) as [_ Hu].
    apply Hu. unfold qLengthSq, plainThree, cameraWorldQuaternion, frontCamera,
      identityQ. cbn [cam_quaternion qx qy qz qw]. ring.
Defined.

(** ** Animated and immediate rotation (C7) *)

Lemma if_controls_update_frame `{ThreeServices} (s : SceneManager) :
  frameCallbacks (if_controls_update s) = frameCallbacks s
  /\ _rotationCancelToken (if_controls_update s) = _rotationCancelToken s
  /\ _rotationAnimating (if_controls_update s) = _rotationAnimating s.
Proof.
  unfold if_controls_update, controls_update.
  destruct (controls s); [| repeat split].
  destruct (camera s); [| repeat split].
  destruct (OrbitControls_update _ _). repeat split.
Qed.

(** The render loop touches neither the model nor the rotation callbacks. *)
Lemma animate_frame `{ThreeServices} (s : SceneManager) :
  artifactGroup (animate s) = artifactGroup s
  /\ frameCallbacks (animate s) = frameCallbacks s
  /\ _rotationCancelToken (animate s) = _rotationCancelToken s.
Proof.
  pose proof (if_controls_update_artifactGroup s) as Hg.
  destruct (if_controls_update_frame s) as [Hf [Ht _]].
  unfold animate.
  destruct (axesActor (if_controls_update s)); [| auto].
  destruct (camera (if_controls_update s)); auto.
Qed.

(** A frame before the end of the animation leaves the callback waiting. *)
Lemma frame_early `{ThreeServices} (k : RotationStep) (now : R) (s : SceneManager) :
  pendingRotation k s -> now - startTime k < duration k ->
  pendingRotation k (animationFrame now s).
Proof.
  intros [Hf [[g Hg] Ht]] Hlt.
  destruct (animate_frame s) as [Ag [Af At]].
  unfold animationFrame. rewrite Af, Hf. cbn [runCallbacks].
  unfold step. scene. rewrite At, Ht, Ag, Hg.
  destruct (Rlt_dec (now - startTime k) (duration k)) as [_ | N]; [| contradiction].
  unfold pendingRotation. scene. repeat split.
  - eexists; reflexivity.
  - rewrite At. exact Ht.
Qed.

(** The first frame at or after the end snaps the model to [endQ]. *)
Lemma frame_final `{ThreeServices} (k : RotationStep) (now : R) (s : SceneManager) :
  pendingRotation k s -> duration k <= now - startTime k ->
  modelQuaternion (animationFrame now s) = Some (endQ k)
  /\ frameCallbacks (animationFrame now s) = []
  /\ _rotationAnimating (animationFrame now s) = false.
Proof.
  intros [Hf [[g Hg] Ht]] Hge.
  destruct (animate_frame s) as [Ag [Af At]].
  unfold animationFrame, modelQuaternion. rewrite Af, Hf. cbn [runCallbacks].
  unfold step. scene. rewrite At, Ht, Ag, Hg.
  destruct (Rlt_dec (now - startTime k) (duration k)) as [L | _]; [lra |].
  scene. repeat split.
Qed.

Lemma frames_early `{ThreeServices} (k : RotationStep) (early : list R) :
  forall s, pendingRotation k s ->
  (forall t, In t early -> t - startTime k < duration k) ->
  pendingRotation k (animationFrames early s).
Proof.
  induction early as [| t rest IH]; intros s Hp Hall; [exact Hp |].
  unfold animationFrames. cbn [fold_left].
  apply IH.
  - apply frame_early; [exact Hp | apply Hall; left; reflexivity].
  - intros t' Ht'. apply Hall. right. exact Ht'.
Qed.

Lemma animationFrames_app `{ThreeServices} (a b : list R) (s : SceneManager) :
  animationFrames (a ++ b) s = animationFrames b (animationFrames a s).
Proof. unfold animationFrames. apply fold_left_app. Qed.

(** C7.  In world or local space, with no other rotation pending, an
    animated [rotateModelByDegrees] (positive duration) whose frames run
    until the first one at or after the end of the duration leaves the model
    group with the quaternion the immediate call (duration at most 0) gives
    from the same state: [rotQ * q0] in world space and [q0 * rotQ] in local
    space, where [q0] is the starting quaternion and [rotQ] turns by
    [degrees * pi / 180] about the resolved axis (the normalized axis in
    world space, the axis carried by [q0] in local space).  The last frame
    copies the precomputed end quaternion, whatever the interpolation gave. *)
Theorem animated_rotation_ends_as_immediate `{ThreeServices} (w : Window)
    (degrees : R) (axis : AxisArg) (dur dur0 : R) (space : string)
    (s : SceneManager) (g : Group) (early : list R) (final : R) :
  artifactGroup s = Some g ->
  frameCallbacks s = [] ->
  space = "world" \/ space = "local" ->
  0 < dur ->
  dur0 <= 0 ->
  (forall t, In t early -> t - performance_now w < dur) ->
  dur <= final - performance_now w ->
  let q0 := grp_quaternion g in
  let rotQ := setFromAxisAngle (axisWorldOf axis space g s) (degrees * PI / 180) in
  let animated :=
    animationFrames (early ++ [final])
      (rotateModelByDegrees w degrees axis dur space s) in
  let immediate := rotateModelByDegrees w degrees axis dur0 space s in
  modelQuaternion animated = modelQuaternion immediate
  /\ (space = "world" ->
      modelQuaternion immediate = Some (multiplyQuaternions rotQ q0)
      /\ axisWorldOf axis space g s = normalize (axisLocalOf axis))
  /\ (space = "local" ->
      modelQuaternion immediate = Some (multiplyQuaternions q0 rotQ)
      /\ axisWorldOf axis space g s
         = normalize (applyQuaternion (axisLocalOf axis) q0))
  /\ frameCallbacks animated = []
  /\ _rotationAnimating animated = false.
Proof.
  intros Hg Hf Hsp Hdur Hdur0 Hearly Hfinal q0 rotQ animated immediate.
  set (endq := if String.eqb space "local" then multiply q0 rotQ
               else multiply rotQ q0).
  set (k := mkRotationStep q0 endq (performance_now w) dur).
  assert (Hstart : pendingRotation k (rotateModelByDegrees w degrees axis dur space s)).
  { unfold rotateModelByDegrees. rewrite Hg.
    destruct (Rle_dec dur 0) as [L | _]; [lra |].
    unfold pendingRotation. scene.
    assert (E : frameCallbacks (if _rotationAnimating s
                                then set_rotationCancelToken true s else s) = [])
      by (destruct (_rotationAnimating s); scene; exact Hf).
    rewrite E. cbn [app]. repeat split.
    exists g. destruct (_rotationAnimating s); scene; exact Hg. }
  assert (Hend : modelQuaternion animated = Some endq
                 /\ frameCallbacks animated = []
                 /\ _rotationAnimating animated = false).
  { subst animated. rewrite animationFrames_app.
    unfold animationFrames at 1. cbn [fold_left].
    apply (frame_final k); [| exact Hfinal].
    apply frames_early; [exact Hstart | exact Hearly]. }
  assert (Himm : modelQuaternion immediate = Some (rotatedNow space q0 rotQ)).
  { subst immediate. unfold rotateModelByDegrees, modelQuaternion. rewrite Hg.
    destruct (Rle_dec dur0 0) as [_ | N]; [| contradiction].
    scene. reflexivity. }
  assert (Hsame : endq = rotatedNow space q0 rotQ).
  { subst endq. unfold rotatedNow, premultiply, multiply.
    destruct (String.eqb space "local"); reflexivity. }
  destruct Hend as [Hq [Hcb Han]].
  split; [rewrite Hq, Himm, Hsame; reflexivity |].
  split; [| split; [| split; [exact Hcb | exact Han]]].
  - intros ->. split; [rewrite Himm; reflexivity |].
    unfold axisWorldOf. cbn [String.eqb Ascii.eqb Bool.eqb]. reflexivity.
  - intros ->. split; [rewrite Himm; reflexivity |].
    unfold axisWorldOf. cbn [String.eqb Ascii.eqb Bool.eqb]. reflexivity.
Qed.

Lemma animated_rotation_ends_as_immediate_witness :
  modelQuaternion
    (@animationFrames plainThree ([1100; 1300] ++ [1700])
       (@rotateModelByDegrees plainThree plainWindow 180 (AxisName "y") 600
          "world" sampleScene))
  = modelQuaternion
      (@rotateModelByDegrees plainThree plainWindow 180 (AxisName "y") 0
         "world" sampleScene).
Proof.
  refine (proj1 (@animated_rotation_ends_as_immediate plainThree plainWindow 180
                   (AxisName "y") 600 0 "world" sampleScene (mkGroup identityQ [])
                   [1100; 1300] 1700 eq_refl eq_refl (or_introl eq_refl)
                   _ _ _ _)).
  - lra.
  - lra.
  - intros t [E | [E | []]]; subst t; cbn [performance_now plainWindow]; lra.
  - cbn [performance_now plainWindow]; lra.
Defined.

(** ** Float32 rounding *)















(** ** Loading a model (C8) *)














Lemma setVisualStyle_sameModel (style : string) (s : SceneManager) :
  sameModel (setVisualStyle style s) s.
Proof.
  unfold sameModel, setVisualStyle, set_core_wireframe, show_edgesGroup,
    hide_edgesGroup.
  split_scene s; settle;
    repeat match goal with
           | |- context [if ?b then _ else _] => destruct b
           end; settle; repeat split.
Qed.


Lemma filter_isMesh_remove_edges (i : nat) (cs : list Child) :
  filter isMesh (removeChild (ChildEdges i) cs) = filter isMesh cs.
Proof.
  induction cs as [| x r IH]; [reflexivity |].
  cbn [removeChild]. destruct x as [j | j]; cbn [child_eqb].
  - cbn [filter isMesh]. rewrite IH. reflexivity.
  - destruct (Nat.eqb j i); cbn [filter isMesh]; [reflexivity | exact IH].
Qed.


Lemma filter_isMesh_app (cs : list Child) (c : Child) :
  filter isMesh (cs ++ [c])
  = (filter isMesh cs ++ (if isMesh c then [c] else []))%list.
Proof. rewrite filter_app. cbn [filter]. destruct (isMesh c); reflexivity. Qed.

(** Rebuilding the edges overlay leaves the core and the meshes of the
    group alone. *)
Lemma rebuildEdges_model (s : SceneManager) :
  core (_rebuildEdges s) = core s
  /\ groupMeshes (_rebuildEdges s) = groupMeshes s
  /\ disposed (_rebuildEdges s) = disposed s
  /\ (nextId s <= nextId (_rebuildEdges s))%nat
  /\ (artifactGroup s = None <-> artifactGroup (_rebuildEdges s) = None).
Proof.
  unfold _rebuildEdges, groupMeshes, removeFromGroup, addToGroup.
  destruct (_edgesGroup s) as [eg |] eqn:He;
    destruct (artifactGroup s) as [g |] eqn:Hg;
    destruct (core s) as [c |] eqn:Hc; settle;
    rewrite ?filter_isMesh_app, ?filter_isMesh_remove_edges, ?app_nil_r;
    cbn [isMesh]; rewrite ?app_nil_r;
    repeat split; auto; try lia; discriminate.
Qed.


Lemma sameModel_groupMeshes (a b : SceneManager) :
  sameModel a b -> groupMeshes a = groupMeshes b.
Proof. intros [_ [E _]]. unfold groupMeshes. rewrite E. reflexivity. Qed.













(** The invariant holds when the manager is built, and changing the
    feature angle, the other operation that edits the artifact group,
    keeps it. *)
Lemma constructor_coreIsOnlyMesh : coreIsOnlyMesh constructor.
Proof. split; [reflexivity | intros m E; discriminate E]. Qed.

Lemma setFeatureAngle_coreIsOnlyMesh (deg : R) (s : SceneManager) :
  coreIsOnlyMesh s -> coreIsOnlyMesh (setFeatureAngle deg s).
Proof.
  intros Hinv.
  set (s1 := set_featureAngle (num_or deg 0) s).
  assert (H1 : coreIsOnlyMesh s1) by exact Hinv.
  unfold setFeatureAngle. fold s1.
  destruct (core s1) as [c |] eqn:Hc; [| exact H1].
  destruct (rebuildEdges_model s1) as [Hc2 [Hm2 [_ [Hn2 _]]]].
  pose proof (setVisualStyle_sameModel (_visualStyle (_rebuildEdges s1))
                (_rebuildEdges s1)) as Hs.
  pose proof (sameModel_groupMeshes _ _ Hs) as Hg.
  destruct Hs as [Hc3 [_ [_ Hn3]]].
  destruct H1 as [Hm Hid]. rewrite Hc in Hm.
  split.
  - rewrite Hg, Hm2, Hc3, Hc2, Hc. exact Hm.
  - intros m E. rewrite Hc3, Hc2 in E. rewrite Hn3.
    specialize (Hid m E). lia.
Qed.


(** ** Settings round trip (C10) *)

Import Settings.

Lemma saved_after_apply `{JsNumber} (p : Page) (shown : Form) :
  writable (localStorage p) = true ->
  getSaved "viewer.settings"
    (localStorage (with_form shown (applySettings p)))
  = JSON_stringify
      (mkCfg (setting_bgcolor (form p)) (setting_font (form p))
         (setting_fontsize (form p)) (setting_mousemode (form p))
         (option_map featureNumber (setting_featureangle (form p)))).
Proof.
  intros Hw. unfold with_form, applySettings, getSaved, setItem.
  cbn [localStorage]. rewrite Hw. cbn [items]. reflexivity.
Qed.

(** What each input holds after the round trip. *)
Lemma load_after_apply_fields `{JsNumber} (p : Page) (shown : Form) :
  writable (localStorage p) = true ->
  let loaded := form (loadSettings (with_form shown (applySettings p))) in
  (forall v u, setting_bgcolor (form p) = Some v ->
     setting_bgcolor shown = Some u -> setting_bgcolor loaded = restored v u)
  /\ (forall v u, setting_font (form p) = Some v ->
        setting_font shown = Some u -> setting_font loaded = restored v u)
  /\ (forall v u, setting_fontsize (form p) = Some v ->
        setting_fontsize shown = Some u -> setting_fontsize loaded = restored v u)
  /\ (forall v u, setting_mousemode (form p) = Some v ->
        setting_mousemode shown = Some u -> setting_mousemode loaded = restored v u)
  /\ (forall v u, setting_featureangle (form p) = Some v ->
        setting_featureangle shown = Some u ->
        setting_featureangle loaded
        = Some (if isFinite (featureNumber v) then toString (featureNumber v)
                else "")).
Proof.
  intros Hw loaded. subst loaded.
  unfold loadSettings. rewrite (saved_after_apply p shown Hw).
  unfold with_form. cbn [form].
  destruct p as [[b f s m a] st ef]. cbn [form setting_bgcolor setting_font
    setting_fontsize setting_mousemode setting_featureangle].
  unfold JSON_stringify, restored. cbn [bgcolor font fontsize mousemode featureAngle].
  destruct b as [b |], f as [f |], s as [s |], m as [m |], a as [a |];
    (repeat split; intros v u Ev Eu; try discriminate Ev;
     injection Ev as ->; cbn;
     repeat match goal with
            | |- context [String.eqb ?x ""] => destruct (String.eqb x "")
            | |- context [isFinite ?n] => destruct (isFinite n)
            end; cbn; rewrite ?Eu; reflexivity).
Qed.

Lemma restored_nonempty (v u : string) : v <> "" -> restored v u = Some v.
Proof.
  intros Hv. unfold restored.
  destruct (String.eqb v "") eqn:E; [apply String.eqb_eq in E; contradiction |].
  reflexivity.
Qed.

(** One input through the round trip: present in both states of the form
    or in neither, written back as [f] says when present. *)
Lemma field_round_trip (a b l : option string) (f : string -> option string)
    (g : string -> string -> option string) :
  (a = None <-> b = None) ->
  (forall v u, a = Some v -> b = Some u -> l = g v u) ->
  (b = None -> l = None) ->
  (forall v u, a = Some v -> g v u = f v) ->
  l = match a with Some v => f v | None => None end.
Proof.
  intros [Hab Hba] Hl Hn Hg.
  destruct a as [v |].
  - destruct b as [u |].
    + rewrite (Hl v u eq_refl eq_refl). apply Hg. reflexivity.
    + discriminate (Hba eq_refl).
  - apply Hn, Hab. reflexivity.
Qed.

(** An input missing from the page stays missing. *)
Lemma load_after_apply_missing `{JsNumber} (p : Page) (shown : Form) :
  writable (localStorage p) = true ->
  let loaded := form (loadSettings (with_form shown (applySettings p))) in
  (setting_bgcolor shown = None -> setting_bgcolor loaded = None)
  /\ (setting_font shown = None -> setting_font loaded = None)
  /\ (setting_fontsize shown = None -> setting_fontsize loaded = None)
  /\ (setting_mousemode shown = None -> setting_mousemode loaded = None)
  /\ (setting_featureangle shown = None -> setting_featureangle loaded = None).
Proof.
  intros Hw loaded. subst loaded.
  unfold loadSettings. cbn [form with_form].
  destruct shown as [b f s m a].
  cbn [setting_bgcolor setting_font setting_fontsize setting_mousemode
       setting_featureangle].
  repeat split; intros ->; unfold assign;
    repeat match goal with
           | |- context [if ?b then _ else _] => destruct b
           | |- context [match ?o with Some _ => _ | None => _ end] => destruct o
           end; reflexivity.
Qed.

(** C10, amended.  With a writable [localStorage], [applySettings] followed
    by [loadSettings] on the same inputs, whatever they show by then, leaves
    in each of the bgcolor, font, fontsize and mousemode inputs the applied
    value when that value is not empty and what the input showed when it is
    empty, and in the feature-angle input the text of the applied number
    [Number(value || 0)], or the empty string when that number is not
    finite.  So when no applied text is empty and the applied feature angle
    is finite, the five applied values are restored. *)
Theorem load_after_apply `{JsNumber} (p : Page) (shown : Form) :
  writable (localStorage p) = true ->
  sameInputs (form p) shown ->
  let loaded := form (loadSettings (with_form shown (applySettings p))) in
  (forall v u, setting_bgcolor (form p) = Some v ->
     setting_bgcolor shown = Some u -> setting_bgcolor loaded = restored v u)
  /\ (forall v u, setting_font (form p) = Some v ->
        setting_font shown = Some u -> setting_font loaded = restored v u)
  /\ (forall v u, setting_fontsize (form p) = Some v ->
        setting_fontsize shown = Some u -> setting_fontsize loaded = restored v u)
  /\ (forall v u, setting_mousemode (form p) = Some v ->
        setting_mousemode shown = Some u -> setting_mousemode loaded = restored v u)
  /\ (forall v u, setting_featureangle (form p) = Some v ->
        setting_featureangle shown = Some u ->
        setting_featureangle loaded
        = Some (if isFinite (featureNumber v) then toString (featureNumber v)
                else ""))
  /\ (writtenBack (form p) -> restoresApplied p shown).
Proof.
  intros Hw Hsame loaded.
  destruct (load_after_apply_fields p shown Hw) as [Hb [Hf [Hs [Hm Ha]]]].
  destruct (load_after_apply_missing p shown Hw) as [Nb [Nf [Ns [Nm Na]]]].
  split; [exact Hb |]. split; [exact Hf |]. split; [exact Hs |].
  split; [exact Hm |]. split; [exact Ha |].
  intros [Wb [Wf [Ws [Wm Wa]]]].
  destruct Hsame as [Sb [Sf [Ss [Sm Sa]]]].
  unfold restoresApplied. cbv zeta.
  split; [| split; [| split; [| split]]].
  - rewrite (field_round_trip _ _ _ Some restored Sb Hb Nb).
    + destruct (setting_bgcolor (form p)); reflexivity.
    + intros v u E. apply restored_nonempty, Wb, E.
  - rewrite (field_round_trip _ _ _ Some restored Sf Hf Nf).
    + destruct (setting_font (form p)); reflexivity.
    + intros v u E. apply restored_nonempty, Wf, E.
  - rewrite (field_round_trip _ _ _ Some restored Ss Hs Ns).
    + destruct (setting_fontsize (form p)); reflexivity.
    + intros v u E. apply restored_nonempty, Ws, E.
  - rewrite (field_round_trip _ _ _ Some restored Sm Hm Nm).
    + destruct (setting_mousemode (form p)); reflexivity.
    + intros v u E. apply restored_nonempty, Wm, E.
  - rewrite (field_round_trip _ _ _
               (fun v => Some (toString (featureNumber v)))
               (fun v _ => Some (if isFinite (featureNumber v)
                                 then toString (featureNumber v) else ""))
               Sa Ha Na).
    + destruct (setting_featureangle (form p)); reflexivity.
    + intros v u E. rewrite (Wa v E). reflexivity.
Qed.

Lemma load_after_apply_witness :
  @restoresApplied wholeNumbers (mkPage filledForm emptyStorage []) defaultForm.
Proof.
  refine (proj2 (proj2 (proj2 (proj2 (proj2
            (@load_after_apply wholeNumbers (mkPage filledForm emptyStorage [])
               defaultForm eq_refl _))))) _).
  - unfold sameInputs. cbn. repeat split; intros E; discriminate E.
  - unfold writtenBack. cbn.
    repeat split; intros v E; injection E as <-; try discriminate; reflexivity.
Defined.

(** C10 as stated fails: a font size applied as the empty string is not
    written back, so the input keeps the value it showed. *)
Lemma cleared_fontsize_is_not_restored :
  ~ @restoresApplied wholeNumbers (mkPage clearedForm emptyStorage []) defaultForm.
Proof.
  unfold restoresApplied. intros [_ [_ [H _]]].
  vm_compute in H. discriminate H.
Qed.

(** ** Further properties of the scene manager *)

Lemma length_multiplyScalar_abs (v : Vector3) (k : R) :
  length (multiplyScalar v k) = length v * Rabs k.
Proof.
  unfold length.
  replace (lengthSq (multiplyScalar v k)) with (lengthSq v * Rsqr k)
    by (unfold lengthSq, multiplyScalar, Rsqr; simpl; ring).
  rewrite sqrt_mult; [| apply lengthSq_nonneg | apply Rle_0_sqr].
  rewrite sqrt_Rsqr_abs. reflexivity.
Qed.

(** X1.  [setIsometricView(distance)] puts the camera on the diagonal
    x = y = z at [|distance|] from the origin, which is where the
    'isometric' preset puts it around the origin when [distance] is 10,
    resets the up vector to (0,1,0) and aims the camera at the origin
    before the controls update; without a camera it does nothing. *)
Theorem setIsometricView_on_diagonal `{ThreeServices} (distance : R)
    (s : SceneManager) :
  (camera s = None -> setIsometricView distance s = s)
  /\ (forall cam, camera s = Some cam ->
      exists cam1,
        setIsometricView distance s = if_controls_update (set_camera (Some cam1) s)
        /\ vx (cam_position cam1) = vy (cam_position cam1)
        /\ vy (cam_position cam1) = vz (cam_position cam1)
        /\ length (cam_position cam1) = Rabs distance
        /\ cam_up cam1 = mkV3 0 1 0
        /\ cam_quaternion cam1 = lookAt (cam_position cam1) (mkV3 0 0 0) (mkV3 0 1 0)
        /\ (distance = 10 -> presetPosition "isometric" = Some (cam_position cam1))).
Proof.
  split.
  - intros Hc. unfold setIsometricView. rewrite Hc. reflexivity.
  - intros cam Hc. unfold setIsometricView. rewrite Hc.
    eexists. split; [reflexivity |].
    unfold camera_lookAt. scene.
    split; [reflexivity |]. split; [reflexivity |].
    split.
    + rewrite length_multiplyScalar_abs, isoDir_unit. ring.
    + split; [reflexivity |]. split; [reflexivity |].
      intros ->. reflexivity.
Qed.

(** X2.  [handleResize()], with a camera and a renderer, rebuilds the frustum
    around the view axis from the stored [frustumSize] and the size of the
    main view (the window's where the view's is 0): it is symmetric, as
    high as [frustumSize] and [frustumSize * width / height] wide;
    [frustumSize], the camera position, up vector and orientation are as
    before when the controls update.  Without a camera or a renderer
    nothing changes.  Right after [fitModelToView]'s assignments, in a view
    as large as the window, the frustum it computes is the one already
    there. *)
Theorem handleResize_frustum `{ThreeServices} (w : Window) (mainView : MainView)
    (s : SceneManager) :
  (camera s = None -> forall r, handleResize w mainView r s = s)
  /\ handleResize w mainView false s = s
  /\ (forall cam, camera s = Some cam ->
      let wd := num_or (clientWidth mainView) (innerWidth w) in
      let ht := num_or (clientHeight mainView) (innerHeight w) in
      exists cam1,
        handleResize w mainView true s = if_controls_update (set_camera (Some cam1) s)
        /\ cam_left cam1 = - cam_right cam1
        /\ cam_bottom cam1 = - cam_top cam1
        /\ cam_top cam1 - cam_bottom cam1 = frustumSize s
        /\ cam_right cam1 - cam_left cam1 = frustumSize s * (wd / ht)
        /\ cam_position cam1 = cam_position cam
        /\ cam_up cam1 = cam_up cam
        /\ cam_quaternion cam1 = cam_quaternion cam)
  /\ (forall object padding cam,
      clientWidth mainView = innerWidth w ->
      clientHeight mainView = innerHeight w ->
      let fitted := fitModelToView_assign w object padding cam s in
      handleResize w mainView true fitted = if_controls_update fitted).
Proof.
  split; [| split; [| split]].
  - intros Hc r. unfold handleResize. rewrite Hc. reflexivity.
  - unfold handleResize. destruct (camera s); reflexivity.
  - intros cam Hc wd ht. unfold handleResize. rewrite Hc. cbn [negb].
    eexists. split; [reflexivity |]. scene. fold wd ht.
    repeat split; lra.
  - intros object padding cam Hw Hh fitted.
    assert (Hcam : exists cam2,
               camera fitted = Some cam2
               /\ cam_left cam2 = frustumSize fitted * (innerWidth w / innerHeight w) / -2
               /\ cam_right cam2 = frustumSize fitted * (innerWidth w / innerHeight w) / 2
               /\ cam_top cam2 = frustumSize fitted / 2
               /\ cam_bottom cam2 = frustumSize fitted / -2).
    { subst fitted. unfold fitModelToView_assign. scene.
      destruct (controls s); scene; eexists; (split; [reflexivity |]);
        scene; repeat split; lra. }
    destruct Hcam as [cam2 [Hc2 [Hl [Hr [Ht Hb]]]]].
    unfold handleResize. rewrite Hc2. cbn [negb].
    rewrite Hw, Hh.
    assert (Hn : forall x, num_or x x = x)
      by (intros x; unfold num_or; destruct (Req_dec_T x 0); reflexivity).
    rewrite !Hn.
    replace (cam_set_frustum _ _ _ _ cam2) with cam2.
    + f_equal. rewrite <- Hc2. destruct fitted; reflexivity.
    + destruct cam2 as [p u q l r t b]. cbn in Hl, Hr, Ht, Hb.
      unfold cam_set_frustum. cbn [cam_position cam_up cam_quaternion].
      rewrite <- Hl, <- Hr, <- Ht, <- Hb. reflexivity.
Qed.

Lemma set_sens_same (s : SceneManager) : set_sens (sens s) s = s.
Proof. destruct s; reflexivity. Qed.

Lemma set_sens_twice (a b : Sensitivities) (s : SceneManager) :
  set_sens a (set_sens b s) = set_sens a s.
Proof. reflexivity. Qed.

Lemma sens_eta (k : Sensitivities) :
  mkSensitivities (rotationBaseSpeed k) (rotationGain k) (rotationMinMult k)
    (rotationMaxMult k) (panBase k) (panGain k) (panMinMult k) (panMaxMult k)
    (orbitGain k) (orbitMinMult k) (orbitMaxMult k) = k.
Proof. destruct k; reflexivity. Qed.

Ltac sens_fields :=
  cbn [rotationBaseSpeed rotationGain rotationMinMult rotationMaxMult
       panBase panGain panMinMult panMaxMult orbitGain orbitMinMult orbitMaxMult
       rotation pan orbit baseSpeed gain minMult maxMult
       PanCfg.panBase PanCfg.panGain PanCfg.panMinMult PanCfg.panMaxMult
       OrbitCfg.gain OrbitCfg.minMult OrbitCfg.maxMult opt_or cfgNumber].

Lemma setSensitivities_merged (cfg : SensitivityCfg) (s : SceneManager) :
  setSensitivities cfg s = set_sens (mergedSensitivities cfg (sens s)) s.
Proof.
  unfold setSensitivities, mergedSensitivities, setRotationSensitivity,
    setPanSensitivity, setOrbitSensitivity.
  destruct cfg as [[r |] [p |] [o |]]; sens_fields; scene; sens_fields;
    rewrite ?sens_eta, ?set_sens_same; reflexivity.
Qed.

Lemma opt_or_twice {A : Type} (o : option A) (d : A) :
  opt_or o (opt_or o d) = opt_or o d.
Proof. destruct o; reflexivity. Qed.

(** X3.  [setSensitivities] replaces exactly the numbers its argument gives and
    touches no other field; applying a configuration twice is applying it
    once.  The object [getSensitivities] returns is a complete snapshot:
    handed back on any later state it restores the eleven numbers, and on
    the same state it changes nothing. *)
Theorem sensitivities_snapshot_restores (s t : SceneManager) (cfg : SensitivityCfg) :
  setSensitivities cfg s = set_sens (mergedSensitivities cfg (sens s)) s
  /\ setSensitivities cfg (setSensitivities cfg s) = setSensitivities cfg s
  /\ setSensitivities (getSensitivities s) t = set_sens (sens s) t
  /\ getSensitivities (setSensitivities (getSensitivities s) t) = getSensitivities s
  /\ setSensitivities (getSensitivities s) s = s.
Proof.
  assert (E : forall u, setSensitivities (getSensitivities s) u = set_sens (sens s) u).
  { intros u. rewrite setSensitivities_merged.
    unfold mergedSensitivities, getSensitivities. sens_fields.
    rewrite sens_eta. reflexivity. }
  split; [apply setSensitivities_merged |].
  split; [| split; [apply E | split]].
  - rewrite !setSensitivities_merged. scene. rewrite set_sens_twice.
    f_equal. unfold mergedSensitivities. sens_fields.
    rewrite !opt_or_twice. reflexivity.
  - rewrite E. unfold getSensitivities. scene. reflexivity.
  - rewrite E. apply set_sens_same.
Qed.

(** ** The edges overlay and the display style *)

Lemma num_or_zero_twice (x : R) : num_or (num_or x 0) 0 = x.
Proof.
  unfold num_or. destruct (Req_dec_T x 0) as [E | N].
  - destruct (Req_dec_T 0 0); symmetry; exact E.
  - destruct (Req_dec_T x 0); [contradiction | reflexivity].
Qed.

(** The overlay [_rebuildEdges] makes for a core mesh: a new, hidden
    group whose two kinds of lines are visible, whatever overlay there was
    before. *)
Lemma rebuildEdges_overlay (s : SceneManager) (c : Mesh) :
  core s = Some c ->
  let s' := _rebuildEdges s in
  core s' = Some c
  /\ _edgesGroup s' = Some (mkEdgesGroup (nextId s) false)
  /\ _hiddenEdgeLines s' = Some (mkLineSegments true 1)
  /\ _visibleEdgeLines s' = Some (mkLineSegments true 2)
  /\ defaultMaterial s' = defaultMaterial s
  /\ selectedMaterial s' = selectedMaterial s
  /\ _visualStyle s' = _visualStyle s
  /\ _featureAngle s' = _featureAngle s.
Proof.
  intros Hc. unfold _rebuildEdges, removeFromGroup, addToGroup.
  destruct (_edgesGroup s) as [eg |] eqn:He;
    destruct (artifactGroup s) as [g |] eqn:Hg;
    settle; rewrite ?Hc; settle; repeat split; reflexivity.
Qed.

(** What [setVisualStyle] leaves on a model that has its material and its
    overlay, by the style it stores. *)
Lemma setVisualStyle_display (style : string) (s : SceneManager) (c : Mesh)
    (mat : MaterialRef) (eg : EdgesGroup) (hl vl : LineSegments) :
  core s = Some c -> material c = Some mat -> _edgesGroup s = Some eg ->
  _hiddenEdgeLines s = Some hl -> _visibleEdgeLines s = Some vl ->
  let v := str_or style "shaded" in
  let s' := setVisualStyle style s in
  _visualStyle s' = v
  /\ core s' = Some c
  /\ core_wireframe s' = Some (String.eqb v "wireframe")
  /\ overlay_visible s'
     = Some (String.eqb v "shaded-edge" || String.eqb v "shaded-hidden")
  /\ hiddenLines_visible s'
     = Some (if String.eqb v "shaded-edge" then false
             else if String.eqb v "shaded-hidden" then true else ls_visible hl)
  /\ visibleLines_visible s'
     = Some (if String.eqb v "shaded-edge" || String.eqb v "shaded-hidden"
             then true else ls_visible vl)
  /\ option_map eg_id (_edgesGroup s') = Some (eg_id eg)
  /\ _featureAngle s' = _featureAngle s.
Proof.
  intros Hc Hm He Hh Hv v s'. subst s'.
  unfold setVisualStyle. scene. rewrite Hc. fold v.
  unfold core_wireframe, overlay_visible, hiddenLines_visible,
    visibleLines_visible, set_core_wireframe, show_edgesGroup, hide_edgesGroup,
    set_lines_visible.
  destruct (String.eqb_spec v "wireframe") as [E1 | N1].
  - rewrite E1. cbn [String.eqb Ascii.eqb Bool.eqb orb].
    settle. rewrite ?Hc, ?Hm. destruct mat; settle; rewrite ?Hc, ?Hm;
      repeat split; reflexivity.
  - destruct (String.eqb_spec v "shaded-edge") as [E2 | N2].
    + cbn [orb]. settle. rewrite ?Hc, ?Hm. destruct mat; settle;
        rewrite ?Hc, ?Hm, ?He, ?Hh, ?Hv; settle; rewrite ?Hc, ?Hm;
        repeat split; reflexivity.
    + destruct (String.eqb_spec v "shaded-hidden") as [E3 | N3].
      * cbn [orb]. settle. rewrite ?Hc, ?Hm. destruct mat; settle;
          rewrite ?Hc, ?Hm, ?He, ?Hh, ?Hv; settle; rewrite ?Hc, ?Hm;
          repeat split; reflexivity.
      * cbn [orb]. settle. rewrite ?Hc, ?Hm. destruct mat; settle;
          rewrite ?Hc, ?Hm, ?He, ?Hh, ?Hv; settle; rewrite ?Hc, ?Hm;
          repeat split; reflexivity.
Qed.

Lemma num_or_zero (x : R) : num_or x 0 = x.
Proof.
  unfold num_or. destruct (Req_dec_T x 0) as [E | N]; [symmetry; exact E | reflexivity].
Qed.

Lemma str_or_twice (a b : string) : b <> "" -> str_or (str_or a b) b = str_or a b.
Proof.
  intros Hb. unfold str_or at 2 3.
  destruct (String.eqb_spec a "") as [E | N].
  - apply str_or_nonempty. exact Hb.
  - apply str_or_nonempty. exact N.
Qed.

Lemma setVisualStyle_featureAngle (style : string) (s : SceneManager) :
  _featureAngle (setVisualStyle style s) = _featureAngle s.
Proof.
  unfold setVisualStyle, set_core_wireframe, show_edgesGroup, hide_edgesGroup.
  split_scene s; settle; try reflexivity;
    repeat match goal with
           | |- context [if ?b then _ else _] => destruct b
           end; settle; reflexivity.
Qed.

Lemma rebuildEdges_featureAngle (s : SceneManager) :
  _featureAngle (_rebuildEdges s) = _featureAngle s.
Proof.
  unfold _rebuildEdges, removeFromGroup, addToGroup.
  destruct (_edgesGroup s) as [eg |] eqn:He;
    destruct (artifactGroup s) as [g |] eqn:Hg;
    destruct (core s) as [c |] eqn:Hc;
    settle; rewrite ?Hc; settle; reflexivity.
Qed.

(** X4.  [setFeatureAngle(deg)] stores the angle, which [getFeatureAngle]
    reads back.  On a loaded model it also replaces the edges overlay by a
    new one and applies the current style again, so the display stays what
    the style prescribes: the overlay is visible under 'shaded-edge' and
    'shaded-hidden' only, its hidden-edge lines are invisible under
    'shaded-edge' only, and the material in use is wireframe under
    'wireframe' only.  Without a model only the angle is stored. *)
Theorem setFeatureAngle_redisplays (deg : R) (s : SceneManager) :
  getFeatureAngle (setFeatureAngle deg s) = deg
  /\ (core s = None -> setFeatureAngle deg s = set_featureAngle deg s)
  /\ (forall c mat, core s = Some c -> material c = Some mat ->
      let v := str_or (_visualStyle s) "shaded" in
      let s' := setFeatureAngle deg s in
      getVisualStyle s' = v
      /\ core s' = Some c
      /\ option_map eg_id (_edgesGroup s') = Some (nextId s)
      /\ core_wireframe s' = Some (String.eqb v "wireframe")
      /\ overlay_visible s'
         = Some (String.eqb v "shaded-edge" || String.eqb v "shaded-hidden")
      /\ hiddenLines_visible s' = Some (negb (String.eqb v "shaded-edge"))
      /\ visibleLines_visible s' = Some true).
Proof.
  split; [| split].
  - unfold getFeatureAngle, setFeatureAngle. scene.
    destruct (core s) as [c |] eqn:Hc.
    + rewrite setVisualStyle_featureAngle, rebuildEdges_featureAngle. scene.
      apply num_or_zero_twice.
    + apply num_or_zero_twice.
  - intros Hc. unfold setFeatureAngle. scene. rewrite Hc, num_or_zero. reflexivity.
  - intros c mat Hc Hm v s'. subst s'. unfold setFeatureAngle. scene. rewrite Hc.
    set (s1 := set_featureAngle (num_or deg 0) s).
    assert (Hc1 : core s1 = Some c) by exact Hc.
    destruct (rebuildEdges_overlay s1 c Hc1) as [Hc2 [He [Hh [Hv [_ [_ [Hs _]]]]]]].
    cbv zeta in Hc2, He, Hh, Hv, Hs.
    destruct (setVisualStyle_display (_visualStyle (_rebuildEdges s1))
                (_rebuildEdges s1) c mat _ _ _ Hc2 Hm He Hh Hv)
      as [D1 [D2 [D3 [D4 [D5 [D6 [D7 _]]]]]]].
    cbv zeta in D1, D2, D3, D4, D5, D6, D7.
    rewrite Hs in *. change (_visualStyle s1) with (_visualStyle s) in *. fold v in D1, D3, D4, D5, D6.
    split; [| split; [exact D2 | split; [exact D7 | split; [exact D3 | split; [exact D4 | split]]]]].
    + unfold getVisualStyle. rewrite D1. apply str_or_twice. discriminate.
    + rewrite D5. cbn [ls_visible].
      destruct (String.eqb_spec v "shaded-edge") as [E | N]; [reflexivity |].
      destruct (String.eqb v "shaded-hidden"); reflexivity.
    + rewrite D6. cbn [ls_visible].
      destruct (String.eqb v "shaded-edge" || String.eqb v "shaded-hidden"); reflexivity.
Qed.

Lemma display_fields (a b : SceneManager) :
  display a = display b ->
  core a = core b /\ core_wireframe a = core_wireframe b
  /\ overlay_visible a = overlay_visible b
  /\ hiddenLines_visible a = hiddenLines_visible b
  /\ visibleLines_visible a = visibleLines_visible b
  /\ getVisualStyle a = getVisualStyle b
  /\ _edgesGroup a = _edgesGroup b.
Proof.
  unfold display, core_wireframe, overlay_visible, hiddenLines_visible,
    visibleLines_visible, getVisualStyle.
  intros E. injection E as -> -> -> -> -> -> ->. repeat split; reflexivity.
Qed.

Lemma if_controls_update_display `{ThreeServices} (s : SceneManager) :
  display (if_controls_update s) = display s.
Proof.
  unfold if_controls_update, controls_update.
  destruct (controls s); [| reflexivity].
  destruct (camera s); [| reflexivity].
  destruct (OrbitControls_update _ _). reflexivity.
Qed.

Lemma fitModelToView_display `{ThreeServices} (w : Window)
    (object : option Object3D) (padding : R) (s : SceneManager) :
  display (fitModelToView w object padding s) = display s.
Proof.
  unfold fitModelToView.
  destruct object as [obj |]; [| reflexivity].
  destruct (camera s) as [cam |]; [| reflexivity].
  rewrite if_controls_update_display.
  unfold fitModelToView_assign. scene.
  destruct (controls s); reflexivity.
Qed.

(** X5.  A model that loads is drawn in the style stored at that moment, be it
    the constructor's 'shaded-edge' or one chosen before, with or without
    a model: the new mesh uses the default material, which is wireframe
    under 'wireframe' only; the new overlay is visible under 'shaded-edge'
    and 'shaded-hidden' only, and its hidden-edge lines are invisible under
    'shaded-edge' only. *)
Theorem onload_applies_style `{ThreeServices} (w : Window) (fileName : string)
    (geometry0 : list Vector3) (s : SceneManager) :
  let v := str_or (_visualStyle s) "shaded" in
  let s' := onload w fileName (Some geometry0) s in
  getVisualStyle s' = v
  /\ option_map material (core s') = Some (Some DefaultMat)
  /\ core_wireframe s' = Some (String.eqb v "wireframe")
  /\ overlay_visible s'
     = Some (String.eqb v "shaded-edge" || String.eqb v "shaded-hidden")
  /\ hiddenLines_visible s' = Some (negb (String.eqb v "shaded-edge"))
  /\ visibleLines_visible s' = Some true
  /\ (forall style t,
        s = setVisualStyle style t -> v = str_or style "shaded").
Proof.
  intros v s'.
  set (s3 := replaceCore fileName (normalizeGeometry geometry0) s).
  assert (H3 : exists m, core s3 = Some m /\ material m = Some DefaultMat
                         /\ _visualStyle s3 = _visualStyle s).
  { subst s3. unfold replaceCore, addToGroup, removeFromGroup.
    destruct (core s) as [old |] eqn:Ho; destruct (artifactGroup s) eqn:Hg;
      settle; eexists; (split; [reflexivity |]); split; reflexivity. }
  destruct H3 as [m [Hc3 [Hm Hs3]]].
  destruct (rebuildEdges_overlay s3 m Hc3) as [Hc4 [He [Hh [Hv [_ [_ [Hs4 _]]]]]]].
  cbv zeta in Hc4, He, Hh, Hv, Hs4.
  set (s4 := _rebuildEdges s3) in *.
  destruct (setVisualStyle_display (_visualStyle s4) s4 m DefaultMat _ _ _
              Hc4 Hm He Hh Hv) as [D1 [D2 [D3 [D4 [D5 [D6 _]]]]]].
  cbv zeta in D1, D2, D3, D4, D5, D6.
  set (s5 := setVisualStyle (_visualStyle s4) s4) in *.
  rewrite Hs4, Hs3 in D1, D3, D4, D5, D6. fold v in D1, D3, D4, D5, D6.
  assert (Hd : display s' = display s5).
  { subst s'. unfold onload. fold s3 s4 s5.
    rewrite if_controls_update_display.
    destruct (core s5); [apply fitModelToView_display | reflexivity]. }
  destruct (display_fields _ _ Hd) as [F1 [F2 [F3 [F4 [F5 [F6 _]]]]]].
  split; [| split; [| split; [| split; [| split; [| split]]]]].
  - rewrite F6. unfold getVisualStyle. rewrite D1. apply str_or_twice. discriminate.
  - rewrite F1, D2. cbn [option_map]. rewrite Hm. reflexivity.
  - rewrite F2. exact D3.
  - rewrite F3. exact D4.
  - rewrite F4, D5. cbn [ls_visible].
    destruct (String.eqb_spec v "shaded-edge") as [E | N]; [reflexivity |].
    destruct (String.eqb v "shaded-hidden"); reflexivity.
  - rewrite F5, D6. cbn [ls_visible].
    destruct (String.eqb v "shaded-edge" || String.eqb v "shaded-hidden"); reflexivity.
  - intros style t ->. subst v. rewrite visualStyle_stored.
    apply str_or_twice. discriminate.
Qed.

(** ** The artifact group over any run *)

Lemma groupHoldsModel_part (a b : SceneManager) :
  modelPart a = modelPart b -> groupHoldsModel b -> groupHoldsModel a.
Proof.
  unfold modelPart, groupHoldsModel, modelChildren.
  intros E [g [Hg Hc]]. injection E as E1 E2 E3.
  rewrite Hg in E1. cbn in E1.
  destruct (artifactGroup a) as [ga |]; [| discriminate E1].
  cbn in E1. injection E1 as E1.
  exists ga. split; [reflexivity |]. rewrite E1, Hc.
  destruct (core a), (core b); try discriminate E2;
    destruct (_edgesGroup a), (_edgesGroup b); try discriminate E3;
    cbn in E2, E3; try injection E2 as ->; try injection E3 as ->; reflexivity.
Qed.

Lemma if_controls_update_part `{ThreeServices} (s : SceneManager) :
  modelPart (if_controls_update s) = modelPart s.
Proof.
  unfold if_controls_update, controls_update.
  destruct (controls s); [| reflexivity].
  destruct (camera s); [| reflexivity].
  destruct (OrbitControls_update _ _). reflexivity.
Qed.

Lemma setVisualStyle_part (style : string) (s : SceneManager) :
  modelPart (setVisualStyle style s) = modelPart s.
Proof.
  unfold setVisualStyle, set_core_wireframe, show_edgesGroup, hide_edgesGroup, modelPart.
  split_scene s; settle; try reflexivity;
    repeat match goal with
           | |- context [if ?b then _ else _] => destruct b
           end; settle; reflexivity.
Qed.

Lemma fitModelToView_part `{ThreeServices} (w : Window)
    (object : option Object3D) (padding : R) (s : SceneManager) :
  modelPart (fitModelToView w object padding s) = modelPart s.
Proof.
  unfold fitModelToView.
  destruct object as [obj |]; [| reflexivity].
  destruct (camera s) as [cam |]; [| reflexivity].
  rewrite if_controls_update_part.
  unfold fitModelToView_assign. scene.
  destruct (controls s); reflexivity.
Qed.

Lemma setPresetView_part `{ThreeServices} (w : Window) (id : string)
    (object : option Object3D) (dur : R) (s : SceneManager) :
  setPresetViewQuaternion w = None ->
  modelPart (setPresetView w id object dur s) = modelPart s.
Proof.
  intros Hw. unfold setPresetView. rewrite Hw.
  destruct (camera s) as [cam |]; [| reflexivity].
  destruct (presetPosition id) as [pos |]; [| reflexivity].
  rewrite if_controls_update_part.
  unfold setPresetView_assign. scene.
  destruct (controls s); reflexivity.
Qed.

Lemma rotateModelByDegrees_part `{ThreeServices} (w : Window) (degrees : R)
    (axis : AxisArg) (dur : R) (space : string) (s : SceneManager) :
  modelPart (rotateModelByDegrees w degrees axis dur space s) = modelPart s.
Proof.
  unfold rotateModelByDegrees, modelPart.
  destruct (artifactGroup s) as [g |] eqn:Hg; [| rewrite Hg; reflexivity].
  destruct (Rle_dec dur 0); destruct (_rotationAnimating s); scene;
    rewrite ?Hg; reflexivity.
Qed.

Lemma step_part `{ThreeServices} (k : RotationStep) (now : R) (s : SceneManager) :
  modelPart (fst (step k now s)) = modelPart s.
Proof.
  unfold step, modelPart.
  destruct (_rotationCancelToken s); [reflexivity |].
  destruct (artifactGroup s) as [g |] eqn:Hg; [| scene; rewrite Hg; reflexivity].
  destruct (Rlt_dec _ _); scene; rewrite ?Hg; reflexivity.
Qed.

Lemma runCallbacks_part `{ThreeServices} (ks : list RotationStep) (now : R) :
  forall s, modelPart (runCallbacks ks now s) = modelPart s.
Proof.
  induction ks as [| k rest IH]; intros s; [reflexivity |].
  cbn [runCallbacks].
  pose proof (step_part k now s) as Hs.
  destruct (step k now s) as [s1 again]. cbn [fst] in Hs.
  rewrite IH. destruct again; [| exact Hs].
  rewrite <- Hs. reflexivity.
Qed.

Lemma animate_part `{ThreeServices} (s : SceneManager) :
  modelPart (animate s) = modelPart s.
Proof.
  unfold animate.
  pose proof (if_controls_update_part s) as E.
  destruct (axesActor (if_controls_update s)); [| exact E].
  destruct (camera (if_controls_update s)); [| exact E].
  rewrite <- E. reflexivity.
Qed.

Lemma animationFrame_part `{ThreeServices} (now : R) (s : SceneManager) :
  modelPart (animationFrame now s) = modelPart s.
Proof.
  unfold animationFrame. rewrite runCallbacks_part.
  rewrite <- (animate_part s). reflexivity.
Qed.

Lemma handleResize_part `{ThreeServices} (w : Window) (mainView : MainView)
    (r : bool) (s : SceneManager) :
  modelPart (handleResize w mainView r s) = modelPart s.
Proof.
  unfold handleResize.
  destruct (camera s); [| reflexivity].
  destruct r; [| reflexivity]. cbn [negb].
  rewrite if_controls_update_part. reflexivity.
Qed.

Lemma setSensitivities_part (cfg : SensitivityCfg) (s : SceneManager) :
  modelPart (setSensitivities cfg s) = modelPart s.
Proof. rewrite setSensitivities_merged. reflexivity. Qed.

Lemma highlightModel_part (h : bool) (s : SceneManager) :
  modelPart (highlightModel h s) = modelPart s.
Proof.
  unfold highlightModel, modelPart.
  destruct (core s) as [c |] eqn:Hc; [| rewrite Hc; reflexivity].
  scene. reflexivity.
Qed.

Lemma selectionPointerUp_part (ev : PointerEvent) (hits : bool) (s : SceneManager) :
  modelPart (selectionPointerUp ev hits s) = modelPart s.
Proof.
  unfold selectionPointerUp, modelPart.
  destruct (core s) as [c |] eqn:Hc; [| rewrite Hc; reflexivity].
  destruct (negb _); [rewrite Hc; reflexivity |].
  scene. reflexivity.
Qed.

Lemma toggleAxes_part (visible : option bool) (s : SceneManager) :
  modelPart (toggleAxes visible s) = modelPart s.
Proof.
  unfold toggleAxes. destruct (axesActor s); reflexivity.
Qed.

Lemma child_eqb_refl (c : Child) : child_eqb c c = true.
Proof. destruct c; cbn; apply Nat.eqb_refl. Qed.

(** Rebuilding the overlay on a group that holds the model. *)
Lemma rebuildEdges_holds (s : SceneManager) :
  groupHoldsModel s -> groupHoldsModel (_rebuildEdges s).
Proof.
  intros [g [Hg Hch]]. unfold groupHoldsModel, modelChildren in *.
  unfold _rebuildEdges, removeFromGroup, addToGroup.
  rewrite Hg.
  destruct (_edgesGroup s) as [eg |] eqn:He;
    destruct (core s) as [c |] eqn:Hc; settle; rewrite ?Hg, ?Hc; settle;
    rewrite ?Hc; settle; eexists; (split; [reflexivity |]); scene;
    cbn [app removeChild child_eqb]; rewrite ?Nat.eqb_refl; cbn [app];
    first [exact Hch | reflexivity].
Qed.

Lemma replaceCore_holds (fileName : string) (geo : list Vector3) (s : SceneManager) :
  groupHoldsModel s ->
  exists g m,
    artifactGroup (replaceCore fileName geo s) = Some g
    /\ core (replaceCore fileName geo s) = Some m
    /\ _edgesGroup (replaceCore fileName geo s) = _edgesGroup s
    /\ children g
       = ((match _edgesGroup s with Some e => [ChildEdges (eg_id e)] | None => [] end)
          ++ [ChildMesh (mesh_id m)])%list.
Proof.
  intros [g [Hg Hch]]. unfold modelChildren in Hch.
  unfold replaceCore, removeFromGroup, addToGroup.
  destruct (core s) as [old |] eqn:Hc; settle; rewrite ?Hg; settle;
    do 2 eexists; (split; [reflexivity |]); (split; [reflexivity |]);
    (split; [reflexivity |]); scene; cbn [mesh_id]; rewrite ?Hch;
    cbn [app removeChild child_eqb]; rewrite ?Nat.eqb_refl; cbn [app];
    rewrite ?app_nil_r; reflexivity.
Qed.

Lemma rebuildEdges_after_replace (s : SceneManager) (g : Group) (m : Mesh) :
  artifactGroup s = Some g ->
  core s = Some m ->
  children g
  = ((match _edgesGroup s with Some e => [ChildEdges (eg_id e)] | None => [] end)
     ++ [ChildMesh (mesh_id m)])%list ->
  groupHoldsModel (_rebuildEdges s).
Proof.
  intros Hg Hc Hch. unfold groupHoldsModel, modelChildren.
  unfold _rebuildEdges, removeFromGroup, addToGroup.
  rewrite Hg.
  destruct (_edgesGroup s) as [eg |] eqn:He; settle; rewrite ?Hg, ?Hc; settle;
    rewrite ?Hc; settle; eexists; (split; [reflexivity |]); scene;
    rewrite ?Hch; cbn [app removeChild child_eqb]; rewrite ?Nat.eqb_refl;
    cbn [app]; reflexivity.
Qed.

Lemma onload_holds `{ThreeServices} (w : Window) (fileName : string)
    (parsed : option (list Vector3)) (s : SceneManager) :
  groupHoldsModel s -> groupHoldsModel (onload w fileName parsed s).
Proof.
  intros Hs. destruct parsed as [geometry0 |]; [| exact Hs].
  unfold onload.
  destruct (replaceCore_holds fileName (normalizeGeometry geometry0) s Hs)
    as [g [m [Hg [Hc [He Hch]]]]].
  set (s3 := replaceCore fileName (normalizeGeometry geometry0) s) in *.
  rewrite <- He in Hch.
  pose proof (rebuildEdges_after_replace s3 g m Hg Hc Hch) as H4.
  set (s4 := _rebuildEdges s3) in *.
  eapply groupHoldsModel_part; [| exact H4].
  rewrite if_controls_update_part.
  set (s5 := setVisualStyle (_visualStyle s4) s4).
  transitivity (modelPart s5); [| apply setVisualStyle_part].
  destruct (core s5); [apply fitModelToView_part | reflexivity].
Qed.

Lemma setFeatureAngle_holds (deg : R) (s : SceneManager) :
  groupHoldsModel s -> groupHoldsModel (setFeatureAngle deg s).
Proof.
  intros Hs. unfold setFeatureAngle. scene.
  set (s1 := set_featureAngle (num_or deg 0) s).
  assert (H1 : groupHoldsModel s1) by exact Hs.
  destruct (core s) as [c |]; [| exact H1].
  eapply groupHoldsModel_part; [apply setVisualStyle_part |].
  apply rebuildEdges_holds. exact H1.
Qed.

(** X6.  Through any run of loads (parsed or failed), feature-angle and style
    changes, highlights and selection clicks, fits, preset views,
    rotations, animation frames, axes toggles, resizes and sensitivity
    changes, the artifact group holds exactly the current core mesh
    followed by the current edges overlay: no replaced mesh and no rebuilt
    overlay stays behind, so the group never has more than two children.
    This starts from any state where it holds, such as the empty group
    [init] makes. *)
Theorem artifact_group_holds_the_model `{ThreeServices} (w : Window)
    (ops : list SceneOp) (s : SceneManager) :
  setPresetViewQuaternion w = None ->
  groupHoldsModel s ->
  groupHoldsModel (applyOps w ops s)
  /\ (forall g, artifactGroup (applyOps w ops s) = Some g ->
        (List.length (children g) <= 2)%nat).
Proof.
  intros Hw Hs.
  assert (Hinv : groupHoldsModel (applyOps w ops s)).
  { unfold applyOps. revert s Hs.
    induction ops as [| op rest IH]; intros s Hs; [exact Hs |].
    cbn [fold_left]. apply IH.
    destruct op; cbn [applyOp].
    - apply onload_holds, Hs.
    - apply setFeatureAngle_holds, Hs.
    - eapply groupHoldsModel_part; [apply setVisualStyle_part | exact Hs].
    - eapply groupHoldsModel_part; [apply highlightModel_part | exact Hs].
    - eapply groupHoldsModel_part; [apply selectionPointerUp_part | exact Hs].
    - eapply groupHoldsModel_part; [apply fitModelToView_part | exact Hs].
    - eapply groupHoldsModel_part; [apply setPresetView_part, Hw | exact Hs].
    - eapply groupHoldsModel_part; [apply rotateModelByDegrees_part | exact Hs].
    - eapply groupHoldsModel_part; [apply animationFrame_part | exact Hs].
    - eapply groupHoldsModel_part; [apply toggleAxes_part | exact Hs].
    - eapply groupHoldsModel_part; [apply handleResize_part | exact Hs].
    - eapply groupHoldsModel_part; [apply setSensitivities_part | exact Hs]. }
  split; [exact Hinv |].
  intros g Hg. destruct Hinv as [g' [Hg' Hch]].
  rewrite Hg in Hg'. injection Hg' as <-. rewrite Hch.
  unfold modelChildren.
  destruct (core _), (_edgesGroup _); cbn; lia.
Qed.

Lemma artifact_group_holds_the_model_witness :
  groupHoldsModel
    (@applyOps plainThree plainWindow
       [OpLoad "part.stl" (Some unitCube); OpFeatureAngle 45;
        OpLoad "other.stl" (Some unitCube); OpVisualStyle "wireframe"]
       sampleScene).
Proof.
  refine (proj1 (@artifact_group_holds_the_model plainThree plainWindow _
                   sampleScene eq_refl _)).
  exists (mkGroup identityQ []). split; reflexivity.
Defined.

(** ** Highlighting and the wireframe flag *)

(** What a style change does to the two materials. *)
Lemma setVisualStyle_materials (style : string) (s : SceneManager) (c : Mesh)
    (mat : MaterialRef) :
  core s = Some c -> material c = Some mat ->
  let v := str_or style "shaded" in
  let s' := setVisualStyle style s in
  core s' = Some c
  /\ _visualStyle s' = v
  /\ defaultMaterial s'
     = match mat with
       | DefaultMat => mkMaterial (String.eqb v "wireframe")
       | SelectedMat => defaultMaterial s
       end
  /\ selectedMaterial s'
     = match mat with
       | DefaultMat => selectedMaterial s
       | SelectedMat => mkMaterial (String.eqb v "wireframe")
       end.
Proof.
  intros Hc Hm v s'. subst s'.
  unfold setVisualStyle. scene. rewrite Hc. fold v.
  unfold set_core_wireframe, show_edgesGroup, hide_edgesGroup.
  destruct (String.eqb_spec v "wireframe") as [E1 | N1];
    [| destruct (String.eqb v "shaded-edge"); [| destruct (String.eqb v "shaded-hidden")]];
    destruct (_edgesGroup s) as [eg |] eqn:He; settle; rewrite ?Hc, ?Hm;
    destruct mat; settle; rewrite ?Hc, ?Hm; repeat split; reflexivity.
Qed.

Lemma highlightModel_fields (h : bool) (s : SceneManager) (c : Mesh) :
  core s = Some c ->
  core (highlightModel h s)
  = Some (mesh_set_material (Some (if h then SelectedMat else DefaultMat)) c)
  /\ defaultMaterial (highlightModel h s) = defaultMaterial s
  /\ selectedMaterial (highlightModel h s) = selectedMaterial s
  /\ _visualStyle (highlightModel h s) = _visualStyle s.
Proof.
  intros Hc. unfold highlightModel. rewrite Hc. repeat split; reflexivity.
Qed.

(** X7.  The wireframe flag lives on the two shared materials.  Highlighting
    (from the tree or by a left click, which does what [highlightModel]
    does with the ray's result) switches the material the core mesh uses
    and changes neither material nor the stored style; [setVisualStyle]
    writes the flag of the material in use only.  So the flag seen after
    a switch is the other material's own: with 'wireframe' chosen while
    the model was not highlighted, highlighting shows the selected
    material's old flag, and with 'shaded' chosen while it is highlighted,
    removing the highlight shows the default material still wireframe
    under the stored style 'shaded'. *)
Theorem style_writes_the_material_in_use (s : SceneManager) (c : Mesh) :
  core s = Some c ->
  (forall h,
     defaultMaterial (highlightModel h s) = defaultMaterial s
     /\ selectedMaterial (highlightModel h s) = selectedMaterial s
     /\ getVisualStyle (highlightModel h s) = getVisualStyle s
     /\ core_wireframe (highlightModel h s)
        = Some (wireframe (if h then selectedMaterial s else defaultMaterial s)))
  /\ (forall ev hits,
        selectionPointerUp ev hits s
        = if Z.eqb (button ev) 0 then highlightModel hits s else s)
  /\ (forall style,
        selectedMaterial (setVisualStyle style (highlightModel false s))
        = selectedMaterial s
        /\ defaultMaterial (setVisualStyle style (highlightModel true s))
           = defaultMaterial s)
  /\ (let s1 :=
        highlightModel true (setVisualStyle "wireframe" (highlightModel false s)) in
      let s2 := highlightModel false (setVisualStyle "shaded" s1) in
      getVisualStyle s1 = "wireframe"
      /\ core_wireframe s1 = Some (wireframe (selectedMaterial s))
      /\ getVisualStyle s2 = "shaded"
      /\ core_wireframe s2 = Some true).
Proof.
  intros Hc.
  split; [| split; [| split]].
  - intros h. unfold highlightModel, core_wireframe, getVisualStyle.
    rewrite Hc. scene. cbn [material mesh_set_material].
    destruct h; repeat split; reflexivity.
  - intros ev hits. unfold selectionPointerUp, highlightModel. rewrite Hc.
    destruct (Z.eqb (button ev) 0); reflexivity.
  - intros style.
    destruct (highlightModel_fields false s c Hc) as [F1 [F2 [F3 _]]].
    destruct (highlightModel_fields true s c Hc) as [T1 [T2 [T3 _]]].
    destruct (setVisualStyle_materials style _ _ DefaultMat F1 eq_refl)
      as [_ [_ [_ A]]].
    destruct (setVisualStyle_materials style _ _ SelectedMat T1 eq_refl)
      as [_ [_ [B _]]].
    cbv zeta in A, B. rewrite A, B, F3, T2. split; reflexivity.
  - cbv zeta.
    destruct (highlightModel_fields false s c Hc) as [F1 [_ [F3 _]]].
    set (s0 := highlightModel false s) in *.
    destruct (setVisualStyle_materials "wireframe" s0 _ DefaultMat F1 eq_refl)
      as [W1 [W2 [W3 W4]]].
    cbv zeta in W1, W2, W3, W4.
    set (sw := setVisualStyle "wireframe" s0) in *.
    destruct (highlightModel_fields true sw _ W1) as [H1 [H2 [H3 H4]]].
    set (s1 := highlightModel true sw) in *.
    destruct (setVisualStyle_materials "shaded" s1 _ SelectedMat H1 eq_refl)
      as [S1 [S2 [S3 S4]]].
    cbv zeta in S1, S2, S3, S4.
    set (ss := setVisualStyle "shaded" s1) in *.
    destruct (highlightModel_fields false ss _ S1) as [U1 [U2 [U3 U4]]].
    unfold getVisualStyle, core_wireframe.
    rewrite H4, W2, H1, U4, S2, U1, U2, S3, H2, W3, H3, W4, F3.
    cbn [material mesh_set_material str_or String.eqb Ascii.eqb Bool.eqb wireframe].
    repeat split; reflexivity.
Qed.

Lemma style_writes_the_material_in_use_witness :
  getVisualStyle
    (highlightModel false
       (setVisualStyle "shaded"
          (highlightModel true
             (setVisualStyle "wireframe" (highlightModel false loadedScene)))))
  = "shaded"
  /\ core_wireframe
       (highlightModel false
          (setVisualStyle "shaded"
             (highlightModel true
                (setVisualStyle "wireframe" (highlightModel false loadedScene)))))
     = Some true.
Proof.
  assert (Hc : core loadedScene
               = Some (mkMesh 0 (normalizeGeometry unitCube) (Some DefaultMat) "part"))
    by reflexivity.
  destruct (style_writes_the_material_in_use loadedScene _ Hc)
    as [_ [_ [_ [_ [_ [H1 H2]]]]]].
  split; [exact H1 | exact H2].
Defined.

(** ** Rotations of the model *)

Lemma multiplyQuaternions_assoc (a b c : Quaternion) :
  multiplyQuaternions a (multiplyQuaternions b c)
  = multiplyQuaternions (multiplyQuaternions a b) c.
Proof. apply q_eq; unfold multiplyQuaternions; simpl; ring. Qed.

Lemma multiplyQuaternions_identity_l (q : Quaternion) :
  multiplyQuaternions identityQ q = q.
Proof. apply q_eq; unfold multiplyQuaternions, identityQ; simpl; ring. Qed.

Lemma multiplyQuaternions_identity_r (q : Quaternion) :
  multiplyQuaternions q identityQ = q.
Proof. apply q_eq; unfold multiplyQuaternions, identityQ; simpl; ring. Qed.

Lemma setFromAxisAngle_zero (axis : Vector3) : setFromAxisAngle axis 0 = identityQ.
Proof.
  unfold setFromAxisAngle, identityQ.
  replace (0 / 2) with 0 by lra. rewrite sin_0, cos_0.
  apply q_eq; simpl; ring.
Qed.

(** Turns about one unit axis add up. *)
Lemma setFromAxisAngle_add (axis : Vector3) (a b : R) :
  lengthSq axis = 1 ->
  multiplyQuaternions (setFromAxisAngle axis b) (setFromAxisAngle axis a)
  = setFromAxisAngle axis (a + b).
Proof.
  intros Hu. unfold lengthSq in Hu.
  unfold setFromAxisAngle, multiplyQuaternions.
  replace ((a + b) / 2) with (a / 2 + b / 2) by lra.
  rewrite sin_plus, cos_plus.
  set (sa := sin (a / 2)). set (ca := cos (a / 2)).
  set (sb := sin (b / 2)). set (cb := cos (b / 2)).
  apply q_eq; cbn [qx qy qz qw]; try ring.
  replace (cb * ca - vx axis * sb * (vx axis * sa) - vy axis * sb * (vy axis * sa)
           - vz axis * sb * (vz axis * sa))
    with (cb * ca - (vx axis * vx axis + vy axis * vy axis + vz axis * vz axis)
                    * (sa * sb)) by ring.
  rewrite Hu. ring.
Qed.

Lemma normalize_unit (v : Vector3) : lengthSq v = 1 -> normalize v = v.
Proof.
  intros Hu. unfold normalize, num_or, length. rewrite Hu, sqrt_1.
  destruct (Req_dec_T 1 0); [lra |].
  unfold divideScalar, multiplyScalar. apply v3_eq; simpl; field.
Qed.

Lemma axisLocalOf_name_unit (n : string) : lengthSq (axisLocalOf (AxisName n)) = 1.
Proof.
  unfold axisLocalOf.
  destruct (String.eqb (axisKey n) "x"); [unfold lengthSq; simpl; ring |].
  destruct (String.eqb (axisKey n) "z"); unfold lengthSq; simpl; ring.
Qed.

Lemma lengthSq_one_nonzero (v : Vector3) : lengthSq v = 1 -> v <> zero3.
Proof.
  intros Hu E. rewrite E in Hu. unfold lengthSq, zero3 in Hu. simpl in Hu. lra.
Qed.

Lemma axisLocalOf_unit (axis : AxisArg) :
  properAxis axis -> lengthSq (axisLocalOf axis) = 1.
Proof.
  destruct axis as [n | v]; intros Hp.
  - apply axisLocalOf_name_unit.
  - cbn [axisLocalOf]. apply lengthSq_normalize. exact Hp.
Qed.

(** In world space the axis is the normalized local axis, whatever the
    model's orientation. *)
Lemma axisWorldOf_world `{ThreeServices} (axis : AxisArg) (g : Group)
    (s : SceneManager) :
  properAxis axis ->
  axisWorldOf axis "world" g s = axisLocalOf axis
  /\ lengthSq (axisWorldOf axis "world" g s) = 1.
Proof.
  intros Hp. pose proof (axisLocalOf_unit axis Hp) as Hu.
  assert (E : axisWorldOf axis "world" g s = axisLocalOf axis).
  { unfold axisWorldOf. cbn [String.eqb Ascii.eqb Bool.eqb].
    apply normalize_unit. exact Hu. }
  split; [exact E | rewrite E; exact Hu].
Qed.

(** The state an immediate rotation leaves. *)
Lemma rotateModelByDegrees_now `{ThreeServices} (w : Window) (degrees : R)
    (axis : AxisArg) (dur : R) (space : string) (s : SceneManager) (g : Group) :
  artifactGroup s = Some g ->
  dur <= 0 ->
  rotateModelByDegrees w degrees axis dur space s
  = set_rotationAnimating false
      (set_rotationCancelToken false
         (set_artifactGroup
            (Some (grp_set_quaternion
                     (rotatedNow space (grp_quaternion g)
                        (setFromAxisAngle (axisWorldOf axis space g s)
                           (degrees * PI / 180))) g)) s)).
Proof.
  intros Hg Hd. unfold rotateModelByDegrees. rewrite Hg.
  destruct (Rle_dec dur 0) as [_ | N]; [| contradiction].
  destruct (_rotationAnimating s); reflexivity.
Qed.

(** X8.  Immediate rotations in world space about one axis add up: turning by
    [d1] and then by [d2] leaves the state that one turn by [d1 + d2]
    leaves, so a turn followed by the opposite turn gives the model its
    quaternion back. *)
Theorem world_rotations_add_up `{ThreeServices} (w : Window) (d1 d2 : R)
    (axis : AxisArg) (dur1 dur2 dur : R) (s : SceneManager) (g : Group) :
  artifactGroup s = Some g ->
  properAxis axis ->
  dur1 <= 0 -> dur2 <= 0 -> dur <= 0 ->
  rotateModelByDegrees w d2 axis dur2 "world"
    (rotateModelByDegrees w d1 axis dur1 "world" s)
  = rotateModelByDegrees w (d1 + d2) axis dur "world" s
  /\ modelQuaternion
       (rotateModelByDegrees w (- d1) axis dur2 "world"
          (rotateModelByDegrees w d1 axis dur1 "world" s))
     = Some (grp_quaternion g).
Proof.
  intros Hg Hp H1 H2 H0.
  assert (Hadd : forall a b,
             rotateModelByDegrees w b axis dur2 "world"
               (rotateModelByDegrees w a axis dur1 "world" s)
             = rotateModelByDegrees w (a + b) axis dur "world" s).
  { intros a b.
    rewrite (rotateModelByDegrees_now w a axis dur1 "world" s g Hg H1).
    set (q1 := rotatedNow "world" (grp_quaternion g)
                 (setFromAxisAngle (axisWorldOf axis "world" g s) (a * PI / 180))).
    set (s1 := set_rotationAnimating false _).
    assert (Hg1 : artifactGroup s1 = Some (grp_set_quaternion q1 g)) by reflexivity.
    rewrite (rotateModelByDegrees_now w b axis dur2 "world" s1 _ Hg1 H2).
    rewrite (rotateModelByDegrees_now w (a + b) axis dur "world" s g Hg H0).
    destruct (axisWorldOf_world axis g s Hp) as [Ea Hu].
    destruct (axisWorldOf_world axis (grp_set_quaternion q1 g) s1 Hp) as [Eb _].
    rewrite Eb, <- Ea. subst s1. scene.
    replace (rotatedNow "world" q1
               (setFromAxisAngle (axisWorldOf axis "world" g s) (b * PI / 180)))
      with (rotatedNow "world" (grp_quaternion g)
              (setFromAxisAngle (axisWorldOf axis "world" g s) ((a + b) * PI / 180)));
      [reflexivity |].
    subst q1. unfold rotatedNow, premultiply.
    cbn [String.eqb Ascii.eqb Bool.eqb].
    rewrite multiplyQuaternions_assoc, setFromAxisAngle_add by exact Hu.
    f_equal. f_equal. lra. }
  split; [apply Hadd |].
  rewrite Hadd.
  rewrite (rotateModelByDegrees_now w _ axis dur "world" s g Hg H0).
  unfold modelQuaternion. scene. f_equal.
  unfold rotatedNow, premultiply. cbn [String.eqb Ascii.eqb Bool.eqb].
  replace ((d1 + - d1) * PI / 180) with 0 by lra.
  rewrite setFromAxisAngle_zero. apply multiplyQuaternions_identity_l.
Qed.

Lemma world_rotations_add_up_witness :
  @rotateModelByDegrees plainThree plainWindow 30 (AxisName "x") 0 "world"
    (@rotateModelByDegrees plainThree plainWindow 60 (AxisName "x") 0 "world"
       sampleScene)
  = @rotateModelByDegrees plainThree plainWindow (60 + 30) (AxisName "x") 0 "world"
      sampleScene.
Proof.
  refine (proj1 (@world_rotations_add_up plainThree plainWindow 60 30
                   (AxisName "x") 0 0 0 sampleScene (mkGroup identityQ [])
                   eq_refl I _ _ _)); lra.
Defined.

Lemma lowerAscii_twice (c : Ascii.ascii) : lowerAscii (lowerAscii c) = lowerAscii c.
Proof. destruct c as [[] [] [] [] [] [] [] []]; vm_compute; reflexivity. Qed.

Lemma toLowerCase_twice (s : string) : toLowerCase (toLowerCase s) = toLowerCase s.
Proof.
  induction s as [| c r IH]; [reflexivity |].
  cbn [toLowerCase]. rewrite lowerAscii_twice, IH. reflexivity.
Qed.

Lemma axisKey_toLowerCase (n : string) : axisKey (toLowerCase n) = axisKey n.
Proof.
  unfold axisKey, str_or.
  destruct n as [| c r]; [reflexivity |].
  cbn [toLowerCase String.eqb]. exact (toLowerCase_twice (String c r)).
Qed.

(** The rotation depends on the axis argument through the resolved axis
    only. *)
Lemma rotateModelByDegrees_axis `{ThreeServices} (w : Window) (degrees : R)
    (a1 a2 : AxisArg) (dur : R) (space : string) (s : SceneManager) :
  (forall g, axisWorldOf a1 space g s = axisWorldOf a2 space g s) ->
  rotateModelByDegrees w degrees a1 dur space s
  = rotateModelByDegrees w degrees a2 dur space s.
Proof.
  intros E. unfold rotateModelByDegrees.
  destruct (artifactGroup s) as [g |]; [| reflexivity].
  rewrite (E g). reflexivity.
Qed.

Lemma axisWorldOf_key `{ThreeServices} (n1 n2 : string) (space : string)
    (g : Group) (s : SceneManager) :
  axisKey n1 = axisKey n2 ->
  axisWorldOf (AxisName n1) space g s = axisWorldOf (AxisName n2) space g s.
Proof.
  intros E. unfold axisWorldOf, axisLocalOf. rewrite E. reflexivity.
Qed.

(** X9.  What [rotateModelByDegrees] makes of arguments it does not know.  A
    space other than 'local' and 'view' is taken as 'world', and so is
    'view' when there is no camera.  An axis name is read without regard to
    case, and every name other than 'x' and 'z', the empty one included, is
    taken as 'y'. *)
Theorem rotation_arguments_fall_back `{ThreeServices} (w : Window) (degrees : R)
    (dur : R) (s : SceneManager) :
  (forall axis space,
     space <> "local" -> space <> "view" \/ camera s = None ->
     rotateModelByDegrees w degrees axis dur space s
     = rotateModelByDegrees w degrees axis dur "world" s)
  /\ (forall n space,
        rotateModelByDegrees w degrees (AxisName n) dur space s
        = rotateModelByDegrees w degrees (AxisName (toLowerCase n)) dur space s)
  /\ (forall n space,
        toLowerCase n <> "x" -> toLowerCase n <> "z" ->
        rotateModelByDegrees w degrees (AxisName n) dur space s
        = rotateModelByDegrees w degrees (AxisName "y") dur space s).
Proof.
  split; [| split].
  - intros axis space Hl Hv.
    assert (El : String.eqb space "local" = false) by (apply String.eqb_neq; exact Hl).
    unfold rotateModelByDegrees.
    destruct (artifactGroup s) as [g |]; [| reflexivity].
    assert (Ea : axisWorldOf axis space g s = axisWorldOf axis "world" g s).
    { unfold axisWorldOf. rewrite El.
      cbn [String.eqb Ascii.eqb Bool.eqb].
      destruct Hv as [Hv | Hc].
      - apply String.eqb_neq in Hv. rewrite Hv.
        destruct (String.eqb space "world"); reflexivity.
      - rewrite Hc. destruct (String.eqb space "view");
          destruct (String.eqb space "world"); reflexivity. }
    rewrite Ea. unfold rotatedNow. rewrite El.
    cbn [String.eqb Ascii.eqb Bool.eqb]. reflexivity.
  - intros n space. apply rotateModelByDegrees_axis. intros g.
    apply axisWorldOf_key. symmetry. apply axisKey_toLowerCase.
  - intros n space Hx Hz. apply rotateModelByDegrees_axis. intros g.
    unfold axisWorldOf, axisLocalOf.
    assert (Kx : String.eqb (axisKey n) "x" = false).
    { apply String.eqb_neq. unfold axisKey, str_or.
      destruct (String.eqb n ""); [discriminate | exact Hx]. }
    assert (Kz : String.eqb (axisKey n) "z" = false).
    { apply String.eqb_neq. unfold axisKey, str_or.
      destruct (String.eqb n ""); [discriminate | exact Hz]. }
    rewrite Kx, Kz. reflexivity.
Qed.

(** Outside view space the resolved axis has length 1 when the model
    quaternion has. *)
Lemma axisWorldOf_unit `{ThreeServices} (axis : AxisArg) (space : string)
    (g : Group) (s : SceneManager) :
  properAxis axis ->
  qLengthSq (grp_quaternion g) = 1 ->
  space <> "view" \/ camera s = None ->
  lengthSq (axisWorldOf axis space g s) = 1.
Proof.
  intros Hp Hq Hv. pose proof (axisLocalOf_unit axis Hp) as Hu.
  unfold axisWorldOf.
  assert (E : (if String.eqb space "view" then camera s else None) = None).
  { destruct Hv as [Hv | Hc].
    - apply String.eqb_neq in Hv. rewrite Hv. reflexivity.
    - rewrite Hc. destruct (String.eqb space "view"); reflexivity. }
  rewrite E.
  destruct (String.eqb space "world");
    [apply lengthSq_normalize, lengthSq_one_nonzero, Hu |].
  destruct (String.eqb space "local");
    [| apply lengthSq_normalize, lengthSq_one_nonzero, Hu].
  apply lengthSq_normalize. apply lengthSq_one_nonzero.
  rewrite lengthSq_applyQuaternion, Hq, Hu. ring.
Qed.

(** X10.  A model quaternion of length 1 keeps length 1 through
    [rotateModelByDegrees] about a named axis or a vector other than 0, in
    every space but 'view': the immediate call leaves a unit quaternion,
    and the animated call queues a callback that starts from the current
    quaternion and ends on a unit one. *)
Theorem rotation_keeps_unit_length `{ThreeServices} (w : Window) (degrees : R)
    (axis : AxisArg) (dur : R) (space : string) (s : SceneManager) (g : Group) :
  artifactGroup s = Some g ->
  qLengthSq (grp_quaternion g) = 1 ->
  properAxis axis ->
  space <> "view" \/ camera s = None ->
  let s' := rotateModelByDegrees w degrees axis dur space s in
  (dur <= 0 ->
     exists q, modelQuaternion s' = Some q /\ qLengthSq q = 1)
  /\ (0 < dur ->
      exists k,
        frameCallbacks s' = (frameCallbacks s ++ [k])%list
        /\ modelQuaternion s' = Some (grp_quaternion g)
        /\ startQ k = grp_quaternion g
        /\ qLengthSq (endQ k) = 1).
Proof.
  intros Hg Hq Hp Hv s'.
  pose proof (axisWorldOf_unit axis space g s Hp Hq Hv) as Hu.
  pose proof (qLengthSq_axis_unit _ (degrees * PI / 180) Hu) as Hr.
  split.
  - intros Hd. subst s'.
    rewrite (rotateModelByDegrees_now w degrees axis dur space s g Hg Hd).
    unfold modelQuaternion. scene. eexists. split; [reflexivity |].
    unfold rotatedNow, multiply, premultiply.
    destruct (String.eqb space "local"); rewrite qLengthSq_multiply, Hq, Hr; ring.
  - intros Hd. subst s'. unfold rotateModelByDegrees, modelQuaternion. rewrite Hg.
    destruct (Rle_dec dur 0) as [L | _]; [lra |].
    eexists. scene.
    split; [destruct (_rotationAnimating s); reflexivity |].
    split; [destruct (_rotationAnimating s); scene; rewrite Hg; reflexivity |].
    cbn [startQ endQ]. split; [reflexivity |].
    unfold multiply.
    destruct (String.eqb space "local"); rewrite qLengthSq_multiply, Hq, Hr; ring.
Qed.

Lemma rotation_keeps_unit_length_witness :
  exists q,
    modelQuaternion
      (@rotateModelByDegrees plainThree plainWindow 90 (AxisName "z") 0 "local"
         sampleScene)
    = Some q
    /\ qLengthSq q = 1.
Proof.
  refine (proj1 (@rotation_keeps_unit_length plainThree plainWindow 90
                   (AxisName "z") 0 "local" sampleScene (mkGroup identityQ [])
                   eq_refl _ I _) _).
  - unfold qLengthSq, identityQ. cbn. ring.
  - left. discriminate.
  - lra.
Defined.

(** ** Animated rotations are never cancelled *)

Lemma queued_part (k : RotationStep) (a b : SceneManager) :
  animationPart a = animationPart b -> queued k b -> queued k a.
Proof.
  unfold animationPart, queued. intros E [Hk [Ht Hg]].
  injection E as E1 E2 E3. rewrite E1, E2.
  split; [exact Hk |]. split; [exact Ht |].
  destruct (artifactGroup a); [discriminate |].
  destruct (artifactGroup b); [discriminate E3 | contradiction].
Qed.

Lemma if_controls_update_animation `{ThreeServices} (s : SceneManager) :
  animationPart (if_controls_update s) = animationPart s.
Proof.
  unfold if_controls_update, controls_update.
  destruct (controls s); [| reflexivity].
  destruct (camera s); [| reflexivity].
  destruct (OrbitControls_update _ _). reflexivity.
Qed.

Lemma setVisualStyle_queue (style : string) (s : SceneManager) :
  frameCallbacks (setVisualStyle style s) = frameCallbacks s
  /\ _rotationCancelToken (setVisualStyle style s) = _rotationCancelToken s.
Proof.
  unfold setVisualStyle, set_core_wireframe, show_edgesGroup, hide_edgesGroup.
  split_scene s; settle; try (split; reflexivity);
    repeat match goal with
           | |- context [if ?b then _ else _] => destruct b
           end; settle; split; reflexivity.
Qed.

Lemma setVisualStyle_animation (style : string) (s : SceneManager) :
  animationPart (setVisualStyle style s) = animationPart s.
Proof.
  unfold animationPart.
  destruct (setVisualStyle_queue style s) as [E1 E2].
  destruct (setVisualStyle_sameModel style s) as [_ [E3 _]].
  rewrite E1, E2, E3. reflexivity.
Qed.

Lemma fitModelToView_animation `{ThreeServices} (w : Window)
    (object : option Object3D) (padding : R) (s : SceneManager) :
  animationPart (fitModelToView w object padding s) = animationPart s.
Proof.
  unfold fitModelToView.
  destruct object as [obj |]; [| reflexivity].
  destruct (camera s) as [cam |]; [| reflexivity].
  rewrite if_controls_update_animation.
  unfold fitModelToView_assign. scene.
  destruct (controls s); reflexivity.
Qed.

Lemma setPresetView_animation `{ThreeServices} (w : Window) (id : string)
    (object : option Object3D) (dur : R) (s : SceneManager) :
  setPresetViewQuaternion w = None ->
  animationPart (setPresetView w id object dur s) = animationPart s.
Proof.
  intros Hw. unfold setPresetView. rewrite Hw.
  destruct (camera s) as [cam |]; [| reflexivity].
  destruct (presetPosition id) as [pos |]; [| reflexivity].
  rewrite if_controls_update_animation.
  unfold setPresetView_assign. scene.
  destruct (controls s); reflexivity.
Qed.

Lemma rebuildEdges_animation (s : SceneManager) :
  animationPart (_rebuildEdges s) = animationPart s.
Proof.
  unfold _rebuildEdges, removeFromGroup, addToGroup, animationPart.
  destruct (_edgesGroup s) as [eg |] eqn:He;
    destruct (artifactGroup s) as [g |] eqn:Hg;
    destruct (core s) as [c |] eqn:Hc;
    settle; rewrite ?Hg, ?Hc; settle; rewrite ?Hg; reflexivity.
Qed.

Lemma replaceCore_animation (fileName : string) (geo : list Vector3)
    (s : SceneManager) :
  animationPart (replaceCore fileName geo s) = animationPart s.
Proof.
  unfold replaceCore, removeFromGroup, addToGroup, animationPart.
  destruct (core s) as [old |] eqn:Hc;
    destruct (artifactGroup s) as [g |] eqn:Hg;
    settle; rewrite ?Hg; settle; rewrite ?Hg; reflexivity.
Qed.

Lemma onload_animation `{ThreeServices} (w : Window) (fileName : string)
    (parsed : option (list Vector3)) (s : SceneManager) :
  animationPart (onload w fileName parsed s) = animationPart s.
Proof.
  destruct parsed as [geometry0 |]; [| reflexivity].
  unfold onload. rewrite if_controls_update_animation.
  set (s4 := _rebuildEdges (replaceCore fileName (normalizeGeometry geometry0) s)).
  set (s5 := setVisualStyle (_visualStyle s4) s4).
  transitivity (animationPart s5).
  - destruct (core s5); [apply fitModelToView_animation | reflexivity].
  - subst s5 s4.
    rewrite setVisualStyle_animation, rebuildEdges_animation.
    apply replaceCore_animation.
Qed.

Lemma setFeatureAngle_animation (deg : R) (s : SceneManager) :
  animationPart (setFeatureAngle deg s) = animationPart s.
Proof.
  unfold setFeatureAngle. scene.
  destruct (core s); [| reflexivity].
  rewrite setVisualStyle_animation, rebuildEdges_animation. reflexivity.
Qed.

Lemma handleResize_animation `{ThreeServices} (w : Window) (mainView : MainView)
    (r : bool) (s : SceneManager) :
  animationPart (handleResize w mainView r s) = animationPart s.
Proof.
  unfold handleResize.
  destruct (camera s); [| reflexivity].
  destruct r; [| reflexivity]. cbn [negb].
  rewrite if_controls_update_animation. reflexivity.
Qed.

Lemma highlightModel_animation (h : bool) (s : SceneManager) :
  animationPart (highlightModel h s) = animationPart s.
Proof. unfold highlightModel. destruct (core s); reflexivity. Qed.

Lemma selectionPointerUp_animation (ev : PointerEvent) (hits : bool)
    (s : SceneManager) :
  animationPart (selectionPointerUp ev hits s) = animationPart s.
Proof.
  unfold selectionPointerUp. destruct (core s); [| reflexivity].
  destruct (negb _); reflexivity.
Qed.

Lemma toggleAxes_animation (visible : option bool) (s : SceneManager) :
  animationPart (toggleAxes visible s) = animationPart s.
Proof. unfold toggleAxes. destruct (axesActor s); reflexivity. Qed.

Lemma setSensitivities_animation (cfg : SensitivityCfg) (s : SceneManager) :
  animationPart (setSensitivities cfg s) = animationPart s.
Proof. rewrite setSensitivities_merged. reflexivity. Qed.

(** A further [rotateModelByDegrees] leaves every waiting callback in the
    queue: the cancel token it sets is cleared again before it returns. *)
Lemma rotateModelByDegrees_queued `{ThreeServices} (w : Window) (degrees : R)
    (axis : AxisArg) (dur : R) (space : string) (k : RotationStep)
    (s : SceneManager) :
  queued k s -> queued k (rotateModelByDegrees w degrees axis dur space s).
Proof.
  intros [Hk [Ht Hg]]. unfold queued, rotateModelByDegrees.
  destruct (artifactGroup s) as [g |] eqn:Eg; [| contradiction].
  destruct (Rle_dec dur 0); destruct (_rotationAnimating s); scene;
    rewrite ?Eg; (split; [| split; [reflexivity | discriminate]]);
    try exact Hk; apply in_or_app; left; exact Hk.
Qed.

Lemma runCallbacks_queued `{ThreeServices} (now : R) (ks : list RotationStep) :
  forall t,
    _rotationCancelToken t = false -> artifactGroup t <> None ->
    let r := runCallbacks ks now t in
    _rotationCancelToken r = false
    /\ artifactGroup r <> None
    /\ (forall k,
          In k (frameCallbacks t) \/ (In k ks /\ now - startTime k < duration k) ->
          In k (frameCallbacks r)).
Proof.
  induction ks as [| k0 rest IH]; intros t Ht Hg r; subst r.
  - cbn [runCallbacks]. split; [exact Ht |]. split; [exact Hg |].
    intros k [Hk | [[] _]]. exact Hk.
  - cbn [runCallbacks]. unfold step. rewrite Ht.
    destruct (artifactGroup t) as [g |] eqn:Eg; [| contradiction].
    destruct (Rlt_dec (now - startTime k0) (duration k0)) as [Early | Late].
    + set (t2 := set_frameCallbacks _ _).
      assert (Ht2 : _rotationCancelToken t2 = false) by exact Ht.
      assert (Hg2 : artifactGroup t2 <> None) by (subst t2; scene; discriminate).
      destruct (IH t2 Ht2 Hg2) as [R1 [R2 R3]].
      split; [exact R1 |]. split; [exact R2 |].
      intros k [Hk | [[E | Hk] He]].
      * apply R3. left. subst t2. scene. apply in_or_app. left. exact Hk.
      * apply R3. left. subst t2. scene. apply in_or_app. right. left. exact E.
      * apply R3. right. split; assumption.
    + set (t2 := set_rotationAnimating false _).
      assert (Ht2 : _rotationCancelToken t2 = false) by exact Ht.
      assert (Hg2 : artifactGroup t2 <> None) by (subst t2; scene; discriminate).
      destruct (IH t2 Ht2 Hg2) as [R1 [R2 R3]].
      split; [exact R1 |]. split; [exact R2 |].
      intros k [Hk | [[E | Hk] He]].
      * apply R3. left. exact Hk.
      * subst k0. contradiction.
      * apply R3. right. split; assumption.
Qed.

Lemma animate_animation `{ThreeServices} (s : SceneManager) :
  animationPart (animate s) = animationPart s.
Proof.
  unfold animate.
  pose proof (if_controls_update_animation s) as E.
  destruct (axesActor (if_controls_update s)); [| exact E].
  destruct (camera (if_controls_update s)); [| exact E].
  rewrite <- E. reflexivity.
Qed.

Lemma animationFrame_queued `{ThreeServices} (now : R) (k : RotationStep)
    (s : SceneManager) :
  now - startTime k < duration k ->
  queued k s -> queued k (animationFrame now s).
Proof.
  intros He Hq.
  assert (Hq1 : queued k (animate s))
    by (eapply queued_part; [apply animate_animation | exact Hq]).
  destruct Hq1 as [Hk [Ht Hg]].
  unfold animationFrame.
  destruct (runCallbacks_queued now (frameCallbacks (animate s))
              (set_frameCallbacks [] (animate s)) Ht Hg) as [R1 [R2 R3]].
  split; [| split; [exact R1 | exact R2]].
  apply R3. right. split; [exact Hk | exact He].
Qed.

(** X11.  Nothing cancels an animated rotation.  While its callback [k] is
    queued, whatever is asked of the scene manager, further rotations
    included, and however many frames run before the end of its duration,
    [k] stays in the queue and the cancel token reads false: the only
    place that sets the token, the start of [rotateModelByDegrees], clears
    it again before returning, so the branch of the callback that would
    stop the animation is never taken. *)
Theorem animated_rotation_is_never_cancelled `{ThreeServices} (w : Window)
    (k : RotationStep) (ops : list SceneOp) (s : SceneManager) :
  setPresetViewQuaternion w = None ->
  queued k s ->
  (forall now, In (OpFrame now) ops -> now - startTime k < duration k) ->
  queued k (applyOps w ops s).
Proof.
  intros Hw. unfold applyOps. revert s.
  induction ops as [| op rest IH]; intros s Hq Hearly; [exact Hq |].
  cbn [fold_left]. apply IH.
  - destruct op; cbn [applyOp].
    + eapply queued_part; [apply onload_animation | exact Hq].
    + eapply queued_part; [apply setFeatureAngle_animation | exact Hq].
    + eapply queued_part; [apply setVisualStyle_animation | exact Hq].
    + eapply queued_part; [apply highlightModel_animation | exact Hq].
    + eapply queued_part; [apply selectionPointerUp_animation | exact Hq].
    + eapply queued_part; [apply fitModelToView_animation | exact Hq].
    + eapply queued_part; [apply setPresetView_animation, Hw | exact Hq].
    + apply rotateModelByDegrees_queued, Hq.
    + apply animationFrame_queued; [| exact Hq]. apply Hearly. left. reflexivity.
    + eapply queued_part; [apply toggleAxes_animation | exact Hq].
    + eapply queued_part; [apply handleResize_animation | exact Hq].
    + eapply queued_part; [apply setSensitivities_animation | exact Hq].
  - intros now Hin. apply Hearly. right. exact Hin.
Qed.

Lemma animated_rotation_is_never_cancelled_witness :
  queued spinStep
    (@applyOps plainThree plainWindow
       [OpRotate 90 (AxisName "x") 300 "world"; OpFrame 1100;
        OpRotate 45 (AxisName "z") 0 "local"; OpFrame 1200]
       spinningScene).
Proof.
  apply (@animated_rotation_is_never_cancelled plainThree plainWindow spinStep).
  - reflexivity.
  - unfold queued, spinningScene, rotateModelByDegrees.
    cbn [artifactGroup sampleScene].
    destruct (Rle_dec 600 0) as [L | _]; [lra |].
    split; [left; reflexivity | split; [reflexivity | discriminate]].
  - intros now [E | [E | [E | [E | []]]]]; try discriminate E;
      injection E as <-; cbn [startTime duration spinStep]; lra.
Defined.

Lemma rotateModelByDegrees_now_pending `{ThreeServices} (w : Window) (degrees : R)
    (axis : AxisArg) (dur : R) (space : string) (k : RotationStep)
    (s : SceneManager) :
  dur <= 0 -> pendingRotation k s ->
  pendingRotation k (rotateModelByDegrees w degrees axis dur space s).
Proof.
  intros Hd [Hf [[g Hg] Ht]].
  rewrite (rotateModelByDegrees_now w degrees axis dur space s g Hg Hd).
  unfold pendingRotation. scene.
  split; [exact Hf |]. split; [eexists; reflexivity | reflexivity].
Qed.

(** X12.  An immediate rotation (duration 0) asked for while an animated one is
    running does not last.  The animation's callback writes the model
    quaternion at every frame and ends on the end quaternion it computed
    when it started, so once the animation is over the model is where it
    would be had the immediate rotation never been asked for. *)
Theorem rotation_during_animation_is_overwritten `{ThreeServices} (w : Window)
    (k : RotationStep) (s : SceneManager) (degrees : R) (axis : AxisArg)
    (dur : R) (space : string) (before after : list R) (final : R) :
  pendingRotation k s ->
  dur <= 0 ->
  (forall t, In t before \/ In t after -> t - startTime k < duration k) ->
  duration k <= final - startTime k ->
  let interrupted :=
    animationFrames (after ++ [final])
      (rotateModelByDegrees w degrees axis dur space (animationFrames before s)) in
  let undisturbed := animationFrames (before ++ after ++ [final]) s in
  modelQuaternion interrupted = Some (endQ k)
  /\ modelQuaternion interrupted = modelQuaternion undisturbed.
Proof.
  intros Hp Hd Hearly Hfinal interrupted undisturbed.
  assert (Hb : pendingRotation k (animationFrames before s)).
  { apply frames_early; [exact Hp |]. intros t Ht. apply Hearly. left. exact Ht. }
  assert (Hi : modelQuaternion interrupted = Some (endQ k)).
  { subst interrupted. rewrite animationFrames_app.
    unfold animationFrames at 1. cbn [fold_left].
    apply (frame_final k); [| exact Hfinal].
    apply frames_early.
    - apply rotateModelByDegrees_now_pending; [exact Hd | exact Hb].
    - intros t Ht. apply Hearly. right. exact Ht. }
  assert (Hu : modelQuaternion undisturbed = Some (endQ k)).
  { subst undisturbed. rewrite !animationFrames_app.
    unfold animationFrames at 1. cbn [fold_left].
    apply (frame_final k); [| exact Hfinal].
    apply frames_early; [exact Hb |].
    intros t Ht. apply Hearly. right. exact Ht. }
  split; [exact Hi | rewrite Hi, Hu; reflexivity].
Qed.

Lemma rotation_during_animation_is_overwritten_witness :
  modelQuaternion
    (@animationFrames plainThree ([1300] ++ [1700])
       (@rotateModelByDegrees plainThree plainWindow 90 (AxisName "x") 0 "world"
          (@animationFrames plainThree [1100] spinningScene)))
  = Some (endQ spinStep).
Proof.
  refine (proj1 (@rotation_during_animation_is_overwritten plainThree plainWindow
                   spinStep spinningScene 90 (AxisName "x") 0 "world"
                   [1100] [1300] 1700 _ _ _ _)).
  - unfold pendingRotation, spinningScene, rotateModelByDegrees.
    cbn [artifactGroup sampleScene].
    destruct (Rle_dec 600 0) as [L | _]; [lra |].
    split; [reflexivity | split; [eexists; reflexivity | reflexivity]].
  - lra.
  - intros t [[E | []] | [E | []]]; subst t; cbn [startTime duration spinStep]; lra.
  - cbn [startTime duration spinStep]. lra.
Defined.

(** ** The pointer handlers *)

Lemma applyQuaternion_identity (v : Vector3) : applyQuaternion v identityQ = v.
Proof. apply v3_eq; unfold applyQuaternion, identityQ; simpl; ring. Qed.

Lemma setLength_own_length (v : Vector3) : setLength v (length v) = v.
Proof.
  unfold setLength, normalize, num_or.
  destruct (Req_dec_T (length v) 0) as [E | N].
  - apply length_zero_iff in E. subst v.
    unfold divideScalar, multiplyScalar, zero3. apply v3_eq; simpl; ring.
  - unfold divideScalar, multiplyScalar. apply v3_eq; simpl; field; exact N.
Qed.

Lemma add_sub_cancel (t p : Vector3) : add t (sub p t) = p.
Proof. apply v3_eq; simpl; ring. Qed.

Lemma add_zero_r (p off : Vector3) : off = zero3 -> add p off = p.
Proof. intros ->. apply v3_eq; simpl; ring. Qed.

Lemma cam_set_position_same (c : Camera) : cam_set_position (cam_position c) c = c.
Proof. destruct c; reflexivity. Qed.

Lemma ctl_set_target_same (c : Controls) : ctl_set_target (target c) c = c.
Proof. destruct c; reflexivity. Qed.

Lemma grp_set_quaternion_same (g : Group) : grp_set_quaternion (grp_quaternion g) g = g.
Proof. destruct g; reflexivity. Qed.

Lemma set_camera_same (s : SceneManager) (c : Camera) :
  camera s = Some c -> set_camera (Some c) s = s.
Proof. intros E. destruct s. cbn in E. subst. reflexivity. Qed.

Lemma set_controls_same (s : SceneManager) (c : Controls) :
  controls s = Some c -> set_controls (Some c) s = s.
Proof. intros E. destruct s. cbn in E. subst. reflexivity. Qed.

Lemma set_artifactGroup_same (s : SceneManager) (g : Group) :
  artifactGroup s = Some g -> set_artifactGroup (Some g) s = s.
Proof. intros E. destruct s. cbn in E. subst. reflexivity. Qed.

(** A pointer event that reports no displacement, whatever time has
    passed, gives rotations by the angle 0 and a pan by the vector 0. *)
Lemma still_quaternions `{ThreeServices} (w : Window) (s : SceneManager)
    (cam : Camera) (rs dt : R) :
  azimuthQuat w s cam 0 0 dt = identityQ
  /\ elevationQuat w s cam 0 0 dt = identityQ
  /\ combinedQuat w s cam 0 0 dt = identityQ
  /\ rotateQuaternion rs s cam 0 0 dt = identityQ
  /\ panOffset w s cam 0 0 dt = zero3.
Proof.
  assert (A : azimuthQuat w s cam 0 0 dt = identityQ).
  { unfold azimuthQuat.
    replace (-100.0 * (0 / rect_width w) * orbitMult s 0 0 dt * PI / 180.0) with 0
      by (unfold Rdiv; ring).
    apply setFromAxisAngle_zero. }
  assert (E : elevationQuat w s cam 0 0 dt = identityQ).
  { unfold elevationQuat.
    replace (-100.0 * (0 / rect_height w) * orbitMult s 0 0 dt * PI / 180.0) with 0
      by (unfold Rdiv; ring).
    apply setFromAxisAngle_zero. }
  split; [exact A |]. split; [exact E |]. split; [| split].
  - unfold combinedQuat. rewrite A, E. apply multiplyQuaternions_identity_l.
  - unfold rotateQuaternion.
    replace (0 * rs * rotateSpeedMult s 0 0 dt) with 0 by ring.
    rewrite !setFromAxisAngle_zero. apply multiplyQuaternions_identity_l.
  - unfold panOffset, moveX, moveY, addScaledVector, multiplyScalar, zero3.
    apply v3_eq; cbn [vx vy vz]; ring.
Qed.

(** X13.  A [pointermove] of the dragging pointer that reports the coordinates
    of the event before it moves nothing: the pan handler hands the scene
    as it is to the controls update, the rotate branch leaves the model
    quaternion as it is, and the orbit handler keeps the camera where it
    is, while it still replaces the up vector by its normalization and
    aims the camera at the target again. *)
Theorem still_pointer_moves_nothing `{ThreeServices} (w : Window)
    (ev : PointerEvent) (s : SceneManager) (cam : Camera) :
  camera s = Some cam ->
  (forall h,
     qr_rotating h = true -> otherPointer (qr_activePointerId h) ev = false ->
     clientX ev = qr_lastX h -> clientY ev = qr_lastY h ->
     (mode h = ModePan -> snd (qr_onPointerMove w ev h s) = if_controls_update s)
     /\ (mode h = ModeRotate -> snd (qr_onPointerMove w ev h s) = s))
  /\ (forall h,
        rotating h = true -> otherPointer (activePointerId h) ev = false ->
        clientX ev = lastX h -> clientY ev = lastY h ->
        exists cam1,
          snd (onPointerMove w ev h s)
          = if_controls_update (set_camera (Some cam1) s)
          /\ cam_position cam1 = cam_position cam
          /\ cam_up cam1 = normalize (cam_up cam)
          /\ cam_quaternion cam1
             = lookAt (cam_position cam) (orbitTarget s) (normalize (cam_up cam))).
Proof.
  intros Hc. split.
  - intros h Hr Ho Hx Hy.
    unfold qr_onPointerMove. rewrite Hr, Ho, Hc. cbn [negb].
    rewrite Hx, Hy.
    replace (qr_lastX h - qr_lastX h) with 0 by ring.
    replace (qr_lastY h - qr_lastY h) with 0 by ring.
    set (dt := elapsedSince _ _).
    destruct (still_quaternions w s cam (rotSpeed h) dt) as [_ [_ [_ [Q P]]]].
    split; intros Hm; rewrite Hm; cbn [snd].
    + rewrite P. f_equal. unfold pan_assign.
      destruct (controls s) as [ctl |] eqn:Ec.
      * rewrite !add_zero_r by reflexivity.
        rewrite cam_set_position_same, ctl_set_target_same.
        rewrite (set_controls_same s ctl Ec). apply set_camera_same, Hc.
      * rewrite add_zero_r by reflexivity.
        rewrite cam_set_position_same. apply set_camera_same, Hc.
    + rewrite Q. destruct (artifactGroup s) as [g |] eqn:Eg; [| reflexivity].
      unfold premultiply. rewrite multiplyQuaternions_identity_l.
      rewrite grp_set_quaternion_same. apply set_artifactGroup_same, Eg.
  - intros h Hr Ho Hx Hy.
    unfold onPointerMove. rewrite Hr, Ho, Hc. cbn [negb snd].
    rewrite Hx, Hy.
    replace (lastX h - lastX h) with 0 by ring.
    replace (lastY h - lastY h) with 0 by ring.
    set (dt := elapsedSince _ _).
    destruct (still_quaternions w s cam 0 dt) as [_ [E [C _]]].
    eexists. split; [reflexivity |].
    unfold orbit_assign, camera_lookAt. scene.
    rewrite E, C, !applyQuaternion_identity, setLength_own_length, add_sub_cancel.
    repeat split; reflexivity.
Qed.

Lemma still_pointer_moves_nothing_witness :
  snd (@qr_onPointerMove plainThree plainWindow
         (mkPointerEvent 1 true false false 100 100 7 1016 true)
         panHandler sampleScene)
  = @if_controls_update plainThree sampleScene.
Proof.
  refine (proj1 (proj1 (@still_pointer_moves_nothing plainThree plainWindow
                          (mkPointerEvent 1 true false false 100 100 7 1016 true)
                          sampleScene frontCamera eq_refl)
                   panHandler _ _ _ _) _); reflexivity.
Defined.

Lemma dot_normalize (a b : Vector3) : dot a b = 0 -> dot (normalize a) (normalize b) = 0.
Proof.
  intros E. unfold dot in *. unfold normalize, divideScalar, multiplyScalar.
  cbn [vx vy vz].
  replace (vx a * (1 / num_or (length a) 1) * (vx b * (1 / num_or (length b) 1))
           + vy a * (1 / num_or (length a) 1) * (vy b * (1 / num_or (length b) 1))
           + vz a * (1 / num_or (length a) 1) * (vz b * (1 / num_or (length b) 1)))
    with ((vx a * vx b + vy a * vy b + vz a * vz b)
          * ((1 / num_or (length a) 1) * (1 / num_or (length b) 1))) by ring.
  rewrite E. ring.
Qed.

Lemma dot_cross_l (u f : Vector3) : dot (crossVectors u f) u = 0.
Proof. unfold dot, crossVectors. cbn [vx vy vz]. ring. Qed.

Lemma lengthSq_combination (r u : Vector3) (a b : R) :
  lengthSq r = 1 -> lengthSq u = 1 -> dot r u = 0 ->
  lengthSq (addScaledVector (multiplyScalar r a) u b) = a * a + b * b.
Proof.
  unfold lengthSq, dot, addScaledVector, multiplyScalar. cbn [vx vy vz].
  intros Hr Hu Hd.
  replace ((vx r * a + vx u * b) * (vx r * a + vx u * b)
           + (vy r * a + vy u * b) * (vy r * a + vy u * b)
           + (vz r * a + vz u * b) * (vz r * a + vz u * b))
    with (a * a * (vx r * vx r + vy r * vy r + vz r * vz r)
          + b * b * (vx u * vx u + vy u * vy u + vz u * vz u)
          + 2 * a * b * (vx r * vx u + vy r * vy u + vz r * vz u)) by ring.
  rewrite Hr, Hu, Hd. ring.
Qed.

(** X14.  One pan step scales both pointer deltas by the same factor, world
    units per pixel of canvas height times the speed multiplier, whatever
    the canvas width; with an up vector other than 0 that is not parallel
    to the view direction, the camera and the target move by exactly the
    pointer distance times that factor. *)
Theorem pan_step_is_isotropic `{ThreeServices} (w : Window) (s : SceneManager)
    (cam : Camera) (dx dy dt : R) :
  rect_width w <> 0 ->
  let k := frustumSize s / rect_height w * panMult s dx dy dt in
  moveX w s dx dy dt = dx * k
  /\ moveY w s dx dy dt = dy * k
  /\ (cam_up cam <> zero3 ->
      crossVectors (cam_up cam) (getWorldDirection cam) <> zero3 ->
      lengthSq (panOffset w s cam dx dy dt) = k * k * (dx * dx + dy * dy)).
Proof.
  intros Hw k.
  assert (Ex : moveX w s dx dy dt = dx * k).
  { subst k. unfold moveX, Rdiv.
    replace (dx * (frustumSize s * (rect_width w * / rect_height w) * / rect_width w)
             * panMult s dx dy dt)
      with (dx * (frustumSize s * / rect_height w * (rect_width w * / rect_width w))
            * panMult s dx dy dt) by ring.
    rewrite Rinv_r by exact Hw. ring. }
  assert (Ey : moveY w s dx dy dt = dy * k).
  { subst k. unfold moveY. ring. }
  split; [exact Ex |]. split; [exact Ey |].
  intros Hu Hc. unfold panOffset, getCameraRight.
  rewrite lengthSq_combination.
  - rewrite Ex, Ey. ring.
  - apply lengthSq_normalize. exact Hc.
  - apply lengthSq_normalize. exact Hu.
  - apply dot_normalize, dot_cross_l.
Qed.

Lemma pan_step_is_isotropic_witness :
  @moveX plainThree plainWindow sampleScene 10 20 16
  = 10 * (frustumSize sampleScene / @rect_height plainThree plainWindow
          * panMult sampleScene 10 20 16)
  /\ @moveY plainThree plainWindow sampleScene 10 20 16
     = 20 * (frustumSize sampleScene / @rect_height plainThree plainWindow
             * panMult sampleScene 10 20 16).
Proof.
  assert (Hw : @rect_width plainThree plainWindow <> 0)
    by (cbn [rect_width plainWindow]; lra).
  destruct (@pan_step_is_isotropic plainThree plainWindow sampleScene frontCamera
              10 20 16 Hw) as [Hx [Hy _]].
  split; [exact Hx | exact Hy].
Defined.

(** X15.  With both handlers idle, a press starts at most one drag and changes
    nothing in the scene.  The pan drag starts exactly on a Shift+middle
    press on the canvas while the controls' own rotation is disabled, and
    it is in pan mode; the orbit drag starts exactly on a middle press on
    the canvas without Shift, Ctrl or Alt.  Left and right presses start
    nothing. *)
Theorem a_press_starts_one_drag `{ThreeServices} (w : Window) (ev : PointerEvent)
    (v : Viewer) :
  qr_rotating (quaternionRotation v) = false ->
  rotating (cameraOrbit v) = false ->
  let v' := dispatch w (PointerDown ev) v in
  manager v' = manager v
  /\ (qr_rotating (quaternionRotation v') = true
      <-> targetInCanvas ev = true /\ button ev = 1%Z /\ shiftKey ev = true
          /\ controlsRotate (manager v) = false)
  /\ (rotating (cameraOrbit v') = true
      <-> targetInCanvas ev = true /\ button ev = 1%Z /\ shiftKey ev = false
          /\ ctrlKey ev = false /\ altKey ev = false)
  /\ (qr_rotating (quaternionRotation v') = true ->
      mode (quaternionRotation v') = ModePan
      /\ qr_activePointerId (quaternionRotation v') = Some (pointerId ev))
  /\ (rotating (cameraOrbit v') = true ->
      activePointerId (cameraOrbit v') = Some (pointerId ev))
  /\ (qr_rotating (quaternionRotation v') && rotating (cameraOrbit v') = false).
Proof.
  intros Hq Ho v'. subst v'.
  destruct v as [s hq ho]. cbn [quaternionRotation cameraOrbit manager] in *.
  unfold dispatch, qr_onPointerDown, onPointerDown.
  cbn [quaternionRotation cameraOrbit manager].
  destruct (targetInCanvas ev); cbn [quaternionRotation cameraOrbit manager negb];
    [| rewrite Hq, Ho; repeat split; intros; try discriminate;
       match goal with H : _ /\ _ |- _ => destruct H; discriminate end].
  destruct (Z.eqb_spec (button ev) 1) as [Eb | Nb]; cbn [negb].
  - destruct (shiftKey ev); cbn [negb orb].
    + destruct (controlsRotate s); cbn [qr_rotating mode qr_activePointerId];
        rewrite ?Hq, ?Ho; repeat split; intros; try discriminate; try tauto;
        try reflexivity;
        repeat match goal with H : _ /\ _ |- _ => destruct H end; try discriminate.
    + destruct (ctrlKey ev), (altKey ev); cbn [orb rotating activePointerId];
        rewrite ?Hq, ?Ho; repeat split; intros; try discriminate; try tauto;
        try reflexivity;
        repeat match goal with H : _ /\ _ |- _ => destruct H end; try discriminate.
  - rewrite Hq, Ho. repeat split; intros; try discriminate;
      repeat match goal with H : _ /\ _ |- _ => destruct H end; try contradiction.
Qed.

Lemma a_press_starts_one_drag_witness :
  qr_rotating
    (quaternionRotation
       (@dispatch plainThree plainWindow (PointerDown shiftMiddleDown) idleViewer))
  = true
  /\ rotating
       (cameraOrbit
          (@dispatch plainThree plainWindow (PointerDown shiftMiddleDown) idleViewer))
     = false.
Proof.
  destruct (@a_press_starts_one_drag plainThree plainWindow shiftMiddleDown
              idleViewer eq_refl eq_refl) as [_ [Hp [_ [_ [_ Hx]]]]].
  assert (Hq : qr_rotating
                 (quaternionRotation
                    (@dispatch plainThree plainWindow (PointerDown shiftMiddleDown)
                       idleViewer)) = true).
  { apply Hp. repeat split; reflexivity. }
  split; [exact Hq |].
  rewrite Hq in Hx. exact Hx.
Defined.






(** ** The loader's file name and geometry *)

Lemma noDotSlash_app_dot (a b : string) : noDotSlash (a ++ String "."%char b) = false.
Proof.
  induction a as [| c r IH]; cbn [String.append noDotSlash].
  - reflexivity.
  - rewrite IH. destruct (Ascii.eqb c "."%char), (Ascii.eqb c "/"%char); reflexivity.
Qed.

Lemma app_dot_nonempty (a b : string) : String.eqb (a ++ String "."%char b) "" = false.
Proof. destruct a; reflexivity. Qed.

Lemma stripExtension_ext (base ext : string) :
  ext <> "" -> noDotSlash ext = true ->
  stripExtension (base ++ String "."%char ext) = base.
Proof.
  intros He Hn.
  assert (Ee : String.eqb ext "" = false) by (apply String.eqb_neq; exact He).
  induction base as [| c r IH]; cbn [String.append stripExtension].
  - rewrite Ee, Hn. reflexivity.
  - rewrite noDotSlash_app_dot, IH.
    destruct (Ascii.eqb c "."%char); cbn [andb]; rewrite ?andb_false_r; reflexivity.
Qed.

Lemma stripExtension_trailing_dot (base : string) :
  stripExtension (base ++ ".") = base ++ ".".
Proof.
  induction base as [| c r IH]; cbn [String.append stripExtension].
  - reflexivity.
  - rewrite noDotSlash_app_dot, IH.
    destruct (Ascii.eqb c "."%char); cbn [andb]; rewrite ?andb_false_r; reflexivity.
Qed.

Lemma stripExtension_no_dot (s : string) :
  noDotSlash s = true -> stripExtension s = s.
Proof.
  induction s as [| c r IH]; cbn [noDotSlash stripExtension]; [reflexivity |].
  intros H. apply andb_prop in H. destruct H as [H1 Hr].
  apply andb_prop in H1. destruct H1 as [Hd _].
  apply negb_true_iff in Hd. rewrite Hd. cbn [andb]. rewrite (IH Hr). reflexivity.
Qed.

(** X17.  The name the loader gives the mesh is the file name without its last
    extension: a name [base.ext], with [ext] not empty and free of dots and
    slashes, becomes [base], however many dots [base] has; a name that
    ends in a dot, or has neither dot nor slash, is kept; a file without a
    name gives 'model'. *)
Theorem mesh_name_drops_last_extension `{ThreeServices} (w : Window)
    (geometry0 : list Vector3) (s : SceneManager) (base ext : string) :
  (forall fileName,
     option_map name (core (onload w fileName (Some geometry0) s))
     = Some (stripExtension (str_or fileName "model")))
  /\ (ext <> "" -> noDotSlash ext = true ->
      stripExtension (base ++ "." ++ ext) = base)
  /\ stripExtension (base ++ ".") = base ++ "."
  /\ (noDotSlash base = true -> stripExtension base = base)
  /\ option_map name (core (onload w "" (Some geometry0) s)) = Some "model".
Proof.
  assert (Hname : forall fileName,
             option_map name (core (onload w fileName (Some geometry0) s))
             = Some (stripExtension (str_or fileName "model"))).
  { intros fileName.
    set (s3 := replaceCore fileName (normalizeGeometry geometry0) s).
    assert (H3 : option_map name (core s3)
                 = Some (stripExtension (str_or fileName "model"))).
    { subst s3. unfold replaceCore, addToGroup, removeFromGroup.
      destruct (core s) as [old |] eqn:Ho; destruct (artifactGroup s) eqn:Hg;
        settle; reflexivity. }
    destruct (core s3) as [m |] eqn:Hc3; [| discriminate H3].
    destruct (rebuildEdges_overlay s3 m Hc3) as [Hc4 _]. cbv zeta in Hc4.
    set (s4 := _rebuildEdges s3) in *.
    pose proof (setVisualStyle_sameModel (_visualStyle s4) s4) as [Hc5 _].
    set (s5 := setVisualStyle (_visualStyle s4) s4) in *.
    assert (Hd : display (onload w fileName (Some geometry0) s) = display s5).
    { unfold onload. fold s3 s4 s5. rewrite if_controls_update_display.
      destruct (core s5); [apply fitModelToView_display | reflexivity]. }
    destruct (display_fields _ _ Hd) as [F1 _].
    rewrite F1, Hc5, Hc4. exact H3. }
  split; [exact Hname |].
  split; [apply stripExtension_ext |].
  split; [apply stripExtension_trailing_dot |].
  split; [apply stripExtension_no_dot |].
  rewrite Hname. reflexivity.
Qed.

(** ** Further properties of the settings panel *)

Lemma with_form_same `{JsNumber} (p : Page) : with_form (form p) p = p.
Proof. destruct p; reflexivity. Qed.

Lemma form_eta (f : Form) :
  mkForm (setting_bgcolor f) (setting_font f) (setting_fontsize f)
    (setting_mousemode f) (setting_featureangle f) = f.
Proof. destruct f; reflexivity. Qed.

(** X20.  At the edges of the storage.  With nothing saved under
    'viewer.settings', [loadSettings] leaves the page as it is: no input is
    written and nothing is applied.  When the storage refuses the write,
    [applySettings] still applies the values to the page but the storage
    keeps what it had, so a later [loadSettings] shows what it would have
    shown without the apply. *)
Theorem settings_storage_edges `{JsNumber} (p : Page) :
  (items (localStorage p) "viewer.settings" = None -> loadSettings p = p)
  /\ form (applySettings p) = form p
  /\ (writable (localStorage p) = false ->
      localStorage (applySettings p) = localStorage p
      /\ form (loadSettings (applySettings p)) = form (loadSettings p)).
Proof.
  split; [| split].
  - intros Hn. unfold loadSettings, getSaved. rewrite Hn.
    cbn [property truthy opt_effect app]. rewrite app_nil_r, form_eta.
    destruct p; reflexivity.
  - reflexivity.
  - intros Hw.
    assert (E : localStorage (applySettings p) = localStorage p).
    { unfold applySettings, setItem. cbn [localStorage]. rewrite Hw. reflexivity. }
    split; [exact E |].
    unfold loadSettings. rewrite E. reflexivity.
Qed.

(** X21.  After [resetSettings], with a writable storage, [loadSettings] shows
    the defaults in every input of the page, whatever the inputs held
    before the reset and whatever they show when it runs: '#8a8888', the
    default font list, '14', 'Default' and the text of the number 30.  The
    reset itself leaves the defaults in the inputs, writable storage or
    not. *)
Theorem reset_then_load_shows_defaults `{JsNumber} (p : Page) (shown : Form) :
  writable (localStorage p) = true ->
  sameInputs (form p) shown ->
  isFinite (Number "30") = true ->
  let defaults f :=
    mkForm (assign (setting_bgcolor f) "#8a8888")
      (assign (setting_font f) defaultFont)
      (assign (setting_fontsize f) "14")
      (assign (setting_mousemode f) "Default") in
  form (resetSettings p) = defaults (form p) (assign (setting_featureangle (form p)) "30")
  /\ form (loadSettings (with_form shown (resetSettings p)))
     = defaults shown (assign (setting_featureangle shown) (toString (Number "30"))).
Proof.
  intros Hw Hsame Hfin defaults. subst defaults. cbv beta.
  split; [reflexivity |].
  unfold resetSettings.
  set (p' := with_form _ p).
  assert (Hw' : writable (localStorage p') = true) by exact Hw.
  unfold loadSettings. rewrite (saved_after_apply p' shown Hw').
  subst p'. cbn [form with_form].
  destruct Hsame as [Sb [Sf [Ss [Sm Sa]]]].
  destruct p as [[b f s m a] st ef].
  cbn [form setting_bgcolor setting_font setting_fontsize setting_mousemode
       setting_featureangle] in *.
  unfold JSON_stringify, featureNumber.
  cbn [bgcolor font fontsize mousemode featureAngle].
  f_equal.
  - destruct b as [b |]; cbn.
    + reflexivity.
    + rewrite (proj1 Sb eq_refl).
      destruct f, s, m, a; reflexivity.
  - destruct f as [f |].
    + destruct b; reflexivity.
    + rewrite (proj1 Sf eq_refl).
      destruct b, s, m, a; reflexivity.
  - destruct s as [s |].
    + destruct b, f; reflexivity.
    + rewrite (proj1 Ss eq_refl).
      destruct b, f, m, a; reflexivity.
  - destruct m as [m |].
    + destruct b, f, s; reflexivity.
    + rewrite (proj1 Sm eq_refl).
      destruct b, f, s, a; reflexivity.
  - destruct a as [a |].
    + destruct b, f, s, m; cbn; rewrite Hfin; reflexivity.
    + rewrite (proj1 Sa eq_refl).
      destruct b, f, s, m; reflexivity.
Qed.

Lemma reset_then_load_shows_defaults_witness :
  form (@loadSettings wholeNumbers
          (with_form filledForm
             (@resetSettings wholeNumbers (mkPage clearedForm emptyStorage []))))
  = mkForm (Some "#8a8888") (Some defaultFont) (Some "14") (Some "Default")
      (Some "30").
Proof.
  refine (proj2 (@reset_then_load_shows_defaults wholeNumbers
                   (mkPage clearedForm emptyStorage []) filledForm eq_refl _ eq_refl)).
  unfold sameInputs. cbn. repeat split; intros E; discriminate E.
Defined.

Lemma eqb_nonempty (v : string) : v <> "" -> String.eqb v "" = false.
Proof. intros Hv. apply String.eqb_neq. exact Hv. Qed.

(** X22.  The round trip the other way.  When the saved object holds the five
    settings, the texts not empty and the feature angle a finite number
    that its own text reads back to, and the page has the five inputs,
    [loadSettings] followed by [applySettings] shows the saved values and
    saves the very same object again. *)
Theorem apply_after_load_saves_the_same `{JsNumber} (p : Page)
    (b f s m : string) (n : number) (shown : Form) :
  writable (localStorage p) = true ->
  items (localStorage p) "viewer.settings"
  = Some (JSON_stringify (mkCfg (Some b) (Some f) (Some s) (Some m) (Some n))) ->
  form p = shown ->
  setting_bgcolor shown <> None -> setting_font shown <> None ->
  setting_fontsize shown <> None -> setting_mousemode shown <> None ->
  setting_featureangle shown <> None ->
  b <> "" -> f <> "" -> s <> "" -> m <> "" ->
  isFinite n = true -> toString n <> "" -> Number (toString n) = n ->
  form (applySettings (loadSettings p))
  = mkForm (Some b) (Some f) (Some s) (Some m) (Some (toString n))
  /\ items (localStorage (applySettings (loadSettings p))) "viewer.settings"
     = items (localStorage p) "viewer.settings".
Proof.
  intros Hw Hs Hf Pb Pf Ps Pm Pa Nb Nf Ns Nm Hfin Ht Hn.
  assert (Hform : form (loadSettings p)
                  = mkForm (Some b) (Some f) (Some s) (Some m) (Some (toString n))).
  { unfold loadSettings, getSaved. rewrite Hs, Hf.
    unfold JSON_stringify. cbn [bgcolor font fontsize mousemode featureAngle member app].
    rewrite Hfin. cbn [property String.eqb Ascii.eqb Bool.eqb truthy valueText form].
    rewrite (eqb_nonempty b Nb), (eqb_nonempty f Nf), (eqb_nonempty s Ns),
      (eqb_nonempty m Nm). cbn [negb].
    destruct shown as [[vb |] [vf |] [vs |] [vm |] [va |]];
      cbn in Pb, Pf, Ps, Pm, Pa; try contradiction.
    reflexivity. }
  split; [exact Hform |].
  unfold applySettings. cbn [localStorage]. rewrite Hform.
  assert (Hl : localStorage (loadSettings p) = localStorage p) by reflexivity.
  rewrite Hl. unfold setItem. rewrite Hw. cbn [items].
  cbn [String.eqb Ascii.eqb Bool.eqb setting_bgcolor setting_font setting_fontsize
       setting_mousemode setting_featureangle option_map].
  rewrite Hs. unfold featureNumber. rewrite (eqb_nonempty _ Ht), Hn. reflexivity.
Qed.

Lemma apply_after_load_saves_the_same_witness :
  @items wholeNumbers
    (localStorage
       (@applySettings wholeNumbers
          (@loadSettings wholeNumbers
             (@applySettings wholeNumbers (mkPage filledForm emptyStorage [])))))
    "viewer.settings"
  = @items wholeNumbers
      (localStorage (@applySettings wholeNumbers (mkPage filledForm emptyStorage [])))
      "viewer.settings".
Proof.
  refine (proj2 (@apply_after_load_saves_the_same wholeNumbers
                   (@applySettings wholeNumbers (mkPage filledForm emptyStorage []))
                   "#8a8888" "Arial" "16" "Blender" (Some 45%Z) filledForm
                   eq_refl eq_refl eq_refl _ _ _ _ _ _ _ _ _ eq_refl _ eq_refl));
    discriminate.
Defined.

(** X23.  The panel is wired twice, so one click runs the listener of uiView.js
    and then the one of settingsView.js.  On Apply the second write is the
    one that stays: the storage holds what settingsView.js alone would
    have saved, feature angle included.  On Reset the inputs and the
    storage end with the defaults of settingsView.js, background '#8a8888',
    while the colour handed to [setSceneBackground] is the default of
    uiView.js, '#ffffff'; the next [loadSettings] of uiView.js hands it
    '#8a8888'. *)
Theorem one_click_runs_both_listeners `{JsNumber} (sh : UiView.Shell) (bg : string) :
  writable (localStorage (UiView.page sh)) = true ->
  setting_bgcolor (form (UiView.page sh)) = Some bg ->
  let p := UiView.page sh in
  let applied := UiView.applyClick sh in
  let reset := UiView.resetClick sh in
  form (UiView.page applied) = form p
  /\ (forall k, items (localStorage (UiView.page applied)) k
                = items (localStorage (applySettings p)) k)
  /\ UiView.sceneBackground applied = (UiView.sceneBackground sh ++ [bg])%list
  /\ form (UiView.page reset) = form (resetSettings p)
  /\ (forall k, items (localStorage (UiView.page reset)) k
                = items (localStorage (resetSettings p)) k)
  /\ UiView.sceneBackground reset = (UiView.sceneBackground sh ++ ["#ffffff"])%list
  /\ property "bgcolor" (getSaved "viewer.settings" (localStorage (UiView.page reset)))
     = Some (JString "#8a8888")
  /\ UiView.sceneBackground
       (UiView.loadSettings (UiView.mkShell (UiView.page reset) []))
     = ["#8a8888"].
Proof.
  intros Hw Hb p applied reset. subst p applied reset.
  destruct sh as [[fm st ef] bgs].
  cbn [UiView.page UiView.sceneBackground form localStorage] in *.
  unfold UiView.applyClick, UiView.resetClick, UiView.resetSettings,
    UiView.applySettings, resetSettings, applySettings, with_form, setItem.
  cbn [UiView.page UiView.sceneBackground form localStorage effects bgcolor].
  rewrite Hw. cbn [writable items].
  destruct fm as [b f s m a].
  cbn [setting_bgcolor setting_font setting_fontsize setting_mousemode
       setting_featureangle] in *.
  subst b. cbn [assign].
  split; [reflexivity |].
  split; [intros k; destruct (String.eqb k "viewer.settings"); reflexivity |].
  split; [reflexivity |].
  split; [destruct f, s, m, a; reflexivity |].
  split; [intros k; destruct (String.eqb k "viewer.settings");
          [destruct f, s, m, a; reflexivity | reflexivity] |].
  split; [reflexivity |].
  split.
  - unfold getSaved. cbn [items localStorage String.eqb Ascii.eqb Bool.eqb].
    reflexivity.
  - unfold UiView.loadSettings, getSaved.
    cbn [UiView.page UiView.sceneBackground localStorage items String.eqb
         Ascii.eqb Bool.eqb].
    reflexivity.
Qed.

Lemma one_click_runs_both_listeners_witness :
  @UiView.sceneBackground wholeNumbers
    (@UiView.resetClick wholeNumbers
       (UiView.mkShell (mkPage filledForm emptyStorage []) []))
  = ["#ffffff"]
  /\ property "bgcolor"
       (getSaved "viewer.settings"
          (localStorage
             (@UiView.page wholeNumbers
                (@UiView.resetClick wholeNumbers
                   (UiView.mkShell (mkPage filledForm emptyStorage []) [])))))
     = Some (JString "#8a8888").
Proof.
  destruct (@one_click_runs_both_listeners wholeNumbers
              (UiView.mkShell (mkPage filledForm emptyStorage []) []) "#8a8888"
              eq_refl eq_refl) as [_ [_ [_ [_ [_ [H1 [H2 _]]]]]]].
  split; [exact H1 | exact H2].
Defined.

(** ** Splitters and the context menu *)

Lemma clamp_range (lo hi x : R) : lo <= hi -> lo <= Rmax lo (Rmin hi x) <= hi.
Proof.
  intros H. split; [apply Rmax_l |].
  apply Rmax_lub; [exact H | apply Rmin_l].
Qed.

Lemma clamp_inside (lo hi x : R) : lo <= x <= hi -> Rmax lo (Rmin hi x) = x.
Proof.
  intros [H1 H2]. rewrite Rmin_right by exact H2. apply Rmax_right. exact H1.
Qed.

Lemma vertical_in_range (trace : list (option R * MouseInput)) :
  forall st,
    (forall wd, VerticalSplitter.leftWidth st = Some wd -> 150 <= wd <= 600) ->
    forall wd,
      VerticalSplitter.leftWidth
        (fold_left (fun st e => VerticalSplitter.step (fst e) (snd e) st) trace st)
      = Some wd ->
      150 <= wd <= 600.
Proof.
  induction trace as [| [o e] rest IH]; intros st Hst; [exact Hst |].
  cbn [fold_left fst snd]. apply IH.
  destruct e as [x y | x y |]; cbn [VerticalSplitter.step].
  - exact Hst.
  - destruct (VerticalSplitter.isDragging st); [| exact Hst].
    cbn [VerticalSplitter.leftWidth]. intros wd E. injection E as <-.
    apply clamp_range. lra.
  - destruct (VerticalSplitter.isDragging st); exact Hst.
Qed.

Lemma horizontal_in_range (trace : list (option R * MouseInput)) :
  forall st,
    (forall ht, HorizontalSplitter.consoleHeight st = Some ht -> 60 <= ht <= 400) ->
    forall ht,
      HorizontalSplitter.consoleHeight
        (fold_left (fun st e => HorizontalSplitter.step (fst e) (snd e) st) trace st)
      = Some ht ->
      60 <= ht <= 400.
Proof.
  induction trace as [| [o e] rest IH]; intros st Hst; [exact Hst |].
  cbn [fold_left fst snd]. apply IH.
  destruct e as [x y | x y |]; cbn [HorizontalSplitter.step].
  - exact Hst.
  - destruct (HorizontalSplitter.isDragging st); [| exact Hst].
    cbn [HorizontalSplitter.consoleHeight]. intros ht E. injection E as <-.
    apply clamp_range. lra.
  - destruct (HorizontalSplitter.isDragging st); exact Hst.
Qed.

(** X24.  Whatever the mouse does, the tree panel width a splitter drag writes
    lies between 150 and 600 pixels and the console height between 60 and
    400; inside these bounds the size follows the pointer, start size plus
    displacement; and without the button down a move writes nothing. *)
Theorem splitter_sizes_stay_in_range (trace : list (option R * MouseInput)) :
  let v :=
    fold_left (fun st e => VerticalSplitter.step (fst e) (snd e) st) trace
      VerticalSplitter.init in
  let h :=
    fold_left (fun st e => HorizontalSplitter.step (fst e) (snd e) st) trace
      HorizontalSplitter.init in
  (forall wd, VerticalSplitter.leftWidth v = Some wd -> 150 <= wd <= 600)
  /\ (forall ht, HorizontalSplitter.consoleHeight h = Some ht -> 60 <= ht <= 400)
  /\ (forall o x y,
        VerticalSplitter.isDragging v = false ->
        VerticalSplitter.step o (MouseMove x y) v = v)
  /\ (forall o x y,
        VerticalSplitter.isDragging v = true ->
        150 <= VerticalSplitter.startWidth v + (x - VerticalSplitter.startX v) <= 600 ->
        VerticalSplitter.leftWidth (VerticalSplitter.step o (MouseMove x y) v)
        = Some (VerticalSplitter.startWidth v + (x - VerticalSplitter.startX v)))
  /\ (forall o x y,
        HorizontalSplitter.isDragging h = true ->
        60 <= HorizontalSplitter.startHeight h + (HorizontalSplitter.startY h - y) <= 400 ->
        HorizontalSplitter.consoleHeight (HorizontalSplitter.step o (MouseMove x y) h)
        = Some (HorizontalSplitter.startHeight h + (HorizontalSplitter.startY h - y))).
Proof.
  intros v h.
  assert (Hv : forall wd, VerticalSplitter.leftWidth v = Some wd -> 150 <= wd <= 600).
  { apply vertical_in_range. intros wd E. discriminate E. }
  assert (Hh : forall ht, HorizontalSplitter.consoleHeight h = Some ht -> 60 <= ht <= 400).
  { apply horizontal_in_range. intros ht E. discriminate E. }
  split; [exact Hv |]. split; [exact Hh |]. split; [| split].
  - intros o x y Hd. cbn [VerticalSplitter.step]. rewrite Hd. reflexivity.
  - intros o x y Hd Hr. cbn [VerticalSplitter.step]. rewrite Hd.
    cbn [VerticalSplitter.leftWidth]. rewrite clamp_inside by exact Hr. reflexivity.
  - intros o x y Hd Hr. cbn [HorizontalSplitter.step]. rewrite Hd.
    cbn [HorizontalSplitter.consoleHeight]. rewrite clamp_inside by exact Hr.
    reflexivity.
Qed.

(** X25.  The context menu is put at the pointer, and never closer than 4
    pixels to the left and top edges.  Where it would cross the right or
    the bottom edge of the viewport it is moved back so that 8 pixels stay
    free between the menu and that edge, as far as the 4 pixels at the
    opposite edge allow.  So a menu that fits the viewport with 4 pixels to
    spare lies inside it, and one that fits at the pointer, 4 pixels or
    more from the edges, opens there. *)
Theorem context_menu_stays_in_view (x y rectWidth rectHeight : R)
    (docClientWidth docClientHeight winInnerWidth winInnerHeight : R) :
  let vw := Rmax (num_or docClientWidth 0) (num_or winInnerWidth 0) in
  let vh := Rmax (num_or docClientHeight 0) (num_or winInnerHeight 0) in
  let pos :=
    contextMenuPosition x y rectWidth rectHeight docClientWidth docClientHeight
      winInnerWidth winInnerHeight in
  4 <= fst pos /\ 4 <= snd pos
  /\ (rectWidth + 4 <= vw -> fst pos + rectWidth <= vw)
  /\ (rectHeight + 4 <= vh -> snd pos + rectHeight <= vh)
  /\ (4 <= x -> x + rectWidth <= vw -> fst pos = x)
  /\ (4 <= y -> y + rectHeight <= vh -> snd pos = y)
  /\ (vw < x + rectWidth ->
      fst pos = Rmax 4 (vw - rectWidth - 8)
      /\ (rectWidth + 12 <= vw -> fst pos + rectWidth = vw - 8))
  /\ (vh < y + rectHeight ->
      snd pos = Rmax 4 (vh - rectHeight - 8)
      /\ (rectHeight + 12 <= vh -> snd pos + rectHeight = vh - 8)).
Proof.
  intros vw vh pos. subst pos. unfold contextMenuPosition. fold vw vh.
  cbn [fst snd].
  split; [apply Rmax_l |]. split; [apply Rmax_l |].
  split; [| split; [| split; [| split; [| split]]]].
  - intros Hf. destruct (Rgt_dec (x + rectWidth) vw) as [G | N];
      unfold Rmax; destruct (Rle_dec _ _); lra.
  - intros Hf. destruct (Rgt_dec (y + rectHeight) vh) as [G | N];
      unfold Rmax; destruct (Rle_dec _ _); lra.
  - intros H4 Hf. destruct (Rgt_dec (x + rectWidth) vw) as [G | N]; [lra |].
    apply Rmax_right. exact H4.
  - intros H4 Hf. destruct (Rgt_dec (y + rectHeight) vh) as [G | N]; [lra |].
    apply Rmax_right. exact H4.
  - intros Hover. destruct (Rgt_dec (x + rectWidth) vw) as [G | N]; [| lra].
    split; [reflexivity |].
    intros Hroom. rewrite Rmax_right by lra. ring.
  - intros Hover. destruct (Rgt_dec (y + rectHeight) vh) as [G | N]; [| lra].
    split; [reflexivity |].
    intros Hroom. rewrite Rmax_right by lra. ring.
Qed.

(** ** The axes widget and its menu entry *)

Lemma if_controls_update_axes `{ThreeServices} (s : SceneManager) :
  axesActor (if_controls_update s) = axesActor s.
Proof.
  unfold if_controls_update, controls_update.
  destruct (controls s); [| reflexivity].
  destruct (camera s); [| reflexivity].
  destruct (OrbitControls_update _ _). reflexivity.
Qed.

Lemma setVisualStyle_axes (style : string) (s : SceneManager) :
  axesActor (setVisualStyle style s) = axesActor s.
Proof.
  unfold setVisualStyle, set_core_wireframe, show_edgesGroup, hide_edgesGroup.
  split_scene s; settle; try reflexivity;
    repeat match goal with
           | |- context [if ?b then _ else _] => destruct b
           end; settle; reflexivity.
Qed.

Lemma fitModelToView_axes `{ThreeServices} (w : Window)
    (object : option Object3D) (padding : R) (s : SceneManager) :
  axesActor (fitModelToView w object padding s) = axesActor s.
Proof.
  unfold fitModelToView.
  destruct object as [obj |]; [| reflexivity].
  destruct (camera s) as [cam |]; [| reflexivity].
  rewrite if_controls_update_axes.
  unfold fitModelToView_assign. scene.
  destruct (controls s); reflexivity.
Qed.

Lemma setPresetView_axes `{ThreeServices} (w : Window) (id : string)
    (object : option Object3D) (dur : R) (s : SceneManager) :
  setPresetViewQuaternion w = None ->
  axesActor (setPresetView w id object dur s) = axesActor s.
Proof.
  intros Hw. unfold setPresetView. rewrite Hw.
  destruct (camera s) as [cam |]; [| reflexivity].
  destruct (presetPosition id) as [pos |]; [| reflexivity].
  rewrite if_controls_update_axes.
  unfold setPresetView_assign. scene.
  destruct (controls s); reflexivity.
Qed.

Lemma rebuildEdges_axes (s : SceneManager) :
  axesActor (_rebuildEdges s) = axesActor s.
Proof.
  unfold _rebuildEdges, removeFromGroup, addToGroup.
  destruct (_edgesGroup s) as [eg |] eqn:He;
    destruct (artifactGroup s) as [g |] eqn:Hg;
    destruct (core s) as [c |] eqn:Hc;
    settle; rewrite ?Hg, ?Hc; settle; reflexivity.
Qed.

Lemma replaceCore_axes (fileName : string) (geo : list Vector3) (s : SceneManager) :
  axesActor (replaceCore fileName geo s) = axesActor s.
Proof.
  unfold replaceCore, removeFromGroup, addToGroup.
  destruct (core s) as [old |] eqn:Hc;
    destruct (artifactGroup s) as [g |] eqn:Hg;
    settle; rewrite ?Hg; settle; reflexivity.
Qed.

Lemma onload_axes `{ThreeServices} (w : Window) (fileName : string)
    (parsed : option (list Vector3)) (s : SceneManager) :
  axesActor (onload w fileName parsed s) = axesActor s.
Proof.
  destruct parsed as [geometry0 |]; [| reflexivity].
  unfold onload. rewrite if_controls_update_axes.
  set (s4 := _rebuildEdges (replaceCore fileName (normalizeGeometry geometry0) s)).
  set (s5 := setVisualStyle (_visualStyle s4) s4).
  transitivity (axesActor s5).
  - destruct (core s5); [apply fitModelToView_axes | reflexivity].
  - subst s5 s4. rewrite setVisualStyle_axes, rebuildEdges_axes.
    apply replaceCore_axes.
Qed.

Lemma setFeatureAngle_axes (deg : R) (s : SceneManager) :
  axesActor (setFeatureAngle deg s) = axesActor s.
Proof.
  unfold setFeatureAngle. scene.
  destruct (core s); [| reflexivity].
  rewrite setVisualStyle_axes, rebuildEdges_axes. reflexivity.
Qed.

Lemma rotateModelByDegrees_axes `{ThreeServices} (w : Window) (degrees : R)
    (axis : AxisArg) (dur : R) (space : string) (s : SceneManager) :
  axesActor (rotateModelByDegrees w degrees axis dur space s) = axesActor s.
Proof.
  unfold rotateModelByDegrees.
  destruct (artifactGroup s) as [g |]; [| reflexivity].
  destruct (Rle_dec dur 0); destruct (_rotationAnimating s); reflexivity.
Qed.

Lemma step_axes `{ThreeServices} (k : RotationStep) (now : R) (s : SceneManager) :
  axesActor (fst (step k now s)) = axesActor s.
Proof.
  unfold step.
  destruct (_rotationCancelToken s); [reflexivity |].
  destruct (artifactGroup s) as [g |]; [| reflexivity].
  destruct (Rlt_dec _ _); reflexivity.
Qed.

Lemma runCallbacks_axes `{ThreeServices} (ks : list RotationStep) (now : R) :
  forall s, axesActor (runCallbacks ks now s) = axesActor s.
Proof.
  induction ks as [| k rest IH]; intros s; [reflexivity |].
  cbn [runCallbacks].
  pose proof (step_axes k now s) as Hs.
  destruct (step k now s) as [s1 again]. cbn [fst] in Hs.
  rewrite IH. destruct again; exact Hs.
Qed.

(** The render loop moves the widget's camera and turns its axes, and
    leaves its visibility flag alone. *)
Lemma animate_axesShown `{ThreeServices} (s : SceneManager) :
  axesShown (animate s) = axesShown s.
Proof.
  unfold animate, axesShown.
  pose proof (if_controls_update_axes s) as E.
  destruct (axesActor (if_controls_update s)) as [a |] eqn:Ea.
  - destruct (camera (if_controls_update s)) as [cam |].
    + scene. rewrite <- E. unfold syncWithCamera. reflexivity.
    + rewrite Ea, <- E. reflexivity.
  - rewrite Ea, <- E. reflexivity.
Qed.

Lemma applyOp_axesShown `{ThreeServices} (w : Window) (op : SceneOp)
    (s : SceneManager) :
  setPresetViewQuaternion w = None ->
  togglesAxes (Asked op) = false ->
  axesShown (applyOp w op s) = axesShown s.
Proof.
  intros Hw Ht. unfold axesShown.
  destruct op; cbn [applyOp]; try discriminate Ht.
  - rewrite onload_axes. reflexivity.
  - rewrite setFeatureAngle_axes. reflexivity.
  - rewrite setVisualStyle_axes. reflexivity.
  - unfold highlightModel. destruct (core s); reflexivity.
  - unfold selectionPointerUp. destruct (core s); [| reflexivity].
    destruct (negb _); reflexivity.
  - rewrite fitModelToView_axes. reflexivity.
  - rewrite setPresetView_axes by exact Hw. reflexivity.
  - rewrite rotateModelByDegrees_axes. reflexivity.
  - unfold animationFrame. rewrite runCallbacks_axes. scene.
    exact (animate_axesShown s).
  - unfold handleResize. destruct (camera s); [| reflexivity].
    cbn [negb]. rewrite if_controls_update_axes. reflexivity.
  - rewrite setSensitivities_merged. reflexivity.
Qed.

(** X26.  The check mark of 'Show Axes' stays in step with the widget.  The
    menu keeps a flag of its own and hands its negation to [toggleAxes] on
    every click; nothing else the scene manager is asked for, the render
    loop included, changes the widget's visibility flag.  So as long as
    [toggleAxes] is reached through the menu only, the two flags agree
    after any run that started with them equal, as they are at start-up,
    and both have flipped once per click. *)
Theorem show_axes_entry_follows_widget `{ThreeServices} (w : Window)
    (es : list ViewMenuEvent) (s : SceneManager) (flag : bool) :
  setPresetViewQuaternion w = None ->
  axesShown s = Some flag ->
  (forall e, In e es -> togglesAxes e = false) ->
  let st := viewMenuRun w es (flag, s) in
  axesShown (snd st) = Some (fst st)
  /\ fst st = xorb flag (Nat.odd (List.length (filter isClick es))).
Proof.
  intros Hw. unfold viewMenuRun. revert s flag.
  induction es as [| e rest IH]; intros s flag Hs Hes; cbn [fold_left].
  - cbn. split; [exact Hs | destruct flag; reflexivity].
  - destruct e as [| op]; cbn [viewMenuStep fst snd filter isClick].
    + unfold showAxesAction.
      assert (Hs1 : axesShown (toggleAxes (Some (negb flag)) s) = Some (negb flag)).
      { unfold axesShown, toggleAxes in *.
        destruct (axesActor s); [reflexivity | discriminate Hs]. }
      destruct (IH _ _ Hs1 (fun e H' => Hes e (or_intror H'))) as [A B].
      split; [exact A |]. rewrite B. cbn [List.length].
      rewrite Nat.odd_succ, <- Nat.negb_odd.
      destruct flag, (Nat.odd _); reflexivity.
    + assert (Hs1 : axesShown (applyOp w op s) = Some flag).
      { rewrite applyOp_axesShown; [exact Hs | exact Hw |].
        apply Hes. left. reflexivity. }
      exact (IH _ _ Hs1 (fun e H' => Hes e (or_intror H'))).
Qed.

Lemma show_axes_entry_follows_widget_witness :
  axesShown
    (snd (@viewMenuRun plainThree plainWindow
            [ClickShowAxes; Asked (OpFrame 1016); ClickShowAxes; ClickShowAxes]
            (true, sampleScene)))
  = Some false.
Proof.
  destruct (@show_axes_entry_follows_widget plainThree plainWindow
              [ClickShowAxes; Asked (OpFrame 1016); ClickShowAxes; ClickShowAxes]
              sampleScene true eq_refl eq_refl) as [A B].
  - intros e [E | [E | [E | [E | []]]]]; subst e; reflexivity.
  - rewrite A, B. reflexivity.
Defined.

Lemma normalize_multiplyScalar (v : Vector3) (k : R) :
  0 < k -> normalize (multiplyScalar v k) = normalize v.
Proof.
  intros Hk. unfold normalize.
  rewrite length_multiplyScalar by lra.
  unfold num_or.
  destruct (Req_dec_T (length v) 0) as [E | N].
  - destruct (Req_dec_T (length v * k) 0) as [_ | N']; [| exfalso; apply N'; rewrite E; ring].
    apply length_zero_iff in E. subst v.
    unfold divideScalar, multiplyScalar, zero3. apply v3_eq; simpl; ring.
  - destruct (Req_dec_T (length v * k) 0) as [E' | _]; [exfalso; nra |].
    unfold divideScalar, multiplyScalar. apply v3_eq; simpl; field; split; lra.
Qed.

(** X27.  The axes widget shows the direction from the look target to the
    camera and nothing else of their positions: moving the camera and the
    target by one offset, as a pan step does, or moving the camera along
    its line to the target by a positive factor, as a dolly does, leaves
    the widget [syncWithCamera] builds exactly as it was. *)
Theorem axes_widget_ignores_pan_and_dolly `{ThreeServices} (a : AxesActor)
    (cam : Camera) (tgt off : Vector3) (k : R) :
  0 < k ->
  syncWithCamera a
    (Some (cam_set_position (add (cam_position cam) off) cam))
    (TargetVector (add tgt off))
  = syncWithCamera a (Some cam) (TargetVector tgt)
  /\ syncWithCamera a
       (Some (cam_set_position
                (add tgt (multiplyScalar (sub (cam_position cam) tgt) k)) cam))
       (TargetVector tgt)
     = syncWithCamera a (Some cam) (TargetVector tgt).
Proof.
  intros Hk. unfold syncWithCamera. scene.
  split.
  - rewrite sub_add_same. reflexivity.
  - rewrite sub_add_cancel_l, normalize_multiplyScalar by exact Hk. reflexivity.
Qed.

Lemma axes_widget_ignores_pan_and_dolly_witness :
  @syncWithCamera plainThree sampleAxes
    (Some (cam_set_position (add (cam_position frontCamera) (mkV3 1 2 0)) frontCamera))
    (TargetVector (add (mkV3 0 0 0) (mkV3 1 2 0)))
  = @syncWithCamera plainThree sampleAxes (Some frontCamera) (TargetVector (mkV3 0 0 0)).
Proof.
  refine (proj1 (@axes_widget_ignores_pan_and_dolly plainThree sampleAxes frontCamera
                   (mkV3 0 0 0) (mkV3 1 2 0) 2 _)). lra.
Defined.

(** ** Mouse buttons *)

(** X28.  [setMouseMapping] knows two mappings.  Read without regard to case,
    'inventor' puts pan on the middle and dolly on the right button; every
    other name, 'blender' and the empty one included, puts dolly on the
    middle and pan on the right one.  Either way the left button rotates,
    the three buttons get three different actions, and panning and zooming
    are enabled without damping, whatever the options were; without a
    controls object nothing happens.  The capturing listeners of [init]
    write the middle button on their own: a middle press makes it pan with
    Shift and rotate without, and every middle release makes it rotate, so
    after one under the 'inventor' mapping left and middle both rotate.
    Right presses and releases are swallowed and change nothing. *)
Theorem mouse_mapping_and_capture (mapping : string) (c : ControlsOptions)
    (ev : PointerEvent) :
  setMouseMapping mapping None = None
  /\ setMouseMapping mapping (Some c)
     = Some (mkControlsOptions true true false
               (if String.eqb (toLowerCase mapping) "inventor"
                then mkMouseButtons ROTATE PAN DOLLY
                else mkMouseButtons ROTATE DOLLY PAN))
  /\ (forall c', setMouseMapping mapping (Some c) = Some c' ->
        LEFT (mouseButtons c') = ROTATE
        /\ MIDDLE (mouseButtons c') <> ROTATE
        /\ RIGHT (mouseButtons c') <> ROTATE
        /\ MIDDLE (mouseButtons c') <> RIGHT (mouseButtons c'))
  /\ (button ev = 1%Z ->
      MIDDLE (mouseButtons (fst (canvasCaptureHandler ev c)))
      = (if shiftKey ev then PAN else ROTATE)
      /\ snd (canvasCaptureHandler ev c) = false
      /\ forall c',
           setMouseMapping "Inventor" (Some c) = Some c' ->
           mouseButtons (fst (canvasCaptureUp ev c'))
           = mkMouseButtons ROTATE ROTATE DOLLY)
  /\ (button ev = 2%Z ->
      canvasCaptureHandler ev c = (c, true) /\ canvasCaptureUp ev c = (c, true))
  /\ (button ev <> 1%Z ->
      fst (canvasCaptureHandler ev c) = c /\ fst (canvasCaptureUp ev c) = c).
Proof.
  assert (E : setMouseMapping mapping (Some c)
              = Some (mkControlsOptions true true false
                        (if String.eqb (toLowerCase mapping) "inventor"
                         then mkMouseButtons ROTATE PAN DOLLY
                         else mkMouseButtons ROTATE DOLLY PAN))).
  { unfold setMouseMapping, str_or.
    destruct (String.eqb_spec mapping "") as [-> | N]; [reflexivity |].
    destruct (String.eqb (toLowerCase mapping) "inventor"); [reflexivity |].
    destruct (String.eqb (toLowerCase mapping) "blender"); reflexivity. }
  split; [reflexivity |]. split; [exact E |].
  split; [| split; [| split]].
  - intros c' Hc'. rewrite E in Hc'. injection Hc' as <-.
    destruct (String.eqb (toLowerCase mapping) "inventor");
      cbn [mouseButtons LEFT MIDDLE RIGHT]; repeat split; discriminate.
  - intros Hb. unfold canvasCaptureHandler, canvasCaptureUp. rewrite Hb.
    cbn [Z.eqb Pos.eqb fst snd set_MIDDLE mouseButtons MIDDLE].
    split; [reflexivity |]. split; [reflexivity |].
    intros c' Hc'. cbn in Hc'. injection Hc' as <-. reflexivity.
  - intros Hb. unfold canvasCaptureHandler, canvasCaptureUp. rewrite Hb.
    cbn [Z.eqb Pos.eqb]. split; reflexivity.
  - intros Hb. unfold canvasCaptureHandler, canvasCaptureUp.
    destruct (Z.eqb_spec (button ev) 1) as [E1 | _]; [contradiction |].
    destruct (Z.eqb (button ev) 2); split; reflexivity.
Qed.

(** ** The scene tree *)

Lemma SceneObject_induction (P : TreeView.SceneObject -> Prop) :
  (forall uuid name type visible children,
     Forall P children ->
     P (TreeView.mkSceneObject uuid name type visible children)) ->
  forall obj, P obj.
Proof.
  intros H. fix IH 1. intros [uuid name type visible children].
  apply H. induction children as [| c r IHr]; constructor; [apply IH | exact IHr].
Qed.

Lemma Node_induction (P : TreeView.Node -> Prop) :
  (forall id name type visible depth children,
     Forall P children ->
     P (TreeView.mkNode id name type visible depth children)) ->
  forall n, P n.
Proof.
  intros H. fix IH 1. intros [id name type visible depth children].
  apply H. induction children as [| c r IHr]; constructor; [apply IH | exact IHr].
Qed.

Lemma hasChildren_map {A B : Type} (f : A -> B) (l : list A) :
  TreeView.hasChildren (map f l) = TreeView.hasChildren l.
Proof. destruct l; reflexivity. Qed.

Lemma flat_map_flat_map {A B C : Type} (f : A -> list B) (g : B -> list C)
    (l : list A) :
  flat_map g (flat_map f l) = flat_map (fun a => flat_map g (f a)) l.
Proof.
  induction l as [| a r IH]; [reflexivity |].
  cbn [flat_map]. rewrite flat_map_app, IH. reflexivity.
Qed.

Lemma flat_map_map {A B C : Type} (f : A -> B) (g : B -> list C) (l : list A) :
  flat_map g (map f l) = flat_map (fun a => g (f a)) l.
Proof.
  induction l as [| a r IH]; [reflexivity |].
  cbn [map flat_map]. rewrite IH. reflexivity.
Qed.

Lemma map_flat_map {A B C : Type} (f : A -> list B) (g : B -> C) (l : list A) :
  map g (flat_map f l) = flat_map (fun a => map g (f a)) l.
Proof.
  induction l as [| a r IH]; [reflexivity |].
  cbn [flat_map]. rewrite map_app, IH. reflexivity.
Qed.

Lemma flat_map_ext_Forall {A B : Type} (f g : A -> list B) (l : list A) :
  Forall (fun a => f a = g a) l -> flat_map f l = flat_map g l.
Proof.
  induction 1 as [| a r Ha _ IH]; [reflexivity |].
  cbn [flat_map]. rewrite Ha, IH. reflexivity.
Qed.

Lemma render_buildNode (obj : TreeView.SceneObject) :
  forall depth,
    flat_map TreeView.treeItems (TreeView._renderNode (TreeView.buildNode obj depth))
    = map itemFor (objectsPreorder obj depth).
Proof.
  induction obj as [uuid name type visible children IH] using SceneObject_induction.
  intros depth.
  cbn [TreeView.buildNode TreeView._renderNode objectsPreorder].
  rewrite hasChildren_map.
  set (built := map (fun child => TreeView.buildNode child (S depth)) children).
  assert (Hc : flat_map TreeView.treeItems
                 (if TreeView.hasChildren children
                  then [TreeView.TreeChildren uuid
                          (flat_map TreeView._renderNode built)]
                  else [])
               = flat_map TreeView.treeItems (flat_map TreeView._renderNode built)).
  { subst built. destruct children; cbn [TreeView.hasChildren]; [reflexivity |].
    cbn [flat_map TreeView.treeItems]. apply app_nil_r. }
  cbn [flat_map TreeView.treeItems app map].
  rewrite Hc. unfold itemFor at 1. cbn [fst snd]. f_equal.
  subst built.
  rewrite flat_map_flat_map, flat_map_map, map_flat_map.
  apply flat_map_ext_Forall.
  eapply Forall_impl; [| exact IH].
  intros a Ha. apply Ha.
Qed.

(** X29.  The tree [buildFromScene] renders for a scene shows every object once,
    in pre-order: the item of an object at depth [d] carries the object's
    uuid, is indented by [12 * d + 4] pixels, is labelled with the object's
    name, or its type, or 'Object', has an expander exactly when the object
    has children, and is dimmed exactly when the object is invisible; the
    selected id is kept.  Without a root object the tree data and the
    selection are dropped and the panel shows 'No objects in scene' and no
    item. *)
Theorem tree_shows_every_object_once (root : TreeView.SceneObject)
    (tv : TreeView.t) :
  TreeView.allTreeItems (TreeView.buildFromScene (Some root) tv)
  = map itemFor (objectsPreorder root 0)
  /\ List.length (TreeView.allTreeItems (TreeView.buildFromScene (Some root) tv))
     = List.length (objectsPreorder root 0)
  /\ TreeView.selectedNode (TreeView.buildFromScene (Some root) tv)
     = TreeView.selectedNode tv
  /\ TreeView.buildFromScene None tv
     = TreeView.mk None None [TreeView.Placeholder "No objects in scene"]
  /\ TreeView.allTreeItems (TreeView.buildFromScene None tv) = [].
Proof.
  assert (E : TreeView.allTreeItems (TreeView.buildFromScene (Some root) tv)
              = map itemFor (objectsPreorder root 0))
    by apply render_buildNode.
  split; [exact E |]. split; [rewrite E; apply length_map |].
  repeat split.
Qed.

Lemma updateFirst_app (nodeId : string) (u : TreeView.Updates)
    (a b : list TreeView.Node) :
  updateFirst nodeId u (a ++ b)
  = if existsb (hasId nodeId) a then (updateFirst nodeId u a ++ b)%list
    else (a ++ updateFirst nodeId u b)%list.
Proof.
  induction a as [| n r IH]; [reflexivity |].
  cbn [app updateFirst existsb]. unfold hasId at 1.
  destruct (String.eqb (TreeView.node_id n) nodeId); cbn [orb]; [reflexivity |].
  rewrite IH. destruct (existsb (hasId nodeId) r); reflexivity.
Qed.

Lemma updateFirst_absent (nodeId : string) (u : TreeView.Updates)
    (l : list TreeView.Node) :
  existsb (hasId nodeId) l = false -> updateFirst nodeId u l = l.
Proof.
  induction l as [| n r IH]; [reflexivity |].
  cbn [existsb updateFirst]. unfold hasId at 1.
  destruct (String.eqb (TreeView.node_id n) nodeId); cbn [orb]; [discriminate |].
  intros H. rewrite (IH H). reflexivity.
Qed.

Lemma findAndUpdate_preorder (nodeId : string) (u : TreeView.Updates)
    (tree : TreeView.Node) :
  nodesPreorder (fst (TreeView.findAndUpdate nodeId u tree))
  = updateFirst nodeId u (nodesPreorder tree)
  /\ snd (TreeView.findAndUpdate nodeId u tree)
     = existsb (hasId nodeId) (nodesPreorder tree)
  /\ (snd (TreeView.findAndUpdate nodeId u tree) = false ->
      fst (TreeView.findAndUpdate nodeId u tree) = tree).
Proof.
  induction tree as [id name type visible depth children IH] using Node_induction.
  cbn [TreeView.findAndUpdate nodesPreorder updateFirst existsb].
  unfold hasId at 1. cbn [TreeView.node_id].
  destruct (String.eqb id nodeId) eqn:Eid.
  - cbn [fst snd TreeView.assignUpdates nodesPreorder orb].
    split; [reflexivity |]. split; [reflexivity | discriminate].
  - cbn [orb].
    set (each := fix each (cs : list TreeView.Node) : list TreeView.Node * bool :=
                   match cs with
                   | [] => ([], false)
                   | c :: rest =>
                       let '(c', found) := TreeView.findAndUpdate nodeId u c in
                       if found then (c' :: rest, true)
                       else let '(rest', found') := each rest in (c :: rest', found')
                   end).
    assert (He : flat_map nodesPreorder (fst (each children))
                 = updateFirst nodeId u (flat_map nodesPreorder children)
                 /\ snd (each children)
                    = existsb (hasId nodeId) (flat_map nodesPreorder children)
                 /\ (snd (each children) = false -> fst (each children) = children)).
    { induction IH as [| c rest [Hc1 [Hc2 Hc3]] _ IHr].
      - cbn. split; [reflexivity |]. split; [reflexivity |]. reflexivity.
      - cbn [each flat_map]. fold each.
        destruct (TreeView.findAndUpdate nodeId u c) as [c' found].
        cbn [fst snd] in Hc1, Hc2, Hc3.
        rewrite updateFirst_app, existsb_app, <- Hc2.
        destruct found; cbn [orb].
        + cbn [fst snd flat_map]. rewrite Hc1.
          split; [reflexivity |]. split; [reflexivity | discriminate].
        + destruct IHr as [Hr1 [Hr2 Hr3]].
          destruct (each rest) as [rest' found'].
          cbn [fst snd flat_map] in *.
          rewrite (Hc3 eq_refl) in Hc1.
          split; [rewrite Hr1; reflexivity |].
          split; [exact Hr2 |].
          intros Hf. rewrite (Hr3 Hf). reflexivity. }
    destruct (each children) as [children' found].
    cbn [fst snd] in *. destruct He as [H1 [H2 H3]].
    cbn [nodesPreorder]. rewrite H1.
    split; [reflexivity |]. split; [exact H2 |].
    intros Hf. rewrite (H3 Hf). reflexivity.
Qed.

(** X30.  [updateNode] changes the first node in pre-order that has the given id,
    and only that one: the name, type and visibility it is given replace
    the node's, its id and depth stay, and so does every other
    node.  The panel is rendered again from the changed tree when some node
    has the id; when none has, or the tree is empty, the tree view is left
    exactly as it was. *)
Theorem updateNode_changes_first_match (nodeId : string) (u : TreeView.Updates)
    (tree : TreeView.Node) (tv : TreeView.t) :
  (TreeView.treeData tv = Some tree ->
   exists tree',
     TreeView.treeData (TreeView.updateNode nodeId u tv) = Some tree'
     /\ nodesPreorder tree' = updateFirst nodeId u (nodesPreorder tree)
     /\ (existsb (hasId nodeId) (nodesPreorder tree) = true ->
         TreeView.content (TreeView.updateNode nodeId u tv)
         = TreeView._renderNode tree')
     /\ (existsb (hasId nodeId) (nodesPreorder tree) = false ->
         TreeView.updateNode nodeId u tv = tv))
  /\ (TreeView.treeData tv = None -> TreeView.updateNode nodeId u tv = tv).
Proof.
  split.
  - intros Htree.
    destruct (findAndUpdate_preorder nodeId u tree) as [H1 [H2 H3]].
    unfold TreeView.updateNode. rewrite Htree.
    destruct (TreeView.findAndUpdate nodeId u tree) as [tree' found].
    cbn [fst snd] in *. exists tree'. rewrite <- H2.
    destruct found.
    + split; [reflexivity |]. split; [exact H1 |].
      split; [reflexivity | discriminate].
    + split; [reflexivity |]. split; [exact H1 |].
      split; [discriminate |].
      intros _. rewrite (H3 eq_refl).
      destruct tv as [d sel c]. cbn in Htree |- *. rewrite Htree. reflexivity.
  - intros Hnone. unfold TreeView.updateNode. rewrite Hnone. reflexivity.
Qed.
